(* ===== verification/_CoqProject ===== *)
-Q . S2P
Prelude.v
MachInt.v
Rational.v
RunningAverage.v
Sense.v
Current.v
RingBuffer.v
Temperature.v
Mppt.v
Protections.v
Firmware.v
Control.v
Model.v
Schedule.v
