(* ===== verification/Prelude.v ===== *)
(** * Motor controller firmware: sensing and protection loop

    A verification development for the two modules of the motor / solar
    charge controller firmware that carry its control logic:

      src/Motor Controller Firmware/src/modules/sense.cpp
      src/Motor Controller Firmware/src/modules/protections.cpp

    ** The program

    [sense.cpp] keeps the electrical operating point in global variables.
    [senseZeroCurrent] averages five raw ADC readings into the zero-current
    offset [zeroISenseVADC]; [senseCurrent] pushes one raw reading into a
    16-sample moving average, bumps the 'unsigned int' [sumCounter], reads
    the average back (the cheap running sum, or a full re-summation when
    the counter equals 65535) and converts it to amperes; [senseVoltage]
    averages five readings into [vSenseADC] and converts to volts;
    [sensePower] multiplies the two; [trackMPPT] scans the 100-entry power
    history [powerA] for a maximum [mx] and selects one of three (empty)
    branches.  [protections.cpp] has one function, [checkProtections],
    which compares [iSenseVADC] and [vSenseADC] with thresholds, sets three
    flags and nudges the shared [duty] variable.

    The functions communicate through the globals only.  The loop that
    calls them, the timers' implementation, the ADC, the temperature
    probes, the moving-average class and the PWM output are outside the
    two files.

    ** Files, in dependency order

    - [Prelude] (this file): notation for sequencing state transformers,
      the tactics ([case_cmp], [by_compute], [zdiv]) and hint databases
      ([fw], [fw_rw]) of the development, and the lemmas on truncating
      division, sums of lists and the last [n] elements of a list that
      several components use.
    - [MachInt]: the C integer types at the target's width.  A [Target]
      class gives the number of bits of 'int' (at least 16); [wrapS] and
      [wrapU] are two's-complement and unsigned wrap-around on [Z];
      [int_add], [int_sub], [int_div], [int_incr] and [uint_incr] are the
      C operators.  Instances [avr] (16 bits, the Arduino boards the
      firmware is written for) and [arm32] (32 bits).  Every component is
      a section over a [Target]; the theorems hold for both widths and the
      concrete examples run on [avr].
    - [Rational]: 'float' values as [Q]; conversion to 'int' ([Qtrunc]),
      comparison, and the [max] macro ([Qmaxc]), with [Proper] instances
      for [Qeq].
    - [RunningAverage]: the moving-average class [sense.cpp]
      instantiates, modelled from the specification because its code is
      not in the sources: [filter] (window size, window, running sum),
      [addValue], [getFastAverage], [getAverage].  Invariant [wf]; the
      window after any additions is the last N values
      ([contents_addValues]); [drift] is the error of the running sum.
    - [Sense]: the record [Globals] of the variables of sense.cpp (lines
      20-34, 51) with [initial]; the loop on the global counter
      ([for_senseSamples]); [senseZeroCurrent], [senseCurrent],
      [senseVoltage], [sensePower].  Theorems on the two averaging
      functions: closed forms, ranges, and the effect of accumulating onto
      a variable that is not reset.
    - [Current]: what [senseCurrent] computes.  The reading each path of
      the counter test stores when the running sum is off by [drift]; the
      stored reading of a well-formed filter is the truncated window
      average; the invariant [current_inv]; the call on which the window
      is re-summed; round trip of a constant signal; amperes.
    - [RingBuffer]: the representation of the filter the specification
      describes, a ring of N slots with a write index, a count and a
      running sum ([ring], [rb_addValue], ...), its invariant [rb_ok] and
      the abstraction [abs] to the list filter.  The class
      [MovingAverage] is the interface of a filter, with the list filter
      and the ring as instances; [ma_reading] is the sequence of filter
      calls of [senseCurrent], derived from it
      ([senseCurrent_ma_reading]).
    - [Temperature]: [configureTempSensors] and [senseTemperatures], with
      the write to [tempC] checked against the array's two entries; a
      result is a state or the fault [OutOfBounds].
    - [Mppt]: [trackMPPT]: the scan of [powerA] into [mx] with its
      'int'-typed loop variable, and the branch the conditions select.
    - [Protections]: [checkProtections] of protections.cpp on the state
      [Firmware] (the globals, the three flags, [duty]); [Config] holds
      the three preprocessor symbols.  The rule table of the
      specification is the abstract specification and
      [checkProtections_refines_rules] the refinement theorem.
    - [Firmware]: the entry points as a transition system ([Call],
      [run_call], [step], [reachable]) from [boot]; the invariant
      [sense_inv] of the reachable states, proved by induction on
      [reachable], and what follows from it for the running firmware.
    - [Control]: the relation [same_control] between states that agree on
      the integer variables, the flags and [duty]; it is an equivalence
      and every entry point is a morphism for it ([Proper] instances).
    - [Model]: an abstract machine for the electrical path, on unbounded
      integers and a list window ([Model], [model_call]), the simulation
      relation [sim] and the simulation lemma [sim_call], one case per
      entry point.
    - [Schedule]: the four timers with the periods sense.cpp declares
      (lines 41-48) and the control loop of the specification ([poll],
      [tick], [run_ticks]); the loop equals a schedule that depends on
      the time only ([tick_calls_at], [run_ticks_schedule]).

    ** What the theorems show

    - Protection rules ([Protections]): each rule's flag and duty change
      exactly as the rule table states, thresholds strict, blocks that are
      compiled out inert, flags without memory; [duty] moves by -2 .. 3
      per call and is never clamped, so a persistent overcurrent wraps it;
      overcurrent and overvoltage cancel.
    - Averaging ([Sense]): the first zero offset is the truncated average
      of five readings; later calls and every voltage reading accumulate
      onto the old value, so the voltage settles a quarter above the
      input and the overvoltage rule fires from 677 counts instead of
      845.
    - Current path ([Current]): see above; while the window fills the
      reading is low.
    - Filter representation ([RingBuffer]): the ring implements the list
      filter (every operation commutes with [abs]); after any readings it
      holds the last N in order with their sum, and the reading the next
      sensing call takes from it is their average.
    - Temperature ([Temperature]): the function returns for at most two
      probes and faults at index 2 otherwise; its loop terminates, with
      the same result for every fuel above the number of probes.
    - Power tracker ([Mppt]): the scan is a maximum of truncated entries;
      [mx] never decreases; the branch selected in each case.
    - Running firmware ([Firmware]): ranges of every sensing variable in
      every reachable state, hence no 'int' overflow in the sensing
      functions; [senseTemperatures] is the only call that can fault;
      the decrease branch of [trackMPPT] is unreachable because nothing
      writes the power history; the minimum-duty rule fires during the
      filter's warm-up.
    - Control dependence ([Control]): flags and [duty] after any calls
      are a function of the integer variables and the converter readings;
      [current], [voltage], [power], the power history, [mx] and the
      temperatures are never read back, so [trackMPPT] and the probes
      cannot move [duty].
    - Refinement ([Model]): after any sequence of calls from start-up
      the firmware's variables are those of the abstract machine, and
      [duty] is the machine's unbounded duty wrapped to the width of
      'int'; over n protection checks the unbounded duty stays within
      -2n .. 3n of its start, so [duty] cannot wrap before thousands of
      checks.
    - Control loop ([Schedule]): with at most two probes the loop returns
      from every pass; the trace of the polled timers has each task at
      its declared cadence; after 100
      passes at constant inputs the stored voltage reading is a quarter
      above the input and [power] is computed from it.

    ** Bounds and fuel

    The loops of the source run on the global counter [senseSamples]; the
    models take a fuel argument and are given one unit more than the
    number of iterations the loop can make, so that a loop is left by its
    guard (or by a fault) and never by the fuel.  The two averaging
    loops make five iterations and have fuel 6; the loop lemma
    ([for_senseSamples_rule]) holds for every fuel that covers the
    iterations.  The temperature loop makes at most [deviceCount]
    iterations and has fuel [deviceCount + 1]; [read_loop_ok],
    [read_loop_fault] and [read_loop_exit] hold for every larger fuel,
    and [senseTemperatures_fuel_independent] states that the result does
    not depend on it.  ADC readings are taken in 0 .. 1023.  The
    accumulated variables then stay in 0 .. 1278
    ((1278 + 5 * 1023) / 5 = 1278), below the 32767 of a 16-bit 'int',
    which is why the theorems need only [int_bits >= 16].

    ** Not modelled

    Rounding of 'float' (values are exact rationals; the window average
    sum / 16 of integers below 2^24 is exact in binary32 as well); the
    OneWire and DallasTemperature drivers; [analogRead]; the wrap-around
    of the millisecond clock the timers read (time is an unbounded
    integer, and the loop makes one pass per millisecond); the PWM output
    that consumes [duty].  The moving-average class, the timer class and
    the control loop are not in the sources: they are modelled from the
    specification, and theorems that depend on them say so in the file
    that states them.

    ** Conventions

    Machine integers are [Z] with the wrap-around written out, so that an
    overflow is visible in a statement.  Signed overflow is undefined
    behaviour in C++; the model gives it the two's-complement result that
    the compilers of these targets produce, and the bounds theorems show
    where it cannot occur.  Integer division is C's, truncating toward
    zero ([Z.quot]).  'float' quantities are exact rationals ([Q], compared
    with [Qeq]): rounding is not modelled, and the theorems about amperes,
    volts and watts are theorems about the ideal values.  ADC readings are
    inputs: an operation that calls [analogRead] takes the readings as an
    argument, and theorems that need it assume the 10-bit range 0..1023.
*)

From Stdlib Require Import ZArith List Lia Bool.
Import ListNotations.

#[local] Open Scope Z_scope.

(** ** Sequencing of state transformers *)

Declare Scope fw_scope.
Delimit Scope fw_scope with fw.

Definition seq_tr {S : Type} (f g : S -> S) : S -> S := fun s => g (f s).

Notation "f ;; g" := (seq_tr f g)
  (at level 100, g at level 200, right associativity) : fw_scope.

Lemma seq_tr_assoc {S : Type} (f g h : S -> S) (s : S) :
  seq_tr (seq_tr f g) h s = seq_tr f (seq_tr g h) s.
Proof. reflexivity. Qed.

(** ** Hint databases

    [fw] collects the range and well-formedness lemmas that [auto] chains;
    [fw_rw] collects the rewriting lemmas that simplify wrap-around and
    record projections. *)

Create HintDb fw.
Create Rewrite HintDb fw_rw.

(** ** Tactics *)

(** Case analysis on every boolean integer comparison of the goal, leaving
    the comparison as a proposition in the context. *)
Ltac case_cmp :=
  repeat match goal with
  | |- context [Z.ltb ?a ?b] => destruct (Z.ltb_spec a b)
  | |- context [Z.leb ?a ?b] => destruct (Z.leb_spec a b)
  | |- context [Z.eqb ?a ?b] => destruct (Z.eqb_spec a b)
  | |- context [Z.gtb ?a ?b] => rewrite (Z.gtb_ltb a b)
  | |- context [Z.geb ?a ?b] => rewrite (Z.geb_leb a b)
  end.

(** Decide a closed equation, comparison or range by evaluation. *)
Ltac by_compute :=
  vm_compute; first [reflexivity | discriminate | split; discriminate].

(** Linear arithmetic with the euclidean equations of [/], [mod] and the
    truncating [Z.quot], [Z.rem] made available. *)
Ltac zdiv := Z.to_euclidean_division_equations; lia.

(** ** Sums of integer lists *)

Definition sumZ (l : list Z) : Z := fold_right Z.add 0 l.

(** Every element of [l] lies in [lo .. hi]. *)
Definition all_within (lo hi : Z) (l : list Z) : Prop :=
  Forall (fun x => lo <= x <= hi) l.

Lemma sumZ_app (l1 l2 : list Z) : sumZ (l1 ++ l2) = sumZ l1 + sumZ l2.
Proof. induction l1 as [|x l1 IH]; simpl; lia. Qed.

Lemma sumZ_repeat (v : Z) (n : nat) : sumZ (repeat v n) = Z.of_nat n * v.
Proof. induction n as [|n IH]; [reflexivity|]. cbn [repeat sumZ fold_right]. fold (sumZ (repeat v n)). lia. Qed.

Lemma sumZ_bounds (lo hi : Z) (l : list Z) :
  all_within lo hi l ->
  Z.of_nat (length l) * lo <= sumZ l <= Z.of_nat (length l) * hi.
Proof.
  induction 1 as [|x l Hx _ IH]; [simpl; lia|].
  cbn [sumZ fold_right length]. fold (sumZ l). lia.
Qed.

Lemma all_within_repeat (lo hi v : Z) (n : nat) :
  lo <= v <= hi -> all_within lo hi (repeat v n).
Proof. intros Hv. induction n; simpl; constructor; auto. Qed.

Lemma all_within_weaken (lo hi lo' hi' : Z) (l : list Z) :
  lo' <= lo -> hi <= hi' -> all_within lo hi l -> all_within lo' hi' l.
Proof. intros Hlo Hhi H. eapply Forall_impl; [|exact H]. simpl. lia. Qed.

#[export] Hint Resolve all_within_repeat : fw.

(** ** Truncating division *)

Lemma quot_nonneg_bounds (a b lo hi : Z) :
  0 < b -> 0 <= lo -> b * lo <= a -> a < b * (hi + 1) -> lo <= Z.quot a b <= hi.
Proof.
  intros Hb Hlo Hl Hh. split.
  - now apply Z.quot_le_lower_bound.
  - enough (Z.quot a b < hi + 1) by lia.
    apply Z.quot_lt_upper_bound; nia.
Qed.

Lemma quot_mul_add (a b r : Z) :
  0 < b -> 0 <= r < b -> 0 <= a -> Z.quot (b * a + r) b = a.
Proof. intros Hb Hr Ha. symmetry. apply Z.quot_unique with r; nia. Qed.

(** ** Lists: the last [n] elements *)

Definition lastn {A : Type} (n : nat) (l : list A) : list A :=
  skipn (length l - n) l.

Lemma lastn_length {A : Type} (n : nat) (l : list A) :
  length (lastn n l) = Nat.min n (length l).
Proof. unfold lastn. rewrite length_skipn. lia. Qed.

Lemma lastn_all {A : Type} (n : nat) (l : list A) :
  (length l <= n)%nat -> lastn n l = l.
Proof. intros H. unfold lastn. replace (length l - n)%nat with 0%nat by lia. reflexivity. Qed.

Lemma lastn_app_r {A : Type} (n : nat) (l1 l2 : list A) :
  (n <= length l2)%nat -> lastn n (l1 ++ l2) = lastn n l2.
Proof.
  intros H. unfold lastn. rewrite skipn_app, length_app.
  rewrite skipn_all2 by lia. simpl. f_equal. lia.
Qed.

(** Keeping the last [n] after each of two extensions is keeping the last
    [n] of the whole. *)
Lemma lastn_lastn_app {A : Type} (n : nat) (l1 l2 : list A) :
  lastn n (lastn n l1 ++ l2) = lastn n (l1 ++ l2).
Proof.
  unfold lastn. rewrite !length_app, length_skipn.
  destruct (Nat.le_gt_cases (length l1) n) as [H|H].
  - replace (length l1 - n)%nat with 0%nat by lia. simpl. f_equal. lia.
  - rewrite !skipn_app, length_skipn, skipn_skipn.
    f_equal; f_equal; lia.
Qed.

Lemma lastn_cons_full {A : Type} (x : A) (l : list A) (y : A) :
  lastn (S (length l)) ((x :: l) ++ [y]) = l ++ [y].
Proof.
  unfold lastn. rewrite length_app. cbn [length].
  match goal with |- skipn ?n _ = _ => replace n with 1%nat by lia end.
  reflexivity.
Qed.

Lemma all_within_app (lo hi : Z) (l1 l2 : list Z) :
  all_within lo hi l1 -> all_within lo hi l2 -> all_within lo hi (l1 ++ l2).
Proof. intros H1 H2. apply Forall_app. split; assumption. Qed.

Lemma all_within_lastn (lo hi : Z) (n : nat) (l : list Z) :
  all_within lo hi l -> all_within lo hi (lastn n l).
Proof.
  intros H. unfold lastn, all_within in *. rewrite Forall_forall in *.
  intros x Hx. apply H. rewrite <- (firstn_skipn (length l - n) l).
  apply in_or_app. now right.
Qed.

#[export] Hint Resolve all_within_app all_within_lastn : fw.
