(* ===== verification/MachInt.v ===== *)
(** * MachInt: the C integer types at the target's width

    The firmware declares its counters and ADC readings as 'int' and
    'unsigned int'.  Their width depends on the board: 16 bits on the AVR
    boards the firmware targets, 32 bits on ARM boards.  [Target] carries
    the width, which the C++ standard bounds below by 16.  Values are [Z];
    [wrapS] and [wrapU] bring a mathematical result back into the signed
    and the unsigned range.  The lemmas say when wrapping is the identity
    and how it commutes with addition, which is what the components need
    to show that their arithmetic does not overflow. *)

From Stdlib Require Import ZArith Lia Bool.
From S2P Require Import Prelude.

#[local] Open Scope Z_scope.

(** The width of 'int' and 'unsigned int'. *)
Class Target : Type := mkTarget {
  int_bits : Z;
  int_bits_min : 16 <= int_bits
}.

(** The AVR boards (Arduino Uno, Nano, Mega): 16-bit 'int'. *)
#[export] Instance avr : Target := mkTarget 16 (Z.le_refl 16).

Lemma arm32_bits_min : 16 <= 32.
Proof. lia. Qed.

(** ARM boards: 32-bit 'int'. *)
Definition arm32 : Target := mkTarget 32 arm32_bits_min.

Section Width.
Context {T : Target}.

Definition int_modulus : Z := 2 ^ int_bits.
Definition INT_MAX : Z := 2 ^ (int_bits - 1) - 1.
Definition INT_MIN : Z := - 2 ^ (int_bits - 1).
Definition UINT_MAX : Z := 2 ^ int_bits - 1.

(** Representable as 'int', as 'unsigned int'. *)
Definition in_int (z : Z) : Prop := INT_MIN <= z <= INT_MAX.
Definition in_uint (z : Z) : Prop := 0 <= z <= UINT_MAX.

Definition in_intb (z : Z) : bool := (INT_MIN <=? z) && (z <=? INT_MAX).
Definition in_uintb (z : Z) : bool := (0 <=? z) && (z <=? UINT_MAX).

(** Unsigned arithmetic is modulo [2 ^ int_bits]. *)
Definition wrapU (z : Z) : Z := z mod int_modulus.

(** Signed arithmetic, two's complement. *)
Definition wrapS (z : Z) : Z := (z - INT_MIN) mod int_modulus + INT_MIN.

(** The operators of the source on 'int' operands. *)
Definition int_add (a b : Z) : Z := wrapS (a + b).
Definition int_sub (a b : Z) : Z := wrapS (a - b).
Definition int_div (a b : Z) : Z := wrapS (Z.quot a b).
Definition int_incr (a : Z) : Z := wrapS (a + 1).

(** [x++] on an 'unsigned int'. *)
Definition uint_incr (a : Z) : Z := wrapU (a + 1).

(** ** The ranges *)

Lemma half_modulus_pos : 32768 <= 2 ^ (int_bits - 1).
Proof.
  pose proof int_bits_min as H.
  change 32768 with (2 ^ 15). apply Z.pow_le_mono_r; lia.
Qed.

Lemma int_modulus_half : int_modulus = 2 * 2 ^ (int_bits - 1).
Proof.
  pose proof int_bits_min as H. unfold int_modulus.
  rewrite <- Z.pow_succ_r by lia. f_equal. lia.
Qed.

Lemma int_modulus_pos : 65536 <= int_modulus.
Proof. rewrite int_modulus_half. pose proof half_modulus_pos. lia. Qed.

Lemma int_range_facts :
  INT_MIN <= -32768 /\ 32767 <= INT_MAX /\ 65535 <= UINT_MAX /\
  int_modulus = INT_MAX - INT_MIN + 1 /\ UINT_MAX = int_modulus - 1.
Proof.
  pose proof half_modulus_pos. pose proof int_modulus_half.
  unfold INT_MIN, INT_MAX, UINT_MAX, int_modulus in *. lia.
Qed.

(** Every value of a 16-bit 'int' is an 'int' of the target. *)
Lemma small_in_int (z : Z) : -32768 <= z <= 32767 -> in_int z.
Proof. pose proof int_range_facts. unfold in_int. lia. Qed.

Lemma small_in_uint (z : Z) : 0 <= z <= 65535 -> in_uint z.
Proof. pose proof int_range_facts. unfold in_uint. lia. Qed.

Lemma in_intb_spec (z : Z) : reflect (in_int z) (in_intb z).
Proof.
  apply iff_reflect. unfold in_int, in_intb.
  rewrite andb_true_iff, !Z.leb_le. tauto.
Qed.

Lemma in_uintb_spec (z : Z) : reflect (in_uint z) (in_uintb z).
Proof.
  apply iff_reflect. unfold in_uint, in_uintb.
  rewrite andb_true_iff, !Z.leb_le. tauto.
Qed.

(** ** Signed wrap-around *)

Lemma wrapS_in_int (z : Z) : in_int (wrapS z).
Proof.
  pose proof int_range_facts. pose proof int_modulus_pos.
  unfold in_int, wrapS.
  pose proof (Z.mod_pos_bound (z - INT_MIN) int_modulus). lia.
Qed.

Lemma wrapS_id (z : Z) : in_int z -> wrapS z = z.
Proof.
  pose proof int_range_facts. unfold in_int, wrapS. intros Hz.
  rewrite Z.mod_small; lia.
Qed.

Lemma wrapS_exact (a b : Z) : a = b -> in_int b -> wrapS a = b.
Proof. intros -> Hb. now apply wrapS_id. Qed.

Lemma wrapS_idem (z : Z) : wrapS (wrapS z) = wrapS z.
Proof. apply wrapS_id, wrapS_in_int. Qed.

(** Two integers wrap to the same 'int' exactly when they differ by a
    multiple of the modulus. *)
Lemma wrapS_eq_iff (a b : Z) : wrapS a = wrapS b <-> a mod int_modulus = b mod int_modulus.
Proof.
  pose proof int_modulus_pos. unfold wrapS. split; intros E.
  - assert (E' : (a - INT_MIN) mod int_modulus = (b - INT_MIN) mod int_modulus) by lia.
    rewrite <- (Z.sub_add INT_MIN a), <- (Z.sub_add INT_MIN b).
    rewrite Z.add_mod, E', <- Z.add_mod by lia. reflexivity.
  - f_equal. rewrite Zminus_mod, E, <- Zminus_mod. reflexivity.
Qed.

Lemma wrapS_mod (z : Z) : wrapS z mod int_modulus = z mod int_modulus.
Proof.
  pose proof int_modulus_pos. unfold wrapS.
  rewrite Z.add_mod_idemp_l by lia. f_equal. lia.
Qed.

Lemma wrapS_add_l (a b : Z) : wrapS (wrapS a + b) = wrapS (a + b).
Proof.
  pose proof int_modulus_pos. apply wrapS_eq_iff.
  rewrite Z.add_mod, wrapS_mod, <- Z.add_mod by lia. reflexivity.
Qed.

Lemma wrapS_add_r (a b : Z) : wrapS (a + wrapS b) = wrapS (a + b).
Proof. rewrite Z.add_comm, wrapS_add_l. f_equal. lia. Qed.

Lemma wrapS_sub_l (a b : Z) : wrapS (wrapS a - b) = wrapS (a - b).
Proof. unfold Z.sub. apply wrapS_add_l. Qed.

(** One past the largest 'int' is the smallest one. *)
Lemma wrapS_overflow : wrapS (INT_MAX + 1) = INT_MIN.
Proof.
  pose proof int_range_facts as (_ & _ & _ & HM & _). pose proof int_modulus_pos.
  unfold wrapS. replace (INT_MAX + 1 - INT_MIN) with int_modulus by lia.
  rewrite Z.mod_same by lia. lia.
Qed.

Lemma wrapS_underflow : wrapS (INT_MIN - 1) = INT_MAX.
Proof.
  pose proof int_range_facts as (_ & _ & _ & HM & _). pose proof int_modulus_pos.
  unfold wrapS.
  replace (INT_MIN - 1 - INT_MIN) with (int_modulus - 1 + (-1) * int_modulus) by lia.
  rewrite Z.mod_add, Z.mod_small by lia. lia.
Qed.

(** ** Unsigned wrap-around *)

Lemma wrapU_in_uint (z : Z) : in_uint (wrapU z).
Proof.
  pose proof int_range_facts. pose proof int_modulus_pos.
  unfold in_uint, wrapU. pose proof (Z.mod_pos_bound z int_modulus). lia.
Qed.

Lemma wrapU_id (z : Z) : in_uint z -> wrapU z = z.
Proof.
  pose proof int_range_facts. unfold in_uint, wrapU. intros Hz.
  apply Z.mod_small. lia.
Qed.

Lemma wrapU_add_l (a b : Z) : wrapU (wrapU a + b) = wrapU (a + b).
Proof. pose proof int_modulus_pos. unfold wrapU. apply Z.add_mod_idemp_l. lia. Qed.

Lemma uint_incr_below (a : Z) : 0 <= a < UINT_MAX -> uint_incr a = a + 1.
Proof. intros Ha. apply wrapU_id. unfold in_uint. lia. Qed.

Lemma uint_incr_max : uint_incr UINT_MAX = 0.
Proof.
  pose proof int_modulus_pos. unfold uint_incr, wrapU, UINT_MAX.
  replace (2 ^ int_bits - 1 + 1) with int_modulus by (unfold int_modulus; lia).
  apply Z.mod_same. lia.
Qed.

(** ** The operators without overflow *)

Lemma int_add_exact (a b : Z) : in_int (a + b) -> int_add a b = a + b.
Proof. apply wrapS_id. Qed.

Lemma int_sub_exact (a b : Z) : in_int (a - b) -> int_sub a b = a - b.
Proof. apply wrapS_id. Qed.

Lemma int_div_exact (a b : Z) : in_int a -> 0 < b -> int_div a b = Z.quot a b.
Proof.
  unfold in_int. intros Ha Hb. apply wrapS_id. unfold in_int.
  pose proof int_range_facts.
  assert ((0 <= a -> 0 <= Z.quot a b <= a) /\ (a <= 0 -> a <= Z.quot a b <= 0))
    by (Z.to_euclidean_division_equations; nia).
  lia.
Qed.

End Width.

#[export] Hint Resolve wrapS_in_int wrapU_in_uint small_in_int small_in_uint : fw.
#[export] Hint Rewrite @wrapS_idem @wrapS_add_l @wrapS_add_r @wrapS_sub_l @wrapU_add_l : fw_rw.

(** Discharge [in_int] and [in_uint] goals whose bounds are numerals or
    linear in the context. *)
Ltac in_range :=
  first [ apply small_in_int; lia | apply small_in_uint; lia
        | pose proof int_range_facts; unfold in_int, in_uint in *; lia ].
