(* ===== verification/Rational.v ===== *)
(** * Rational: the 'float' quantities as exact rationals

    Amperes, volts and watts are 'float' variables in the source.  The
    model computes them in [Q], without rounding.  This file holds the
    three operations the source applies to them beyond the field
    operations: the conversion to 'int' ([Qtrunc], which truncates toward
    zero as C does), the comparison [>] as a boolean ([Qgtb]) and the
    Arduino [max] macro, [((a)>(b)?(a):(b))] ([Qmaxc]).  All of them respect
    [Qeq], which the [Proper] instances record so that rewriting with
    [==] goes through them. *)

From Stdlib Require Import ZArith QArith Lia Bool Morphisms.
From S2P Require Import Prelude.

#[local] Open Scope Z_scope.

(** Conversion of a 'float' to an 'int': the fractional part is dropped. *)
Definition Qtrunc (q : Q) : Z := Z.quot (Qnum q) (Zpos (Qden q)).

Definition Qltb (x y : Q) : bool :=
  match Qcompare x y with Lt => true | _ => false end.

Definition Qgtb (x y : Q) : bool := Qltb y x.

(** [max(a, b)] of Arduino.h: the second argument unless the first is
    strictly greater. *)
Definition Qmaxc (a b : Q) : Q := if Qgtb a b then a else b.

(** ** Comparison *)

Lemma Qltb_lt (x y : Q) : Qltb x y = true <-> (x < y)%Q.
Proof. unfold Qltb. rewrite Qlt_alt. destruct (x ?= y)%Q; intuition congruence. Qed.

Lemma Qltb_ge (x y : Q) : Qltb x y = false <-> (y <= x)%Q.
Proof.
  rewrite <- not_true_iff_false, Qltb_lt. split.
  - apply Qnot_lt_le.
  - apply Qle_not_lt.
Qed.

Lemma Qgtb_gt (x y : Q) : Qgtb x y = true <-> (y < x)%Q.
Proof. apply Qltb_lt. Qed.

Lemma Qgtb_le (x y : Q) : Qgtb x y = false <-> (x <= y)%Q.
Proof. apply Qltb_ge. Qed.

#[export] Instance Qltb_Proper : Proper (Qeq ==> Qeq ==> eq) Qltb.
Proof. intros x x' Hx y y' Hy. unfold Qltb. now rewrite Hx, Hy. Qed.

#[export] Instance Qgtb_Proper : Proper (Qeq ==> Qeq ==> eq) Qgtb.
Proof. intros x x' Hx y y' Hy. unfold Qgtb. now rewrite Hx, Hy. Qed.

(** Case analysis on a comparison of the goal. *)
Ltac case_Qgtb a b :=
  let E := fresh "E" in
  destruct (Qgtb a b) eqn:E; [apply Qgtb_gt in E | apply Qgtb_le in E].

(** ** Truncation *)

#[export] Instance Qtrunc_Proper : Proper (Qeq ==> eq) Qtrunc.
Proof.
  intros [a b] [c d]. unfold Qtrunc, Qeq. simpl. intros E.
  rewrite <- (Z.quot_mul_cancel_r a (Zpos b) (Zpos d)) by lia.
  rewrite E, (Z.mul_comm (Zpos b)). apply Z.quot_mul_cancel_r; lia.
Qed.

Lemma Qtrunc_inject_Z (z : Z) : Qtrunc (inject_Z z) = z.
Proof. unfold Qtrunc, inject_Z. simpl. apply Z.quot_1_r. Qed.

(** Truncating an exact quotient of integers is C's integer division. *)
Lemma Qtrunc_div (s n : Z) : 0 < n -> Qtrunc (inject_Z s / inject_Z n) = Z.quot s n.
Proof.
  intros Hn. destruct n as [|p|p]; try lia.
  unfold Qtrunc, Qdiv, Qinv, Qmult, inject_Z. simpl. now rewrite Z.mul_1_r.
Qed.

Lemma Qtrunc_nonneg (q : Q) : (0 <= q)%Q -> 0 <= Qtrunc q.
Proof.
  destruct q as [a b]. unfold Qle, Qtrunc. simpl. intros H.
  apply Z.quot_pos; lia.
Qed.

(** A non-negative value is at least its truncation and less than the
    next integer. *)
Lemma Qtrunc_floor (q : Q) :
  (0 <= q)%Q -> (inject_Z (Qtrunc q) <= q)%Q /\ (q < inject_Z (Qtrunc q + 1))%Q.
Proof.
  destruct q as [a b]. unfold Qle, Qlt, Qtrunc, inject_Z. simpl. intros H.
  assert (Ha : 0 <= a) by lia.
  pose proof (Z.mul_quot_le a (Zpos b) Ha ltac:(lia)).
  pose proof (Z.mul_succ_quot_gt a (Zpos b) Ha ltac:(lia)).
  lia.
Qed.

(** A value strictly between -1 and 1 truncates to 0. *)
Lemma Qtrunc_small (q : Q) : (-1 < q)%Q -> (q < 1)%Q -> Qtrunc q = 0.
Proof.
  destruct q as [a b]. unfold Qlt, Qtrunc. simpl. intros Hl Hh.
  apply Z.quot_small_iff; lia.
Qed.

(** Truncation moves a value toward zero by less than one. *)
Lemma Qtrunc_le (q : Q) : (0 <= q)%Q -> (inject_Z (Qtrunc q) <= q)%Q.
Proof. intros H. now apply Qtrunc_floor. Qed.

(** ** The max macro *)

Lemma Qmaxc_ge_l (a b : Q) : (a <= Qmaxc a b)%Q.
Proof. unfold Qmaxc. case_Qgtb a b; [apply Qle_refl | assumption]. Qed.

Lemma Qmaxc_ge_r (a b : Q) : (b <= Qmaxc a b)%Q.
Proof. unfold Qmaxc. case_Qgtb a b; [now apply Qlt_le_weak | apply Qle_refl]. Qed.

Lemma Qmaxc_cases (a b : Q) : Qmaxc a b = a \/ Qmaxc a b = b.
Proof. unfold Qmaxc. destruct (Qgtb a b); auto. Qed.

Lemma Qmaxc_lub (a b c : Q) : (a <= c)%Q -> (b <= c)%Q -> (Qmaxc a b <= c)%Q.
Proof. intros Ha Hb. destruct (Qmaxc_cases a b) as [-> | ->]; assumption. Qed.

#[export] Instance Qmaxc_Proper : Proper (Qeq ==> Qeq ==> Qeq) Qmaxc.
Proof.
  intros a a' Ha b b' Hb. unfold Qmaxc. rewrite Ha, Hb at 1.
  destruct (Qgtb a' b'); assumption.
Qed.

#[export] Hint Resolve Qmaxc_ge_l Qmaxc_ge_r Qtrunc_nonneg : fw.
