(* ===== verification/RunningAverage.v ===== *)
(** * RunningAverage: the moving-average filter

    [sense.cpp] declares [RunningAverage movAvgCurrent(avgCount)] and calls
    [addValue], [getFastAverage] and [getAverage] on it.  The class comes
    from a library that is not part of the sources, so this file models it
    from the specification (sections 3 and 4.2): a window of the last N raw
    readings, oldest first, with a running sum maintained incrementally;
    the fast average divides the running sum by the window size, the full
    average first recomputes the sum from the window.

    The readings the firmware feeds in are ADC integers, so the window and
    the sum are [Z] and only the averages are rational.  With integers the
    incremental sum cannot drift, which is the content of [wf_sum] being
    an invariant; [getAverage] re-establishes it from any state.

    [contents_addValues] is the abstract specification: after any sequence
    of additions the filter holds the last N values added. *)

From Stdlib Require Import ZArith QArith List Lia Bool.
From S2P Require Import Prelude Rational.
Import ListNotations.

#[local] Open Scope Z_scope.

Record filter : Type := mkFilter {
  ra_size : nat;
  ra_ring : list Z;
  ra_sum : Z
}.

(** A filter of window size [n] holding nothing. *)
Definition clear (n : nat) : filter := mkFilter n [] 0.

(** Append a reading, evicting the oldest one when the window is full, and
    update the running sum by the difference. *)
Definition addValue (v : Z) (f : filter) : filter :=
  if (length (ra_ring f) <? ra_size f)%nat
  then mkFilter (ra_size f) (ra_ring f ++ [v]) (ra_sum f + v)
  else match ra_ring f with
       | [] => f
       | old :: rest => mkFilter (ra_size f) (rest ++ [v]) (ra_sum f - old + v)
       end.

Definition average (s : Z) (n : nat) : Q := inject_Z s / inject_Z (Z.of_nat n).

(** The running sum over the window size. *)
Definition getFastAverage (f : filter) : Q := average (ra_sum f) (ra_size f).

(** Recompute the running sum from the window. *)
Definition resync (f : filter) : filter :=
  mkFilter (ra_size f) (ra_ring f) (sumZ (ra_ring f)).

(** The full average: the sum is recomputed, stored, and divided. *)
Definition getAverage (f : filter) : Q * filter :=
  (getFastAverage (resync f), resync f).

Definition addValues (vs : list Z) (f : filter) : filter :=
  fold_left (fun g v => addValue v g) vs f.

(** ** Well-formedness *)

Record wf (f : filter) : Prop := mkWf {
  wf_size : (0 < ra_size f)%nat;
  wf_len : (length (ra_ring f) <= ra_size f)%nat;
  wf_sum : ra_sum f = sumZ (ra_ring f)
}.

Definition within (lo hi : Z) (f : filter) : Prop := all_within lo hi (ra_ring f).

Lemma clear_wf (n : nat) : (0 < n)%nat -> wf (clear n).
Proof. intros Hn. constructor; simpl; lia. Qed.

Lemma addValue_size (v : Z) (f : filter) : ra_size (addValue v f) = ra_size f.
Proof.
  unfold addValue. destruct (Nat.ltb_spec (length (ra_ring f)) (ra_size f)); [reflexivity|].
  destruct (ra_ring f); reflexivity.
Qed.

(** The window after an addition: the last N of the old window extended
    by the new reading. *)
Lemma addValue_ring (v : Z) (f : filter) :
  (length (ra_ring f) <= ra_size f)%nat ->
  ra_ring (addValue v f) = lastn (ra_size f) (ra_ring f ++ [v]).
Proof.
  intros Hlen. unfold addValue.
  destruct (Nat.ltb_spec (length (ra_ring f)) (ra_size f)) as [Hlt|Hge]; simpl.
  - rewrite lastn_all; [reflexivity|]. rewrite length_app. simpl. lia.
  - destruct (ra_ring f) as [|old rest] eqn:E; simpl in *.
    + replace (ra_size f) with 0%nat by lia. now rewrite E.
    + replace (ra_size f) with (S (length rest)) by lia.
      symmetry. apply lastn_cons_full.
Qed.

Lemma addValue_wf (v : Z) (f : filter) : wf f -> wf (addValue v f).
Proof.
  intros [Hs Hl Hsum]. unfold addValue.
  destruct (Nat.ltb_spec (length (ra_ring f)) (ra_size f)) as [Hlt|Hge].
  - constructor; simpl; rewrite ?length_app, ?sumZ_app; simpl; lia.
  - destruct (ra_ring f) as [|old rest] eqn:E; [constructor; rewrite ?E; assumption|].
    simpl in *. constructor; simpl; rewrite ?length_app, ?sumZ_app; simpl; lia.
Qed.

Lemma addValue_within (lo hi v : Z) (f : filter) :
  (length (ra_ring f) <= ra_size f)%nat ->
  lo <= v <= hi -> within lo hi f -> within lo hi (addValue v f).
Proof.
  intros Hlen Hv Hf. unfold within. rewrite addValue_ring by assumption.
  apply all_within_lastn, all_within_app; [assumption|].
  constructor; [assumption | constructor].
Qed.

Lemma resync_wf (f : filter) :
  (0 < ra_size f)%nat -> (length (ra_ring f) <= ra_size f)%nat -> wf (resync f).
Proof. intros Hs Hl. constructor; simpl; auto. Qed.

(** On a well-formed filter the recomputation changes nothing. *)
Lemma resync_id (f : filter) : wf f -> resync f = f.
Proof. intros [_ _ Hsum]. destruct f as [n r s]. unfold resync. simpl in *. now subst. Qed.

Lemma getAverage_fast (f : filter) :
  wf f -> getAverage f = (getFastAverage f, f).
Proof. intros Hf. unfold getAverage. now rewrite resync_id. Qed.

#[export] Hint Resolve clear_wf addValue_wf addValue_within resync_wf : fw.

(** ** The error of the running sum

    [drift] is what the running sum is off by.  An addition carries it
    along unchanged, so an error once made is never lost on the fast
    path; the recomputation removes it. *)

Definition drift (f : filter) : Z := ra_sum f - sumZ (ra_ring f).

Lemma addValue_drift (v : Z) (f : filter) : drift (addValue v f) = drift f.
Proof.
  unfold addValue, drift.
  destruct (Nat.ltb_spec (length (ra_ring f)) (ra_size f)) as [Hlt|Hge]; simpl.
  - rewrite sumZ_app. simpl. lia.
  - destruct (ra_ring f) as [|old rest] eqn:E; simpl; [now rewrite E|].
    rewrite sumZ_app. simpl. lia.
Qed.

Lemma resync_drift (f : filter) : drift (resync f) = 0.
Proof. unfold drift, resync. simpl. lia. Qed.

Lemma addValue_length (v : Z) (f : filter) :
  (length (ra_ring f) <= ra_size f)%nat ->
  (length (ra_ring (addValue v f)) <= ra_size f)%nat.
Proof.
  intros H. rewrite addValue_ring, lastn_length by assumption. lia.
Qed.

Lemma wf_drift (f : filter) :
  wf f <-> (0 < ra_size f)%nat /\ (length (ra_ring f) <= ra_size f)%nat /\ drift f = 0.
Proof.
  unfold drift. split.
  - intros [Hs Hl Hsum]. repeat split; auto. lia.
  - intros (Hs & Hl & Hd). constructor; auto. lia.
Qed.

(** ** The abstract specification: the last N values *)

Lemma addValues_size (vs : list Z) (f : filter) :
  ra_size (addValues vs f) = ra_size f.
Proof.
  revert f. induction vs as [|v vs IH]; intros f; [reflexivity|].
  simpl. rewrite IH. apply addValue_size.
Qed.

Lemma addValues_wf (vs : list Z) (f : filter) : wf f -> wf (addValues vs f).
Proof.
  revert f. induction vs as [|v vs IH]; intros f Hf; [assumption|].
  simpl. apply IH, addValue_wf, Hf.
Qed.

Lemma contents_addValues (vs : list Z) (f : filter) :
  wf f -> ra_ring (addValues vs f) = lastn (ra_size f) (ra_ring f ++ vs).
Proof.
  revert f. induction vs as [|v vs IH]; intros f Hf.
  - simpl. rewrite app_nil_r, lastn_all; [reflexivity | apply Hf].
  - simpl. rewrite IH by auto with fw.
    rewrite addValue_size, addValue_ring by apply Hf.
    rewrite lastn_lastn_app, <- app_assoc. reflexivity.
Qed.

(** After N additions of one value the window holds nothing else. *)
Lemma contents_constant (v : Z) (f : filter) :
  wf f -> ra_ring (addValues (repeat v (ra_size f)) f) = repeat v (ra_size f).
Proof.
  intros Hf. rewrite contents_addValues by assumption.
  rewrite lastn_app_r by (rewrite repeat_length; lia).
  apply lastn_all. rewrite repeat_length. lia.
Qed.

(** ** The averages *)

Lemma Qtrunc_average (s : Z) (n : nat) :
  (0 < n)%nat -> Qtrunc (average s n) = Z.quot s (Z.of_nat n).
Proof. intros Hn. apply Qtrunc_div. lia. Qed.

Lemma average_exact (v : Z) (n : nat) :
  (0 < n)%nat -> (average (Z.of_nat n * v) n == inject_Z v)%Q.
Proof.
  intros Hn. unfold average. rewrite inject_Z_mult. field.
  intros E. apply (inject_Z_injective (Z.of_nat n) 0) in E. lia.
Qed.

(** After N additions of [v] the fast average is [v]. *)
Lemma fast_average_constant (v : Z) (f : filter) :
  wf f -> (getFastAverage (addValues (repeat v (ra_size f)) f) == inject_Z v)%Q.
Proof.
  intros Hf. pose proof (addValues_wf (repeat v (ra_size f)) f Hf) as Hf'.
  unfold getFastAverage. rewrite (wf_sum _ Hf'), contents_constant by assumption.
  rewrite addValues_size, sumZ_repeat. apply average_exact, Hf.
Qed.

(** The truncated average of readings in [0 .. hi] is in [0 .. hi]. *)
Lemma fast_average_bounds (hi : Z) (f : filter) :
  wf f -> within 0 hi f -> 0 <= hi ->
  0 <= Qtrunc (getFastAverage f) <= hi.
Proof.
  intros [Hs Hl Hsum] Hin Hhi. unfold getFastAverage.
  rewrite Qtrunc_average by assumption.
  pose proof (sumZ_bounds 0 hi _ Hin) as Hb. rewrite <- Hsum in Hb.
  apply quot_nonneg_bounds; nia.
Qed.
