(* ===== verification/Sense.v ===== *)
(** * Sense: the global state and the sensing functions of sense.cpp

    [Globals] is the block of global variables of sense.cpp, one field per
    variable, with the values the C++ start-up gives them ([initial]).
    [senseZeroCurrent], [senseCurrent], [senseVoltage] and [sensePower] are
    the functions of the same names, as transformers of [Globals].  A
    function that calls [analogRead] or [analogReadFast] takes what those
    calls return as an argument: one reading for [senseCurrent], and for the
    two averaging loops a function from the iteration number to the reading.
    The loops run on the global counter [senseSamples], as in the source
    ([for_senseSamples]).

    The theorems give each function's result in closed form, show that the
    integer arithmetic stays in the range of a 16-bit 'int' for 10-bit
    readings, and state what the accumulation into a variable that is not
    reset does to the zero offset and to the voltage reading. *)

From Stdlib Require Import ZArith QArith List Lia Bool.
From S2P Require Import Prelude MachInt Rational RunningAverage.
Import ListNotations.

#[local] Open Scope Z_scope.

(** ** The global variables *)

Record Globals : Type := mkGlobals {
  deviceCount : Z;
  tempC : list Q;
  senseSamples : Z;
  avgCount : Z;
  sumCounter : Z;
  zeroISenseVADC : Z;
  iSenseVADC : Z;
  current : Q;
  vSenseADC : Z;
  voltage : Q;
  power : Q;
  powerA : list Q;
  mx : Q;
  movAvgCurrent : filter
}.

Definition set_senseSamples (v : Z) (g : Globals) : Globals :=
  mkGlobals (deviceCount g) (tempC g) v (avgCount g) (sumCounter g)
    (zeroISenseVADC g) (iSenseVADC g) (current g) (vSenseADC g) (voltage g)
    (power g) (powerA g) (mx g) (movAvgCurrent g).

Definition set_sumCounter (v : Z) (g : Globals) : Globals :=
  mkGlobals (deviceCount g) (tempC g) (senseSamples g) (avgCount g) v
    (zeroISenseVADC g) (iSenseVADC g) (current g) (vSenseADC g) (voltage g)
    (power g) (powerA g) (mx g) (movAvgCurrent g).

Definition set_zeroISenseVADC (v : Z) (g : Globals) : Globals :=
  mkGlobals (deviceCount g) (tempC g) (senseSamples g) (avgCount g) (sumCounter g)
    v (iSenseVADC g) (current g) (vSenseADC g) (voltage g)
    (power g) (powerA g) (mx g) (movAvgCurrent g).

Definition set_iSenseVADC (v : Z) (g : Globals) : Globals :=
  mkGlobals (deviceCount g) (tempC g) (senseSamples g) (avgCount g) (sumCounter g)
    (zeroISenseVADC g) v (current g) (vSenseADC g) (voltage g)
    (power g) (powerA g) (mx g) (movAvgCurrent g).

Definition set_current (v : Q) (g : Globals) : Globals :=
  mkGlobals (deviceCount g) (tempC g) (senseSamples g) (avgCount g) (sumCounter g)
    (zeroISenseVADC g) (iSenseVADC g) v (vSenseADC g) (voltage g)
    (power g) (powerA g) (mx g) (movAvgCurrent g).

Definition set_vSenseADC (v : Z) (g : Globals) : Globals :=
  mkGlobals (deviceCount g) (tempC g) (senseSamples g) (avgCount g) (sumCounter g)
    (zeroISenseVADC g) (iSenseVADC g) (current g) v (voltage g)
    (power g) (powerA g) (mx g) (movAvgCurrent g).

Definition set_voltage (v : Q) (g : Globals) : Globals :=
  mkGlobals (deviceCount g) (tempC g) (senseSamples g) (avgCount g) (sumCounter g)
    (zeroISenseVADC g) (iSenseVADC g) (current g) (vSenseADC g) v
    (power g) (powerA g) (mx g) (movAvgCurrent g).

Definition set_power (v : Q) (g : Globals) : Globals :=
  mkGlobals (deviceCount g) (tempC g) (senseSamples g) (avgCount g) (sumCounter g)
    (zeroISenseVADC g) (iSenseVADC g) (current g) (vSenseADC g) (voltage g)
    v (powerA g) (mx g) (movAvgCurrent g).

Definition set_mx (v : Q) (g : Globals) : Globals :=
  mkGlobals (deviceCount g) (tempC g) (senseSamples g) (avgCount g) (sumCounter g)
    (zeroISenseVADC g) (iSenseVADC g) (current g) (vSenseADC g) (voltage g)
    (power g) (powerA g) v (movAvgCurrent g).

Definition set_movAvgCurrent (v : filter) (g : Globals) : Globals :=
  mkGlobals (deviceCount g) (tempC g) (senseSamples g) (avgCount g) (sumCounter g)
    (zeroISenseVADC g) (iSenseVADC g) (current g) (vSenseADC g) (voltage g)
    (power g) (powerA g) (mx g) v.

(** The state after static initialisation: [avgCount] is 16, [mx] is 0,
    the filter has window [avgCount] and is empty, everything else is
    zero-initialised. *)
Definition initial : Globals :=
  mkGlobals 0 [0%Q; 0%Q] 0 16 0 0 0 0%Q 0 0%Q 0%Q (repeat 0%Q 100) 0%Q (clear 16).

(** [const float conversionFactor = 5.0/1024/1000] *)
Definition conversionFactor : Q := (5.0 / 1024 / 1000)%Q.

(** The largest value the 10-bit converter returns. *)
Definition ADC_MAX : Z := 1023.

(** The readings of one call lie in the converter's range. *)
Definition adc_ok (adc : nat -> Z) : Prop := forall k, 0 <= adc k <= ADC_MAX.

Section Operations.
Context {T : Target}.

(** Conversion of a 'float' to an 'int'. *)
Definition float_to_int (q : Q) : Z := wrapS (Qtrunc q).

(** [for (senseSamples = ...; senseSamples < bound; senseSamples++) body]
    from the current value of [senseSamples].  [fuel] bounds the number of
    iterations; the callers give one more than the iterations the loop
    makes, so that the loop is left by its guard ([for_senseSamples_rule]
    holds for every fuel that covers the iterations). *)
Fixpoint for_senseSamples (fuel : nat) (bound : Z) (body : Globals -> Globals)
    (g : Globals) : Globals :=
  match fuel with
  | O => g
  | S fuel' =>
      if senseSamples g <? bound
      then let g' := body g in
           for_senseSamples fuel' bound body
             (set_senseSamples (int_incr (senseSamples g')) g')
      else g
  end.

(** [zeroISenseVADC += analogRead(IS_1)] *)
Definition accumulate_zero (adc : nat -> Z) (g : Globals) : Globals :=
  set_zeroISenseVADC
    (int_add (zeroISenseVADC g) (adc (Z.to_nat (senseSamples g)))) g.

Definition senseZeroCurrent (adc : nat -> Z) (g : Globals) : Globals :=
  let g1 := for_senseSamples 6 5 (accumulate_zero adc) (set_senseSamples 0 g) in
  set_zeroISenseVADC (int_div (zeroISenseVADC g1) 5) g1.

Definition senseCurrent (raw : Z) (g : Globals) : Globals :=
  let g1 := set_movAvgCurrent (addValue raw (movAvgCurrent g)) g in
  let g2 := set_sumCounter (uint_incr (sumCounter g1)) g1 in
  let g3 :=
    if negb (sumCounter g2 =? 65535)
    then set_iSenseVADC (float_to_int (getFastAverage (movAvgCurrent g2))) g2
    else let (a, f) := getAverage (movAvgCurrent g2) in
         set_iSenseVADC (float_to_int a) (set_movAvgCurrent f g2) in
  set_current
    (conversionFactor * inject_Z (int_sub (iSenseVADC g3) (zeroISenseVADC g3)) * 19500)%Q
    g3.

(** [vSenseADC += analogReadFast(VBAT)] *)
Definition accumulate_voltage (adc : nat -> Z) (g : Globals) : Globals :=
  set_vSenseADC (int_add (vSenseADC g) (adc (Z.to_nat (senseSamples g)))) g.

Definition senseVoltage (adc : nat -> Z) (g : Globals) : Globals :=
  let g1 := for_senseSamples 6 5 (accumulate_voltage adc) (set_senseSamples 0 g) in
  let g2 := set_vSenseADC (int_div (vSenseADC g1) 5) g1 in
  set_voltage (inject_Z (vSenseADC g2) * (44.8 / 1024))%Q g2.

Definition sensePower (g : Globals) : Globals :=
  set_power (voltage g * current g)%Q g.

(** What an averaging loop leaves in its accumulator after [n] readings,
    starting from [z]: the reference the loops are compared with. *)
Fixpoint accum (adc : nat -> Z) (z : Z) (n : nat) : Z :=
  match n with
  | O => z
  | S n' => int_add (accum adc z n') (adc n')
  end.

End Operations.

(** The sum of the first [n] readings of a call. *)
Definition sum_readings (adc : nat -> Z) (n : nat) : Z := sumZ (map adc (seq 0 n)).

(** ** The loop on [senseSamples] *)

Section Loops.
Context {T : Target}.

Lemma int_incr_small (z : Z) : -32768 <= z < 32767 -> int_incr z = z + 1.
Proof. intros H. apply wrapS_id. in_range. Qed.

(** The invariant rule of the loop.  An invariant [P i] that the body and
    the increment carry from [i] to [i + 1] holds at [bound] when the loop
    is left, and the loop is left by its guard when the fuel covers the
    remaining iterations. *)
Lemma for_senseSamples_rule (P : Z -> Globals -> Prop) (bound : Z)
    (body : Globals -> Globals) :
  bound <= 32767 ->
  (forall i g, 0 <= i < bound -> senseSamples g = i -> P i g ->
     senseSamples (body g) = i /\ P (i + 1) (set_senseSamples (i + 1) (body g))) ->
  forall fuel i g,
    0 <= i <= bound -> senseSamples g = i -> P i g ->
    (Z.to_nat (bound - i) <= fuel)%nat ->
    senseSamples (for_senseSamples fuel bound body g) = bound /\
    P bound (for_senseSamples fuel bound body g).
Proof.
  intros Hb Hstep. induction fuel as [|fuel IH]; intros i g Hi Hs HP Hfuel.
  - assert (E : bound = i) by lia. rewrite E. simpl. auto.
  - simpl. rewrite Hs. destruct (Z.ltb_spec i bound) as [Hlt|Hge].
    + destruct (Hstep i g ltac:(lia) Hs HP) as [Hbs HP'].
      rewrite Hbs, int_incr_small by lia.
      apply (IH (i + 1)); try lia; auto.
    + assert (E : bound = i) by lia. rewrite E. auto.
Qed.

Lemma sum_readings_S (adc : nat -> Z) (n : nat) :
  sum_readings adc (S n) = sum_readings adc n + adc n.
Proof.
  unfold sum_readings. rewrite seq_S, map_app, sumZ_app. simpl. lia.
Qed.

Lemma sum_readings_bounds (adc : nat -> Z) (n : nat) :
  adc_ok adc -> 0 <= sum_readings adc n <= Z.of_nat n * ADC_MAX.
Proof.
  intros Hadc. induction n as [|n IH]; [unfold sum_readings; simpl; lia|].
  rewrite sum_readings_S. specialize (Hadc n). lia.
Qed.

Lemma sum_readings_const (r : Z) (n : nat) :
  sum_readings (fun _ => r) n = Z.of_nat n * r.
Proof.
  induction n as [|n IH]; [reflexivity|]. rewrite sum_readings_S, IH. lia.
Qed.

(** The accumulator modulo the width, and exactly when it cannot
    overflow. *)
Lemma accum_wrap (adc : nat -> Z) (z : Z) (n : nat) :
  wrapS (accum adc z n) = wrapS (z + sum_readings adc n).
Proof.
  induction n as [|n IH]; [simpl; f_equal; unfold sum_readings; simpl; lia|].
  simpl. unfold int_add. rewrite wrapS_idem, <- wrapS_add_l, IH, wrapS_add_l.
  rewrite sum_readings_S. f_equal. lia.
Qed.

Lemma accum_exact (adc : nat -> Z) (z : Z) (n : nat) :
  adc_ok adc -> -32768 <= z -> z + Z.of_nat n * ADC_MAX <= 32767 ->
  accum adc z n = z + sum_readings adc n.
Proof.
  intros Hadc Hz. induction n as [|n IH]; intros Hn.
  - unfold sum_readings. simpl. lia.
  - pose proof (sum_readings_bounds adc n Hadc). specialize (Hadc n).
    unfold ADC_MAX in *. simpl. rewrite IH by lia. rewrite sum_readings_S.
    rewrite int_add_exact; [lia | in_range].
Qed.

End Loops.

(** ** The accumulating variables

    [senseZeroCurrent] and [senseVoltage] run the same loop on two
    different variables.  [IntField] states what the loop needs of the
    variable: reading and writing it behave as for a variable of its
    own, distinct from [senseSamples]. *)

Lemma senseSamples_set (i : Z) (g : Globals) : senseSamples (set_senseSamples i g) = i.
Proof. reflexivity. Qed.

Lemma set_senseSamples_twice (i j : Z) (g : Globals) :
  set_senseSamples i (set_senseSamples j g) = set_senseSamples i g.
Proof. reflexivity. Qed.

Class IntField (get : Globals -> Z) (set : Z -> Globals -> Globals) : Prop := {
  get_set : forall v g, get (set v g) = v;
  set_set : forall v w g, set v (set w g) = set v g;
  set_get : forall g, set (get g) g = g;
  set_samples : forall v i g, set v (set_senseSamples i g) = set_senseSamples i (set v g);
  samples_set : forall v g, senseSamples (set v g) = senseSamples g;
  get_samples : forall i g, get (set_senseSamples i g) = get g
}.

#[export] Instance zeroISenseVADC_field : IntField zeroISenseVADC set_zeroISenseVADC.
Proof. constructor; intros; try destruct g; reflexivity. Qed.

#[export] Instance vSenseADC_field : IntField vSenseADC set_vSenseADC.
Proof. constructor; intros; try destruct g; reflexivity. Qed.

Section AccumLoop.
Context {T : Target}.
Context (get : Globals -> Z) (set : Z -> Globals -> Globals) {F : IntField get set}.

(** [x += analogRead(pin)] for the variable [x] of the field. *)
Definition accumulate (adc : nat -> Z) (g : Globals) : Globals :=
  set (int_add (get g) (adc (Z.to_nat (senseSamples g)))) g.

(** The loop of [n] iterations leaves [accum] in the variable and [n] in
    [senseSamples], and nothing else changes, whatever fuel covers the
    [n] iterations. *)
Lemma accumulate_loop (adc : nat -> Z) (n fuel : nat) (bound : Z) (g : Globals) :
  bound = Z.of_nat n -> bound <= 32767 -> (n <= fuel)%nat ->
  for_senseSamples fuel bound (accumulate adc) (set_senseSamples 0 g)
  = set_senseSamples bound (set (accum adc (get g) n) g).
Proof.
  intros -> Hn Hfuel. destruct F as [Hgs Hss Hsg Hsm Hms Hgm].
  destruct (for_senseSamples_rule
    (fun i g' => g' = set_senseSamples i (set (accum adc (get g) (Z.to_nat i)) g))
    (Z.of_nat n) (accumulate adc) Hn) with (fuel := fuel) (i := 0) (g := set_senseSamples 0 g)
    as [_ H]; try lia; try reflexivity.
  - intros i g' Hi Hs ->. unfold accumulate. split.
    + now rewrite Hms.
    + rewrite Hgm, Hgs, senseSamples_set, Hsm, Hss, set_senseSamples_twice.
      replace (Z.to_nat (i + 1)) with (S (Z.to_nat i)) by lia.
      reflexivity.
  - simpl. now rewrite Hsg.
  - now rewrite Nat2Z.id in H.
Qed.

(** Dividing the variable after the loop. *)
Lemma divide_after_loop (a b : Z) (g : Globals) :
  set (int_div (get (set_senseSamples b (set a g))) 5) (set_senseSamples b (set a g))
  = set (int_div a 5) (set_senseSamples b g).
Proof.
  destruct F as [Hgs Hss _ Hsm _ Hgm]. now rewrite Hgm, Hgs, Hsm, Hss.
Qed.

End AccumLoop.

(** ** Closed forms of the two averaging functions *)

Section Averaging.
Context {T : Target}.

Lemma accumulate_zero_eq (adc : nat -> Z) :
  accumulate_zero adc = accumulate zeroISenseVADC set_zeroISenseVADC adc.
Proof. reflexivity. Qed.

Lemma accumulate_voltage_eq (adc : nat -> Z) :
  accumulate_voltage adc = accumulate vSenseADC set_vSenseADC adc.
Proof. reflexivity. Qed.

Lemma senseZeroCurrent_closed (adc : nat -> Z) (g : Globals) :
  senseZeroCurrent adc g
  = set_zeroISenseVADC (int_div (accum adc (zeroISenseVADC g) 5) 5)
      (set_senseSamples 5 g).
Proof.
  unfold senseZeroCurrent. cbv zeta.
  rewrite accumulate_zero_eq, (accumulate_loop _ _ adc 5%nat 6%nat 5 g eq_refl) by lia.
  apply (divide_after_loop zeroISenseVADC set_zeroISenseVADC).
Qed.

Definition volts_of_adc (v : Z) : Q := (inject_Z v * (44.8 / 1024))%Q.

Lemma voltage_after_loop (a : Z) (g : Globals) :
  set_voltage (inject_Z (vSenseADC (set_vSenseADC a g)) * (44.8 / 1024))%Q
    (set_vSenseADC a g)
  = set_voltage (volts_of_adc a) (set_vSenseADC a g).
Proof. reflexivity. Qed.

Lemma senseVoltage_closed (adc : nat -> Z) (g : Globals) :
  senseVoltage adc g
  = set_voltage (volts_of_adc (int_div (accum adc (vSenseADC g) 5) 5))
      (set_vSenseADC (int_div (accum adc (vSenseADC g) 5) 5) (set_senseSamples 5 g)).
Proof.
  unfold senseVoltage. cbv zeta.
  rewrite accumulate_voltage_eq, (accumulate_loop _ _ adc 5%nat 6%nat 5 g eq_refl) by lia.
  rewrite (divide_after_loop vSenseADC set_vSenseADC).
  apply voltage_after_loop.
Qed.

(** Five readings accumulated onto [z] and divided by five.  For readings
    of the converter and [z] up to 1278 no step leaves the range of a
    16-bit 'int', and the result is again at most 1278. *)
Lemma average5_exact (adc : nat -> Z) (z : Z) :
  adc_ok adc -> 0 <= z <= 1278 ->
  int_div (accum adc z 5) 5 = Z.quot (z + sum_readings adc 5) 5 /\
  0 <= Z.quot (z + sum_readings adc 5) 5 <= 1278.
Proof.
  intros Hadc Hz. pose proof (sum_readings_bounds adc 5 Hadc) as Hs.
  unfold ADC_MAX in *.
  rewrite accum_exact by (unfold ADC_MAX; auto; lia).
  rewrite int_div_exact by (try in_range; lia).
  split; [reflexivity|]. apply quot_nonneg_bounds; lia.
Qed.

Lemma adc_ok_const (r : Z) : 0 <= r <= 1023 -> adc_ok (fun _ => r).
Proof. intros Hr k. unfold ADC_MAX. lia. Qed.

(** Readings that rise by one count per sample from [r], used to run the
    functions on a concrete input. *)
Definition ramp (r : Z) (k : nat) : Z := r + Z.of_nat (Nat.min k 4).

Lemma adc_ok_ramp (r : Z) : 0 <= r <= 1019 -> adc_ok (ramp r).
Proof. intros Hr k. unfold ramp, ADC_MAX. lia. Qed.

(** ** The zero-current offset *)

(** C11: after start-up, when [zeroISenseVADC] still holds its initial 0,
    [senseZeroCurrent] stores the truncated average of the five readings,
    a value of the converter's range, and leaves 5 in [senseSamples]. *)
Theorem senseZeroCurrent_average (adc : nat -> Z) (g : Globals) :
  adc_ok adc -> zeroISenseVADC g = 0 ->
  senseZeroCurrent adc g
  = set_zeroISenseVADC
      (Z.quot (adc 0%nat + adc 1%nat + adc 2%nat + adc 3%nat + adc 4%nat) 5)
      (set_senseSamples 5 g) /\
  0 <= zeroISenseVADC (senseZeroCurrent adc g) <= ADC_MAX.
Proof.
  intros Hadc Hz. rewrite senseZeroCurrent_closed, Hz.
  destruct (average5_exact adc 0 Hadc ltac:(lia)) as [-> _].
  pose proof (sum_readings_bounds adc 5 Hadc) as Hs.
  assert (E : sum_readings adc 5
              = adc 0%nat + adc 1%nat + adc 2%nat + adc 3%nat + adc 4%nat)
    by (unfold sum_readings; simpl; lia).
  rewrite Z.add_0_l, E in *.
  split; [reflexivity|]. cbn [zeroISenseVADC set_zeroISenseVADC].
  unfold ADC_MAX in *. apply quot_nonneg_bounds; lia.
Qed.

(** What a call with the constant reading [r] makes of an accumulator
    that held [v]. *)
Definition settle (r v : Z) : Z := r + Z.quot v 5.

Lemma settle_range (r v : Z) :
  0 <= r <= 1023 -> 0 <= v <= 1278 -> 0 <= settle r v <= 1278.
Proof. intros Hr Hv. unfold settle. zdiv. Qed.

Lemma settle_iter_range (r v : Z) (n : nat) :
  0 <= r <= 1023 -> 0 <= v <= 1278 -> 0 <= Nat.iter n (settle r) v <= 1278.
Proof.
  intros Hr Hv. induction n as [|n IH]; [assumption|].
  rewrite Nat.iter_succ. now apply settle_range.
Qed.

(** Six calls bring any accumulator to within one count of 5/4 of the
    reading, and there it stays. *)
Lemma settle_six (r v : Z) :
  0 <= r <= 1023 -> 0 <= v <= 1278 ->
  5 * r - 4 <= 4 * Nat.iter 6 (settle r) v <= 5 * r.
Proof.
  intros Hr Hv. unfold Nat.iter. cbn [nat_rect]. unfold settle. zdiv.
Qed.

Lemma settle_fixed (r v : Z) :
  0 <= v -> 5 * r - 4 <= 4 * v <= 5 * r -> settle r v = v.
Proof. intros Hr Hv. unfold settle. zdiv. Qed.

(** C12: the offset is accumulated onto, not reset.  Calling
    [senseZeroCurrent] again at the same true reading [r] does not give
    [r] back but [r + r / 5]: every re-zeroing raises the offset by a
    fifth of its previous value. *)
Theorem senseZeroCurrent_rezero_bias (r : Z) (g : Globals) :
  0 <= r <= 1023 -> zeroISenseVADC g = r ->
  zeroISenseVADC (senseZeroCurrent (fun _ => r) g) = r + Z.quot r 5.
Proof.
  intros Hr Hz. rewrite senseZeroCurrent_closed. cbn [zeroISenseVADC set_zeroISenseVADC].
  destruct (average5_exact (fun _ => r) (zeroISenseVADC g)) as [-> _];
    [now apply adc_ok_const | lia |].
  rewrite sum_readings_const, Hz. zdiv.
Qed.

(** ** The voltage reading *)

(** C9: [senseVoltage] adds the five readings to the value [vSenseADC]
    already holds and divides the total by five.  With readings of the
    converter's range the result stays within 0 .. 1278, so none of the
    additions overflows a 16-bit 'int'. *)
Theorem senseVoltage_accumulates (adc : nat -> Z) (g : Globals) :
  adc_ok adc -> 0 <= vSenseADC g <= 1278 ->
  vSenseADC (senseVoltage adc g) = Z.quot (vSenseADC g + sum_readings adc 5) 5 /\
  0 <= vSenseADC (senseVoltage adc g) <= 1278.
Proof.
  intros Hadc Hv. rewrite senseVoltage_closed. cbn [vSenseADC set_voltage set_vSenseADC].
  destruct (average5_exact adc _ Hadc Hv) as [-> Hb]. auto.
Qed.

Lemma senseVoltage_const (r : Z) (g : Globals) :
  0 <= r <= 1023 -> 0 <= vSenseADC g <= 1278 ->
  vSenseADC (senseVoltage (fun _ => r) g) = settle r (vSenseADC g).
Proof.
  intros Hr Hv. rewrite senseVoltage_closed. cbn [vSenseADC set_voltage set_vSenseADC].
  destruct (average5_exact (fun _ => r) (vSenseADC g)) as [-> _];
    [now apply adc_ok_const | assumption |].
  rewrite sum_readings_const. unfold settle. zdiv.
Qed.

Lemma senseVoltage_iter (r : Z) (n : nat) (g : Globals) :
  0 <= r <= 1023 -> 0 <= vSenseADC g <= 1278 ->
  vSenseADC (Nat.iter n (senseVoltage (fun _ => r)) g)
  = Nat.iter n (settle r) (vSenseADC g).
Proof.
  intros Hr Hv. induction n as [|n IH]; [reflexivity|].
  rewrite !Nat.iter_succ, senseVoltage_const, IH; auto.
  rewrite IH. now apply settle_iter_range.
Qed.

(** C10: at a constant true reading [r] the stored reading does not settle
    at [r].  From any earlier value, six calls bring [vSenseADC] to a
    value between [(5 r - 4) / 4] and [5 r / 4], a quarter above the
    input, and further calls leave it there. *)
Theorem senseVoltage_settles_high (r : Z) (g : Globals) :
  0 <= r <= 1023 -> 0 <= vSenseADC g <= 1278 ->
  let g6 := Nat.iter 6 (senseVoltage (fun _ => r)) g in
  5 * r - 4 <= 4 * vSenseADC g6 <= 5 * r /\
  vSenseADC (senseVoltage (fun _ => r) g6) = vSenseADC g6.
Proof.
  intros Hr Hv g6.
  assert (E : vSenseADC g6 = Nat.iter 6 (settle r) (vSenseADC g))
    by now apply senseVoltage_iter.
  pose proof (settle_six r (vSenseADC g) Hr Hv) as H6.
  pose proof (settle_iter_range r (vSenseADC g) 6 Hr Hv) as R6.
  rewrite <- E in H6, R6.
  split; [assumption|].
  rewrite senseVoltage_const by assumption.
  apply settle_fixed; lia.
Qed.

End Averaging.

(** ** The theorems at concrete inputs, on the 16-bit target *)

Lemma senseZeroCurrent_average_witness :
  adc_ok (ramp 30) /\ zeroISenseVADC initial = 0 /\
  zeroISenseVADC (senseZeroCurrent (ramp 30) initial) = 32.
Proof.
  assert (Hadc : adc_ok (ramp 30)) by (apply adc_ok_ramp; lia).
  split; [exact Hadc|]. split; [reflexivity|].
  destruct (senseZeroCurrent_average (ramp 30) initial Hadc eq_refl) as [-> _].
  reflexivity.
Defined.

Lemma senseZeroCurrent_rezero_bias_witness :
  zeroISenseVADC (senseZeroCurrent (fun _ => 500) initial) = 500 /\
  zeroISenseVADC
    (senseZeroCurrent (fun _ => 500) (senseZeroCurrent (fun _ => 500) initial)) = 600.
Proof.
  split; [vm_compute; reflexivity|].
  rewrite (senseZeroCurrent_rezero_bias 500);
    [reflexivity | lia | vm_compute; reflexivity].
Defined.

Lemma senseVoltage_accumulates_witness :
  vSenseADC (senseVoltage (ramp 698) initial) = 700 /\
  vSenseADC (senseVoltage (ramp 698) (senseVoltage (ramp 698) initial)) = 840.
Proof.
  split; [vm_compute; reflexivity|].
  destruct (senseVoltage_accumulates (ramp 698) (senseVoltage (ramp 698) initial))
    as [-> _]; [apply adc_ok_ramp; lia | vm_compute; split; discriminate
               | vm_compute; reflexivity].
Defined.

Lemma senseVoltage_settles_high_witness :
  let g6 := Nat.iter 6 (senseVoltage (fun _ => 700)) initial in
  vSenseADC g6 = 874 /\ vSenseADC (senseVoltage (fun _ => 700) g6) = 874.
Proof.
  pose proof (senseVoltage_settles_high 700 initial ltac:(lia)
                ltac:(vm_compute; split; discriminate)) as [_ H].
  cbv zeta in *. split; [vm_compute; reflexivity|].
  rewrite H. vm_compute. reflexivity.
Defined.
