(* ===== verification/Current.v ===== *)
(** * Current: the filtered current reading of senseCurrent

    [senseCurrent] (sense.cpp) is defined in [Sense].  This file proves
    what it computes.  A call pushes one raw reading into the moving
    average, increments the 'unsigned int' [sumCounter], stores the
    average in the 'int' [iSenseVADC] and converts the distance from the
    zero offset to amperes.  The average is read on one of two paths: the
    running sum, or, when the counter equals 65535, a re-summation of the
    window that also repairs the running sum.

    [current_inv] is the invariant of the current path: the filter is well
    formed, it holds readings of the converter, the counter is in range and
    the stored reading is a converter value.  [senseCurrent_run] is a
    sequence of calls, one per reading.

    The theorems: the reading each path stores when the running sum is
    off, the error included on the fast path and removed on the full one;
    the stored reading as the truncated average of the window;
    preservation of the invariant; the repair of a drifted running sum
    and the call on which it happens, the 65535th from a counter of 0;
    the round trip of a constant signal; and the sign and scale of the
    computed amperes. *)

From Stdlib Require Import ZArith QArith List Lia Bool.
From S2P Require Import Prelude MachInt Rational RunningAverage Sense.
Import ListNotations.

#[local] Open Scope Z_scope.

(** [conversionFactor * (counts) * 19500]: amperes for a distance in ADC
    counts from the zero offset. *)
Definition amps_of_adc (d : Z) : Q := (conversionFactor * inject_Z d * 19500)%Q.

(** The value that marks the call on which the window is re-summed. *)
Definition RESYNC_AT : Z := 65535.

Section Calls.
Context {T : Target}.

(** One call per reading, in order. *)
Definition senseCurrent_run (raws : list Z) (g : Globals) : Globals :=
  fold_left (fun g' raw => senseCurrent raw g') raws g.

(** What a call does once the filter [f] it reads from is fixed: count the
    call, store the average and the amperes. *)
Definition store_reading (f : filter) (g : Globals) : Globals :=
  let i := float_to_int (getFastAverage f) in
  set_current (amps_of_adc (int_sub i (zeroISenseVADC g)))
    (set_iSenseVADC i
      (set_sumCounter (uint_incr (sumCounter g)) (set_movAvgCurrent f g))).

(** The state a call leaves when the filter's running sum is right: the
    reference both paths are compared with. *)
Definition senseCurrent_ref (raw : Z) (g : Globals) : Globals :=
  store_reading (addValue raw (movAvgCurrent g)) g.

(** The invariant of the current path. *)
Record current_inv (g : Globals) : Prop := mkCurrentInv {
  ci_wf : wf (movAvgCurrent g);
  ci_within : within 0 ADC_MAX (movAvgCurrent g);
  ci_counter : in_uint (sumCounter g);
  ci_reading : 0 <= iSenseVADC g <= ADC_MAX
}.

End Calls.

(** The truncated average of a window. *)
Definition window_average (n : nat) (w : list Z) : Z := Z.quot (sumZ w) (Z.of_nat n).

Section Facts.
Context {T : Target}.

Lemma ADC_MAX_in_int (z : Z) : 0 <= z <= ADC_MAX -> in_int z.
Proof. unfold ADC_MAX. intros H. in_range. Qed.

(** The amperes of one count: 5 V over 1024 counts and 1000, times the
    sense ratio 19500. *)
Lemma amps_of_adc_scale (d : Z) : (amps_of_adc d == inject_Z d * (195 # 2048))%Q.
Proof. unfold amps_of_adc, conversionFactor. field. Qed.

Lemma amps_of_adc_sign (d : Z) : (amps_of_adc d < 0)%Q <-> d < 0.
Proof.
  rewrite amps_of_adc_scale. unfold Qlt, Qmult, inject_Z. simpl. lia.
Qed.

(** The stored reading of a well-formed filter of converter values. *)
Lemma float_to_int_average (hi : Z) (f : filter) :
  wf f -> within 0 hi f -> 0 <= hi <= 32767 ->
  float_to_int (getFastAverage f) = window_average (ra_size f) (ra_ring f) /\
  0 <= window_average (ra_size f) (ra_ring f) <= hi.
Proof.
  intros Hf Hin Hhi. pose proof (fast_average_bounds hi f Hf Hin ltac:(lia)) as Hb.
  unfold float_to_int. rewrite wrapS_id by in_range.
  unfold getFastAverage in *. rewrite Qtrunc_average in * by apply Hf.
  destruct Hf as [_ _ Hsum]. unfold window_average. rewrite <- Hsum. auto.
Qed.

(** ** The closed form of a call *)

(** The fast path: the counter has not reached 65535. *)
Lemma senseCurrent_fast (raw : Z) (g : Globals) :
  uint_incr (sumCounter g) <> RESYNC_AT ->
  senseCurrent raw g = store_reading (addValue raw (movAvgCurrent g)) g.
Proof.
  intros Hc. unfold senseCurrent, store_reading. cbv zeta.
  cbn [sumCounter set_sumCounter set_movAvgCurrent movAvgCurrent].
  destruct (Z.eqb_spec (uint_incr (sumCounter g)) 65535) as [E|_]; [contradiction|].
  reflexivity.
Qed.

(** The full path: the window is re-summed before it is read. *)
Lemma senseCurrent_full (raw : Z) (g : Globals) :
  uint_incr (sumCounter g) = RESYNC_AT ->
  senseCurrent raw g = store_reading (resync (addValue raw (movAvgCurrent g))) g.
Proof.
  intros Hc. unfold senseCurrent, store_reading, getAverage. cbv zeta.
  cbn [sumCounter set_sumCounter set_movAvgCurrent movAvgCurrent].
  rewrite Hc. reflexivity.
Qed.

(** On a filter whose running sum is right the two paths coincide. *)
Lemma senseCurrent_closed (raw : Z) (g : Globals) :
  wf (movAvgCurrent g) -> senseCurrent raw g = senseCurrent_ref raw g.
Proof.
  intros Hf. unfold senseCurrent_ref.
  destruct (Z.eq_dec (uint_incr (sumCounter g)) RESYNC_AT) as [E|E].
  - rewrite senseCurrent_full, resync_id by auto with fw. reflexivity.
  - now apply senseCurrent_fast.
Qed.

(** ** What a call stores *)

Lemma store_reading_filter (f : filter) (g : Globals) :
  movAvgCurrent (store_reading f g) = f.
Proof. reflexivity. Qed.

Lemma store_reading_counter (f : filter) (g : Globals) :
  sumCounter (store_reading f g) = uint_incr (sumCounter g).
Proof. reflexivity. Qed.

Lemma store_reading_iSense (f : filter) (g : Globals) :
  iSenseVADC (store_reading f g) = float_to_int (getFastAverage f).
Proof. reflexivity. Qed.

Lemma store_reading_zero (f : filter) (g : Globals) :
  zeroISenseVADC (store_reading f g) = zeroISenseVADC g.
Proof. reflexivity. Qed.

Lemma store_reading_current (f : filter) (g : Globals) :
  current (store_reading f g)
  = amps_of_adc (int_sub (float_to_int (getFastAverage f)) (zeroISenseVADC g)).
Proof. reflexivity. Qed.

(** A call is one of the two paths. *)
Lemma senseCurrent_cases (raw : Z) (g : Globals) :
  senseCurrent raw g = store_reading (addValue raw (movAvgCurrent g)) g \/
  senseCurrent raw g = store_reading (resync (addValue raw (movAvgCurrent g))) g.
Proof.
  destruct (Z.eq_dec (uint_incr (sumCounter g)) RESYNC_AT) as [E|E].
  - right. now apply senseCurrent_full.
  - left. now apply senseCurrent_fast.
Qed.

Lemma senseCurrent_counter (raw : Z) (g : Globals) :
  sumCounter (senseCurrent raw g) = uint_incr (sumCounter g).
Proof. destruct (senseCurrent_cases raw g) as [-> | ->]; reflexivity. Qed.

Lemma senseCurrent_zero (raw : Z) (g : Globals) :
  zeroISenseVADC (senseCurrent raw g) = zeroISenseVADC g.
Proof. destruct (senseCurrent_cases raw g) as [-> | ->]; reflexivity. Qed.

(** The amperes are computed from the reading the call has just stored. *)
Lemma senseCurrent_current (raw : Z) (g : Globals) :
  current (senseCurrent raw g)
  = amps_of_adc (int_sub (iSenseVADC (senseCurrent raw g)) (zeroISenseVADC g)).
Proof. destruct (senseCurrent_cases raw g) as [-> | ->]; reflexivity. Qed.

(** The variables a call does not write. *)
Lemma senseCurrent_frame (raw : Z) (g : Globals) :
  let g' := senseCurrent raw g in
  vSenseADC g' = vSenseADC g /\ voltage g' = voltage g /\ power g' = power g /\
  powerA g' = powerA g /\ mx g' = mx g /\ tempC g' = tempC g /\
  deviceCount g' = deviceCount g /\ senseSamples g' = senseSamples g.
Proof.
  cbv zeta. destruct (senseCurrent_cases raw g) as [-> | ->]; repeat split.
Qed.

(** The window after a call, and the reading stored from it. *)
Lemma senseCurrent_window (raw : Z) (g : Globals) :
  current_inv g -> 0 <= raw <= ADC_MAX ->
  let f' := movAvgCurrent (senseCurrent raw g) in
  f' = addValue raw (movAvgCurrent g) /\ wf f' /\ within 0 ADC_MAX f' /\
  iSenseVADC (senseCurrent raw g) = window_average (ra_size f') (ra_ring f') /\
  0 <= window_average (ra_size f') (ra_ring f') <= ADC_MAX.
Proof.
  intros [Hf Hin Hc Hi] Hraw. rewrite senseCurrent_closed by assumption.
  unfold senseCurrent_ref. cbv zeta.
  rewrite store_reading_filter, store_reading_iSense.
  assert (Hf' : wf (addValue raw (movAvgCurrent g))) by auto with fw.
  assert (Hin' : within 0 ADC_MAX (addValue raw (movAvgCurrent g)))
    by (apply addValue_within; [apply Hf | assumption | assumption]).
  destruct (float_to_int_average ADC_MAX _ Hf' Hin') as [E Hb];
    [unfold ADC_MAX; lia|].
  auto.
Qed.

End Facts.

#[export] Hint Rewrite @store_reading_filter @store_reading_counter
  @store_reading_iSense @store_reading_zero @senseCurrent_counter
  @senseCurrent_zero : fw_rw.

(** ** Sequences of calls *)

Section Runs.
Context {T : Target}.

Lemma senseCurrent_inv (raw : Z) (g : Globals) :
  current_inv g -> 0 <= raw <= ADC_MAX -> current_inv (senseCurrent raw g).
Proof.
  intros Hg Hraw.
  destruct (senseCurrent_window raw g Hg Hraw) as (_ & Hf & Hin & Hi & Hb).
  constructor; auto.
  - rewrite senseCurrent_counter. apply wrapU_in_uint.
  - now rewrite Hi.
Qed.

Lemma senseCurrent_run_app (l1 l2 : list Z) (g : Globals) :
  senseCurrent_run (l1 ++ l2) g = senseCurrent_run l2 (senseCurrent_run l1 g).
Proof. apply fold_left_app. Qed.

Lemma senseCurrent_run_inv (raws : list Z) (g : Globals) :
  current_inv g -> all_within 0 ADC_MAX raws -> current_inv (senseCurrent_run raws g).
Proof.
  intros Hg Hr. revert g Hg. induction Hr as [|raw raws Hraw _ IH]; intros g Hg.
  - assumption.
  - apply IH. now apply senseCurrent_inv.
Qed.

Lemma senseCurrent_run_filter (raws : list Z) (g : Globals) :
  current_inv g -> all_within 0 ADC_MAX raws ->
  movAvgCurrent (senseCurrent_run raws g) = addValues raws (movAvgCurrent g).
Proof.
  intros Hg Hr. revert g Hg. induction Hr as [|raw raws Hraw _ IH]; intros g Hg.
  - reflexivity.
  - simpl. rewrite IH by now apply senseCurrent_inv.
    now destruct (senseCurrent_window raw g Hg Hraw) as (-> & _).
Qed.

Lemma senseCurrent_run_zero (raws : list Z) (g : Globals) :
  zeroISenseVADC (senseCurrent_run raws g) = zeroISenseVADC g.
Proof.
  revert g. induction raws as [|raw raws IH]; intros g; [reflexivity|].
  cbn [senseCurrent_run fold_left]. fold (senseCurrent_run raws (senseCurrent raw g)).
  now rewrite IH, senseCurrent_zero.
Qed.

(** The counter after a run: the number of calls, modulo the range of
    'unsigned int'. *)
Lemma senseCurrent_run_counter (raws : list Z) (g : Globals) :
  in_uint (sumCounter g) ->
  sumCounter (senseCurrent_run raws g) = wrapU (sumCounter g + Z.of_nat (length raws)).
Proof.
  revert g. induction raws as [|raw raws IH]; intros g Hc.
  - simpl. now rewrite Z.add_0_r, wrapU_id.
  - cbn [senseCurrent_run fold_left length]. fold (senseCurrent_run raws (senseCurrent raw g)).
    rewrite IH, senseCurrent_counter by (rewrite senseCurrent_counter; apply wrapU_in_uint).
    unfold uint_incr. rewrite wrapU_add_l. f_equal. lia.
Qed.

(** The reading after a non-empty run: the truncated average of the last
    N readings, the window's earlier contents included while fewer than N
    have been taken. *)
Lemma senseCurrent_run_reading (raws : list Z) (raw : Z) (g : Globals) :
  current_inv g -> all_within 0 ADC_MAX (raws ++ [raw]) ->
  let n := ra_size (movAvgCurrent g) in
  iSenseVADC (senseCurrent_run (raws ++ [raw]) g)
  = window_average n (lastn n (ra_ring (movAvgCurrent g) ++ raws ++ [raw])).
Proof.
  intros Hg Hr n. apply Forall_app in Hr as [Hr Hraw].
  apply Forall_inv in Hraw.
  rewrite senseCurrent_run_app. cbn [senseCurrent_run fold_left].
  pose proof (senseCurrent_run_inv raws g Hg Hr) as Hg'.
  destruct (senseCurrent_window raw _ Hg' Hraw) as (E & _ & _ & -> & _).
  rewrite E, addValue_size, senseCurrent_run_filter, addValues_size by assumption.
  rewrite addValue_ring by (apply wf_len, addValues_wf, Hg).
  rewrite addValues_size, contents_addValues by apply Hg.
  fold n. now rewrite lastn_lastn_app, <- app_assoc.
Qed.

Lemma initial_current_inv : current_inv initial.
Proof.
  constructor; simpl.
  - apply clear_wf. lia.
  - constructor.
  - apply small_in_uint. lia.
  - unfold ADC_MAX. lia.
Qed.

Lemma repeat_snoc (v : Z) (n : nat) : repeat v (S n) = repeat v n ++ [v].
Proof. simpl. apply repeat_cons. Qed.

Lemma window_average_constant (v : Z) (n : nat) :
  (0 < n)%nat -> window_average n (repeat v n) = v.
Proof.
  intros Hn. unfold window_average. rewrite sumZ_repeat, Z.mul_comm.
  apply Z.quot_mul. lia.
Qed.

(** The reading while an empty window fills with the constant [v]: the
    sum of the readings taken so far over the full window size. *)
Lemma warmup_reading (k : nat) (v : Z) (g : Globals) :
  current_inv g -> ra_ring (movAvgCurrent g) = [] ->
  (k < ra_size (movAvgCurrent g))%nat -> 0 <= v <= ADC_MAX ->
  iSenseVADC (senseCurrent_run (repeat v (S k)) g)
  = Z.quot (Z.of_nat (S k) * v) (Z.of_nat (ra_size (movAvgCurrent g))).
Proof.
  intros Hg He Hk Hv. rewrite repeat_snoc.
  rewrite senseCurrent_run_reading
    by (auto; rewrite <- repeat_snoc; auto with fw).
  rewrite He. cbn [app].
  rewrite lastn_all, <- repeat_snoc by (rewrite <- repeat_snoc, repeat_length; lia).
  unfold window_average. now rewrite sumZ_repeat.
Qed.

End Runs.

#[export] Hint Resolve senseCurrent_inv senseCurrent_run_inv initial_current_inv : fw.

(** ** The theorems of the current path *)

Section Claims.
Context {T : Target}.

(** The running sum after an addition: the sum of the new window and the
    error the sum had. *)
Lemma addValue_sum (v : Z) (f : filter) :
  (length (ra_ring f) <= ra_size f)%nat ->
  ra_sum (addValue v f) = sumZ (lastn (ra_size f) (ra_ring f ++ [v])) + drift f.
Proof.
  intros Hl. pose proof (addValue_drift v f) as Hd. unfold drift in *.
  rewrite addValue_ring in Hd by assumption. lia.
Qed.

(** The quotient of a sum that is off by at most the range of the window. *)
Lemma drifted_quot_in_int (s d : Z) (n : nat) :
  (0 < n)%nat -> 0 <= s <= Z.of_nat n * ADC_MAX -> Z.abs d <= Z.of_nat n * ADC_MAX ->
  in_int (Z.quot (s + d) (Z.of_nat n)).
Proof.
  unfold ADC_MAX. intros Hn Hs Hd.
  assert (-1023 <= Z.quot (s + d) (Z.of_nat n) <= 2046); [|in_range].
  split.
  - rewrite <- (Z.quot_mul (-1023) (Z.of_nat n)) by lia. apply Z.quot_le_mono; lia.
  - rewrite <- (Z.quot_mul 2046 (Z.of_nat n)) by lia. apply Z.quot_le_mono; lia.
Qed.

(** A run extended by one call. *)
Lemma run_snoc (raws : list Z) (raw : Z) (g : Globals) :
  senseCurrent_run (raws ++ [raw]) g = senseCurrent raw (senseCurrent_run raws g).
Proof. now rewrite senseCurrent_run_app. Qed.

(** The error of the running sum after a call. *)
Lemma senseCurrent_drift (raw : Z) (g : Globals) :
  drift (movAvgCurrent (senseCurrent raw g))
  = if uint_incr (sumCounter g) =? RESYNC_AT then 0 else drift (movAvgCurrent g).
Proof.
  destruct (Z.eqb_spec (uint_incr (sumCounter g)) RESYNC_AT) as [E|E].
  - rewrite senseCurrent_full, store_reading_filter by assumption. apply resync_drift.
  - rewrite senseCurrent_fast, store_reading_filter by assumption. apply addValue_drift.
Qed.

(** C15: what each path reads when the running sum of the filter is off
    by [drift].  On every call but the one at 65535 the stored reading is
    the sum of the last N readings plus the error, over N: the error shows
    in the reading.  On the call at 65535 it is the sum of the last N
    readings over N, whatever the error was. *)
Theorem senseCurrent_reading_under_drift (raw : Z) (g : Globals) :
  let f := movAvgCurrent g in
  let w := lastn (ra_size f) (ra_ring f ++ [raw]) in
  (0 < ra_size f)%nat -> (length (ra_ring f) <= ra_size f)%nat ->
  within 0 ADC_MAX f -> 0 <= raw <= ADC_MAX ->
  Z.abs (drift f) <= Z.of_nat (ra_size f) * ADC_MAX ->
  (uint_incr (sumCounter g) <> RESYNC_AT ->
   iSenseVADC (senseCurrent raw g) = Z.quot (sumZ w + drift f) (Z.of_nat (ra_size f))) /\
  (uint_incr (sumCounter g) = RESYNC_AT ->
   iSenseVADC (senseCurrent raw g) = window_average (ra_size f) w).
Proof.
  intros f w Hs Hl Hin Hraw Hd. subst f w.
  pose proof (addValue_within 0 ADC_MAX raw _ Hl Hraw Hin) as Hin'.
  split; intros Hc.
  - rewrite senseCurrent_fast, store_reading_iSense by assumption.
    unfold float_to_int, getFastAverage.
    rewrite Qtrunc_average, addValue_size, addValue_sum by (rewrite ?addValue_size; assumption).
    apply wrapS_id, drifted_quot_in_int; try assumption.
    pose proof (sumZ_bounds 0 ADC_MAX _ Hin') as Hb.
    pose proof (addValue_length raw _ Hl) as Hl'.
    rewrite addValue_ring in Hb, Hl' by assumption.
    unfold ADC_MAX in *. nia.
  - rewrite senseCurrent_full, store_reading_iSense by assumption.
    destruct (float_to_int_average ADC_MAX (resync (addValue raw (movAvgCurrent g)))) as [E _].
    + apply resync_wf; rewrite addValue_size; auto using addValue_length.
    + exact Hin'.
    + unfold ADC_MAX. lia.
    + rewrite E. cbn [resync ra_size ra_ring]. now rewrite addValue_size, addValue_ring.
Qed.

(** C16: a call leaves in the window the last N readings, the new one
    included, and stores their sum divided by N, truncated, in
    [iSenseVADC]; for readings of the converter that is a converter
    value. *)
Theorem senseCurrent_reading (raw : Z) (g : Globals) :
  current_inv g -> 0 <= raw <= ADC_MAX ->
  let n := ra_size (movAvgCurrent g) in
  let w := lastn n (ra_ring (movAvgCurrent g) ++ [raw]) in
  ra_ring (movAvgCurrent (senseCurrent raw g)) = w /\
  iSenseVADC (senseCurrent raw g) = Z.quot (sumZ w) (Z.of_nat n) /\
  0 <= iSenseVADC (senseCurrent raw g) <= ADC_MAX.
Proof.
  intros Hg Hraw n w.
  destruct (senseCurrent_window raw g Hg Hraw) as (E & _ & _ & Hi & Hb).
  rewrite Hi, E, addValue_size, addValue_ring in * by apply Hg.
  repeat split; apply Hb.
Qed.

(** C17: the call on which the counter reaches 65535 repairs a running
    sum that is off: whatever the sum was, the filter is well formed
    afterwards.  Every other call carries the error along unchanged. *)
Theorem senseCurrent_repairs_drift (raw : Z) (g : Globals) :
  (0 < ra_size (movAvgCurrent g))%nat ->
  (length (ra_ring (movAvgCurrent g)) <= ra_size (movAvgCurrent g))%nat ->
  (uint_incr (sumCounter g) = RESYNC_AT -> wf (movAvgCurrent (senseCurrent raw g))) /\
  (uint_incr (sumCounter g) <> RESYNC_AT ->
   drift (movAvgCurrent (senseCurrent raw g)) = drift (movAvgCurrent g)).
Proof.
  intros Hs Hl. split; intros Hc.
  - rewrite senseCurrent_full, store_reading_filter by assumption.
    apply resync_wf; rewrite addValue_size; auto using addValue_length.
  - rewrite senseCurrent_fast, store_reading_filter by assumption.
    apply addValue_drift.
Qed.

(** C18: the amperes a call stores are 195/2048 A per count of distance
    between the filtered reading and the zero offset, and they are
    negative exactly when the reading is below the offset. *)
Theorem senseCurrent_amperes (raw : Z) (g : Globals) :
  current_inv g -> 0 <= raw <= ADC_MAX -> 0 <= zeroISenseVADC g <= 1278 ->
  let g' := senseCurrent raw g in
  (current g' == inject_Z (iSenseVADC g' - zeroISenseVADC g') * (195 # 2048))%Q /\
  ((current g' < 0)%Q <-> iSenseVADC g' < zeroISenseVADC g').
Proof.
  intros Hg Hraw Hz g'. subst g'.
  destruct (senseCurrent_window raw g Hg Hraw) as (_ & _ & _ & Hi & Hb).
  rewrite senseCurrent_zero. rewrite Hi. revert Hi Hb.
  rewrite senseCurrent_closed by apply Hg. unfold senseCurrent_ref.
  rewrite store_reading_current, store_reading_iSense, store_reading_filter.
  intros -> Hb. unfold ADC_MAX in *.
  rewrite int_sub_exact by in_range.
  split; [apply amps_of_adc_scale | rewrite amps_of_adc_sign; lia].
Qed.

(** C19: when the window is re-summed.  Counting calls from a counter of
    0, an error of the running sum is carried through the first 65534
    calls unchanged and is gone after the call number 65535, on every
    target: the literal 65535 is reached before an 'unsigned int' of any
    width wraps. *)
Theorem full_path_schedule (raws : list Z) (g : Globals) :
  sumCounter g = 0 ->
  drift (movAvgCurrent (senseCurrent_run raws g))
  = if Z.of_nat (length raws) <? 65535 then drift (movAvgCurrent g) else 0.
Proof.
  intros Hc. induction raws as [|raw raws IH] using rev_ind; [reflexivity|].
  rewrite run_snoc, senseCurrent_drift, IH, length_app, Nat2Z.inj_add.
  rewrite senseCurrent_run_counter by (rewrite Hc; in_range).
  unfold uint_incr. rewrite wrapU_add_l, Hc. unfold wrapU, RESYNC_AT.
  cbn [length Z.add Z.of_nat Pos.of_succ_nat Pos.succ].
  pose proof int_range_facts as HM.
  destruct (Z.eqb_spec ((Z.of_nat (length raws) + 1) mod int_modulus) 65535) as [E|E];
    destruct (Z.ltb_spec (Z.of_nat (length raws)) 65535);
    destruct (Z.ltb_spec (Z.of_nat (length raws) + 1) 65535); try reflexivity; try lia.
  - rewrite Z.mod_small in E by lia. lia.
  - rewrite Z.mod_small in E by lia. lia.
Qed.

(** C20: after N readings of the constant [v] the stored reading is [v],
    and both averages of the filter are [v]. *)
Theorem constant_round_trip (v : Z) (g : Globals) :
  current_inv g -> 0 <= v <= ADC_MAX ->
  let g' := senseCurrent_run (repeat v (ra_size (movAvgCurrent g))) g in
  iSenseVADC g' = v /\
  (getFastAverage (movAvgCurrent g') == inject_Z v)%Q /\
  (fst (getAverage (movAvgCurrent g')) == inject_Z v)%Q.
Proof.
  intros Hg Hv g'. subst g'. pose proof (ci_wf g Hg) as Hf.
  assert (Hr : all_within 0 ADC_MAX (repeat v (ra_size (movAvgCurrent g))))
    by auto with fw.
  rewrite senseCurrent_run_filter by assumption.
  rewrite getAverage_fast by auto using addValues_wf. cbn [fst].
  split; [|split; now apply fast_average_constant].
  destruct (ra_size (movAvgCurrent g)) as [|m] eqn:En; [destruct Hf; lia|].
  rewrite repeat_snoc in *. rewrite senseCurrent_run_reading by assumption.
  rewrite En, <- repeat_snoc, lastn_app_r, lastn_all by (rewrite repeat_length; lia).
  apply window_average_constant. lia.
Qed.

(** C21: while the window is filling the reading is low.  After [k + 1]
    readings of [v] from start-up, with fewer than 16 taken, the sum of
    the readings is still divided by 16, so the stored reading is below
    the signal. *)
Theorem warmup_under_reads (k : nat) (v : Z) :
  (k < 15)%nat -> 0 < v <= ADC_MAX ->
  let i := iSenseVADC (senseCurrent_run (repeat v (S k)) initial) in
  i = Z.quot (Z.of_nat (S k) * v) 16 /\ i < v.
Proof.
  intros Hk Hv i. subst i.
  rewrite (warmup_reading k v initial) by (auto with fw; simpl; lia).
  split; [reflexivity|]. cbn [initial movAvgCurrent clear ra_size].
  change (Z.of_nat 16) with 16. apply Z.quot_lt_upper_bound; nia.
Qed.

End Claims.

(** ** The theorems at concrete inputs, on the 16-bit target *)

(** A filter whose running sum is 5 too high, one call before the
    counter reaches 65535. *)
Definition drifted : Globals :=
  set_movAvgCurrent (mkFilter 16 [100; 102] 207) (set_sumCounter 65534 initial).

Lemma senseCurrent_reading_under_drift_witness :
  iSenseVADC (senseCurrent 101 (set_sumCounter 7 drifted)) = Z.quot (303 + 5) 16 /\
  iSenseVADC (senseCurrent 101 drifted) = Z.quot 303 16.
Proof.
  assert (Hw : within 0 ADC_MAX (movAvgCurrent drifted))
    by (repeat constructor; unfold ADC_MAX; lia).
  destruct (senseCurrent_reading_under_drift 101 (set_sumCounter 7 drifted)) as [H1 _];
    [simpl; lia | simpl; lia | exact Hw | unfold ADC_MAX; lia | vm_compute; discriminate |].
  destruct (senseCurrent_reading_under_drift 101 drifted) as [_ H2];
    [simpl; lia | simpl; lia | exact Hw | unfold ADC_MAX; lia | vm_compute; discriminate |].
  split; [apply H1; vm_compute; discriminate | apply H2; reflexivity].
Defined.

Lemma senseCurrent_reading_witness : iSenseVADC (senseCurrent 512 initial) = 32.
Proof.
  destruct (senseCurrent_reading 512 initial initial_current_inv) as (_ & H & _);
    [unfold ADC_MAX; lia|].
  rewrite H. reflexivity.
Defined.

Lemma senseCurrent_repairs_drift_witness :
  drift (movAvgCurrent drifted) = 5 /\ wf (movAvgCurrent (senseCurrent 101 drifted)).
Proof.
  split; [reflexivity|].
  apply (senseCurrent_repairs_drift 101 drifted); [simpl; lia | simpl; lia | reflexivity].
Defined.

Lemma senseCurrent_amperes_witness :
  (current (senseCurrent 512 initial) == inject_Z 32 * (195 # 2048))%Q.
Proof.
  destruct (senseCurrent_amperes 512 initial initial_current_inv) as [H _];
    [unfold ADC_MAX; lia | simpl; lia |].
  rewrite H. reflexivity.
Defined.

Lemma full_path_schedule_witness :
  drift (movAvgCurrent (senseCurrent_run [1; 2; 3] (set_sumCounter 0 drifted))) = 5 /\
  drift (movAvgCurrent
          (senseCurrent_run (repeat 512 (Z.to_nat 65535)) (set_sumCounter 0 drifted))) = 0.
Proof.
  split; rewrite (full_path_schedule _ (set_sumCounter 0 drifted) eq_refl).
  - reflexivity.
  - rewrite repeat_length, Z2Nat.id by lia. reflexivity.
Defined.

Lemma constant_round_trip_witness :
  iSenseVADC (senseCurrent_run (repeat 700 16) initial) = 700.
Proof.
  destruct (constant_round_trip 700 initial initial_current_inv) as [H _];
    [unfold ADC_MAX; lia | exact H].
Defined.

Lemma warmup_under_reads_witness :
  iSenseVADC (senseCurrent_run (repeat 700 1) initial) = 43.
Proof.
  destruct (warmup_under_reads 0 700) as [H _]; [lia | unfold ADC_MAX; lia |].
  rewrite H. reflexivity.
Defined.
