(* ===== verification/RingBuffer.v ===== *)
(** * RingBuffer: the filter as a ring, and the interface of a filter

    [RunningAverage] models the moving-average filter as the list of the
    last N readings.  The specification (section 3) describes its
    representation: a fixed-capacity ring that new readings overwrite, a
    running sum, and the number of readings held.  This file models that
    representation, [ring]: an array of N slots, the index of the next
    slot to write, the number of slots written, and the running sum.

    [contents] reads the ring in the order of arrival, and [abs] maps a
    ring to the list filter it represents.  Every operation of the ring
    commutes with [abs] on rings that satisfy the representation
    invariant [rb_ok]: the ring implements the list filter.

    [MovingAverage] is the interface the sensing code relies on: a type
    with the four operations, an invariant and an abstraction to the list
    filter that the operations commute with.  The list filter and the
    ring are its two instances, and the lemmas on sequences of additions
    are proved once, for any instance.

    [ma_reading] is the sequence of filter calls [senseCurrent] makes
    (sense.cpp lines 78-85): [senseCurrent_ma_reading] derives it from
    [Sense.senseCurrent], and the reading is the same for every
    representation that implements the interface. *)

From Stdlib Require Import ZArith QArith Lia Bool.
From stdpp Require Import base list.
From S2P Require Import Prelude MachInt Rational RunningAverage Sense Current.

#[local] Open Scope Z_scope.

Record ring : Type := mkRing {
  rb_size : nat;
  rb_array : list Z;
  rb_index : nat;
  rb_count : nat;
  rb_sum : Z
}.

(** A ring of [n] slots, all zero, holding nothing. *)
Definition rb_clear (n : nat) : ring := mkRing n (repeat 0 n) 0 0 0.

(** The index after [i], wrapping at the size. *)
Definition next_index (size i : nat) : nat := if (S i =? size)%nat then 0%nat else S i.

(** Overwrite the slot at the index, move the index on, count the slot if
    the ring was not full, and update the running sum by the difference. *)
Definition rb_addValue (v : Z) (r : ring) : ring :=
  match rb_size r with
  | O => r
  | S _ =>
      mkRing (rb_size r) (<[rb_index r := v]> (rb_array r))
        (next_index (rb_size r) (rb_index r))
        (if (rb_count r <? rb_size r)%nat then S (rb_count r) else rb_count r)
        (rb_sum r - nth (rb_index r) (rb_array r) 0 + v)
  end.

Definition rb_getFastAverage (r : ring) : Q := average (rb_sum r) (rb_size r).

(** The full average: the sum is recomputed from the slots. *)
Definition rb_getAverage (r : ring) : Q * ring :=
  let s := sumZ (rb_array r) in
  (average s (rb_size r),
   mkRing (rb_size r) (rb_array r) (rb_index r) (rb_count r) s).

(** The readings held, oldest first. *)
Definition contents (r : ring) : list Z :=
  if (rb_count r <? rb_size r)%nat then take (rb_count r) (rb_array r)
  else drop (rb_index r) (rb_array r) ++ take (rb_index r) (rb_array r).

(** The list filter a ring represents. *)
Definition abs (r : ring) : filter := mkFilter (rb_size r) (contents r) (rb_sum r).

(** The representation invariant: while the ring is filling the index is
    the count and the slots not yet written are zero. *)
Record rb_ok (r : ring) : Prop := mkRbOk {
  ok_size : (0 < rb_size r)%nat;
  ok_length : length (rb_array r) = rb_size r;
  ok_index : (rb_index r < rb_size r)%nat;
  ok_count : (rb_count r <= rb_size r)%nat;
  ok_filling : (rb_count r < rb_size r)%nat ->
               rb_index r = rb_count r /\
               drop (rb_count r) (rb_array r) = repeat 0 (rb_size r - rb_count r)
}.

(** ** Lists *)

Lemma nth_drop (l : list Z) (i : nat) :
  (i < length l)%nat -> drop i l = nth i l 0 :: drop (S i) l.
Proof.
  intros Hi. destruct (lookup_lt_is_Some_2 l i Hi) as [x Hx].
  rewrite (drop_S l x i Hx). f_equal. rewrite nth_lookup, Hx. reflexivity.
Qed.

Lemma take_insert_here (l : list Z) (i : nat) (v : Z) :
  (i < length l)%nat -> take (S i) (<[i := v]> l) = take i l ++ [v].
Proof.
  intros Hi. rewrite (take_S_r _ _ v) by now apply list_lookup_insert_eq.
  now rewrite take_insert_ge.
Qed.

Lemma sumZ_repeat_0 (n : nat) : sumZ (repeat 0 n) = 0.
Proof. rewrite sumZ_repeat. lia. Qed.

(** The array after a write at the last slot. *)
Lemma insert_last (l : list Z) (i : nat) (v : Z) :
  S i = length l -> <[i := v]> l = take i l ++ [v].
Proof.
  intros Hi. rewrite <- (take_ge (<[i := v]> l) (S i)) by (rewrite length_insert; lia).
  apply take_insert_here. lia.
Qed.

(** ** The ring implements the list filter *)

Lemma contents_length (r : ring) : rb_ok r -> length (contents r) = rb_count r.
Proof.
  intros [Hs Hl Hi Hc Hf]. unfold contents.
  destruct (Nat.ltb_spec (rb_count r) (rb_size r)).
  - rewrite length_take. lia.
  - rewrite length_app, length_drop, length_take. lia.
Qed.

Lemma rb_clear_ok (n : nat) : (0 < n)%nat -> rb_ok (rb_clear n).
Proof.
  intros Hn. constructor; cbn [rb_clear rb_size rb_array rb_index rb_count];
    rewrite ?repeat_length; try lia.
  intros _. split; [reflexivity|]. now rewrite Nat.sub_0_r.
Qed.

Lemma abs_clear (n : nat) : (0 < n)%nat -> abs (rb_clear n) = clear n.
Proof.
  intros Hn. unfold abs, contents, clear.
  cbn [rb_clear rb_size rb_array rb_index rb_count rb_sum].
  destruct (Nat.ltb_spec 0 n); [reflexivity | lia].
Qed.

(** The slot at the index of a ring that is filling is zero. *)
Lemma filling_slot (r : ring) :
  rb_ok r -> (rb_count r < rb_size r)%nat -> nth (rb_index r) (rb_array r) 0 = 0.
Proof.
  intros [Hs Hl Hi Hc Hf] Hlt. destruct (Hf Hlt) as [-> Hz].
  pose proof (nth_drop (rb_array r) (rb_count r) ltac:(lia)) as E.
  rewrite Hz in E. destruct (rb_size r - rb_count r)%nat eqn:En; [lia|].
  cbn [repeat] in E. now injection E as <- _.
Qed.

(** The readings held after an addition: one more while the ring is
    filling, the oldest one replaced when it is full. *)
Lemma contents_add (v : Z) (r : ring) :
  rb_ok r ->
  contents (rb_addValue v r)
  = if (rb_count r <? rb_size r)%nat then contents r ++ [v] else tail (contents r) ++ [v].
Proof.
  intros [Hs Hl Hi Hc Hf]. unfold rb_addValue, contents.
  destruct (rb_size r) as [|n] eqn:En; [lia|].
  cbn [rb_size rb_array rb_index rb_count]. unfold next_index.
  destruct (Nat.ltb_spec (rb_count r) (S n)) as [Hlt|Hge].
  - destruct (Hf Hlt) as [Ei _]. rewrite Ei.
    destruct (Nat.ltb_spec (S (rb_count r)) (S n)) as [Hlt'|Hge'].
    + apply take_insert_here. lia.
    + replace (S (rb_count r) =? S n)%nat with true by (symmetry; apply Nat.eqb_eq; lia).
      rewrite drop_0, take_0, app_nil_r. apply insert_last. lia.
  - destruct (Nat.ltb_spec (rb_count r) (S n)) as [|_]; [lia|].
    rewrite (nth_drop (rb_array r) (rb_index r)) by lia. cbn [tail app].
    destruct (Nat.eqb_spec (S (rb_index r)) (S n)) as [E|E].
    + rewrite drop_0, take_0, app_nil_r, (drop_ge (rb_array r)) by lia. cbn [app].
      apply insert_last. lia.
    + rewrite drop_insert_lt, take_insert_here, app_assoc by lia. reflexivity.
Qed.

Lemma rb_addValue_ok (v : Z) (r : ring) : rb_ok r -> rb_ok (rb_addValue v r).
Proof.
  intros [Hs Hl Hi Hc Hf]. unfold rb_addValue.
  destruct (rb_size r) as [|n] eqn:En; [lia|]. unfold next_index.
  constructor; cbn [rb_size rb_array rb_index rb_count]; rewrite ?length_insert; try lia.
  - destruct (Nat.eqb_spec (S (rb_index r)) (S n)); lia.
  - destruct (Nat.ltb_spec (rb_count r) (S n)); lia.
  - destruct (Nat.ltb_spec (rb_count r) (S n)) as [Hlt|Hge]; [|lia].
    intros Hlt'. destruct (Hf Hlt) as [Ei Hz]. rewrite Ei.
    destruct (Nat.eqb_spec (S (rb_count r)) (S n)); [lia|]. split; [reflexivity|].
    rewrite drop_insert_lt by lia.
    replace (S (rb_count r)) with (rb_count r + 1)%nat by lia.
    rewrite <- drop_drop, Hz.
    replace (S n - rb_count r)%nat with (S (S n - (rb_count r + 1)))%nat by lia.
    reflexivity.
Qed.

(** An addition on the ring is an addition on the list it represents. *)
Lemma abs_add (v : Z) (r : ring) : rb_ok r -> abs (rb_addValue v r) = addValue v (abs r).
Proof.
  intros Hr. pose proof (contents_add v r Hr) as Ec.
  pose proof (contents_length r Hr) as El. pose proof (filling_slot r Hr) as Ez.
  destruct Hr as [Hs Hl Hi Hc Hf]. unfold abs at 1, addValue.
  cbn [ra_ring ra_size ra_sum abs]. rewrite El, Ec.
  assert (Esz : rb_size (rb_addValue v r) = rb_size r)
    by (unfold rb_addValue; now destruct (rb_size r)).
  assert (Esum : rb_sum (rb_addValue v r)
                 = rb_sum r - nth (rb_index r) (rb_array r) 0 + v)
    by (unfold rb_addValue; destruct (rb_size r); [lia | reflexivity]).
  rewrite Esz, Esum.
  destruct (Nat.ltb_spec (rb_count r) (rb_size r)) as [Hlt|Hge].
  - rewrite Ez by assumption. f_equal. lia.
  - unfold contents. destruct (Nat.ltb_spec (rb_count r) (rb_size r)); [lia|].
    rewrite (nth_drop (rb_array r) (rb_index r)) by lia. reflexivity.
Qed.

(** The slots sum to the readings held. *)
Lemma sum_slots (r : ring) : rb_ok r -> sumZ (rb_array r) = sumZ (contents r).
Proof.
  intros [Hs Hl Hi Hc Hf]. unfold contents.
  destruct (Nat.ltb_spec (rb_count r) (rb_size r)) as [Hlt|Hge].
  - destruct (Hf Hlt) as [_ Hz].
    rewrite <- (take_drop (rb_count r) (rb_array r)) at 1.
    rewrite sumZ_app, Hz, sumZ_repeat_0. lia.
  - rewrite <- (take_drop (rb_index r) (rb_array r)) at 1.
    rewrite !sumZ_app. lia.
Qed.

Lemma abs_getAverage (r : ring) :
  rb_ok r ->
  fst (rb_getAverage r) = fst (getAverage (abs r)) /\
  abs (snd (rb_getAverage r)) = snd (getAverage (abs r)) /\
  rb_ok (snd (rb_getAverage r)).
Proof.
  intros Hr. pose proof (sum_slots r Hr) as E. unfold rb_getAverage, getAverage.
  cbn [fst snd]. unfold getFastAverage, resync, abs.
  cbn [ra_sum ra_size ra_ring rb_size rb_sum]. rewrite E.
  split; [reflexivity|]. split; [reflexivity|].
  destruct Hr as [Hs Hl Hi Hc Hf]. now constructor.
Qed.

(** ** The interface of a filter *)

Class MovingAverage (F : Type) : Type := {
  ma_ok : F -> Prop;
  ma_abs : F -> filter;
  ma_clear : nat -> F;
  ma_addValue : Z -> F -> F;
  ma_getFastAverage : F -> Q;
  ma_getAverage : F -> Q * F;
  ma_clear_spec : forall n,
    (0 < n)%nat -> ma_ok (ma_clear n) /\ ma_abs (ma_clear n) = clear n;
  ma_addValue_spec : forall v f,
    ma_ok f -> ma_ok (ma_addValue v f) /\ ma_abs (ma_addValue v f) = addValue v (ma_abs f);
  ma_getFastAverage_spec : forall f,
    ma_ok f -> ma_getFastAverage f = getFastAverage (ma_abs f);
  ma_getAverage_spec : forall f,
    ma_ok f ->
    fst (ma_getAverage f) = fst (getAverage (ma_abs f)) /\
    ma_abs (snd (ma_getAverage f)) = snd (getAverage (ma_abs f)) /\
    ma_ok (snd (ma_getAverage f))
}.

(** The shape of a list filter, without its sum. *)
Definition shaped (f : filter) : Prop :=
  (0 < ra_size f)%nat /\ (length (ra_ring f) <= ra_size f)%nat.

#[export, refine] Instance list_filter : MovingAverage filter := {
  ma_ok := shaped;
  ma_abs := fun f => f;
  ma_clear := clear;
  ma_addValue := addValue;
  ma_getFastAverage := getFastAverage;
  ma_getAverage := getAverage
}.
Proof.
  - intros n Hn. split; [split; simpl; lia | reflexivity].
  - intros v f [Hs Hl]. split; [|reflexivity].
    split; rewrite addValue_size; [assumption | now apply addValue_length].
  - reflexivity.
  - intros f Hf. repeat split; apply Hf.
Defined.

#[export, refine] Instance ring_filter : MovingAverage ring := {
  ma_ok := rb_ok;
  ma_abs := abs;
  ma_clear := rb_clear;
  ma_addValue := rb_addValue;
  ma_getFastAverage := rb_getFastAverage;
  ma_getAverage := rb_getAverage
}.
Proof.
  - intros n Hn. split; [now apply rb_clear_ok | now apply abs_clear].
  - intros v r Hr. split; [now apply rb_addValue_ok | now apply abs_add].
  - reflexivity.
  - apply abs_getAverage.
Defined.

(** ** Theorems for any filter *)

Section Generic.
Context {F : Type} {M : MovingAverage F}.

Definition ma_addValues (vs : list Z) (f : F) : F :=
  fold_left (fun g v => ma_addValue v g) vs f.

(** The filter calls of [senseCurrent]: the reading is added, then the
    fast average is taken, or the full one with the sum recomputed. *)
Definition ma_reading (raw : Z) (fast : bool) (f : F) : Q * F :=
  let f1 := ma_addValue raw f in
  if fast then (ma_getFastAverage f1, f1) else ma_getAverage f1.

Lemma ma_addValues_spec (vs : list Z) (f : F) :
  ma_ok f -> ma_ok (ma_addValues vs f) /\ ma_abs (ma_addValues vs f) = addValues vs (ma_abs f).
Proof.
  revert f. induction vs as [|v vs IH]; intros f Hf; [now split|].
  change (ma_addValues (v :: vs) f) with (ma_addValues vs (ma_addValue v f)).
  change (addValues (v :: vs) (ma_abs f)) with (addValues vs (addValue v (ma_abs f))).
  destruct (ma_addValue_spec v f Hf) as [Hok E]. rewrite <- E. now apply IH.
Qed.

(** After any additions to a new filter of size [n], the filter
    represents the last [n] values with their sum. *)
Lemma ma_window (n : nat) (vs : list Z) :
  (0 < n)%nat ->
  let f := ma_addValues vs (ma_clear n) in
  ma_ok f /\ ra_ring (ma_abs f) = lastn n vs /\ ra_sum (ma_abs f) = sumZ (lastn n vs) /\
  ra_size (ma_abs f) = n.
Proof.
  intros Hn f. destruct (ma_clear_spec n Hn) as [Hok E].
  destruct (ma_addValues_spec vs _ Hok) as [Hok' E']. subst f.
  pose proof (addValues_wf vs (clear n) (clear_wf n Hn)) as Hwf.
  rewrite E', E. split; [exact Hok'|].
  rewrite (wf_sum _ Hwf), contents_addValues, addValues_size by now apply clear_wf.
  auto.
Qed.

(** The round trip of a constant, for any filter. *)
Lemma ma_constant (n : nat) (v : Z) :
  (0 < n)%nat ->
  let f := ma_addValues (repeat v n) (ma_clear n) in
  (ma_getFastAverage f == inject_Z v)%Q /\ (fst (ma_getAverage f) == inject_Z v)%Q.
Proof.
  intros Hn f. destruct (ma_clear_spec n Hn) as [Hok E].
  destruct (ma_addValues_spec (repeat v n) _ Hok) as [Hok' E']. subst f.
  destruct (ma_getAverage_spec _ Hok') as (-> & _).
  rewrite ma_getFastAverage_spec, E', E by assumption.
  pose proof (fast_average_constant v (clear n) (clear_wf n Hn)) as Hc.
  cbn [clear ra_size] in Hc.
  rewrite getAverage_fast by (apply addValues_wf, clear_wf, Hn). auto.
Qed.

End Generic.


(** The reading taken from any filter is the one the list filter gives. *)
Lemma ma_reading_spec {F : Type} {M : MovingAverage F} (raw : Z) (fast : bool) (f : F) :
  ma_ok f ->
  ma_ok (snd (ma_reading raw fast f)) /\
  (fst (ma_reading raw fast f), ma_abs (snd (ma_reading raw fast f)))
  = ma_reading (M := list_filter) raw fast (ma_abs f).
Proof.
  intros Hf. unfold ma_reading. destruct (ma_addValue_spec raw f Hf) as [Hok E].
  cbn [list_filter ma_addValue ma_getFastAverage ma_getAverage]. rewrite <- E.
  destruct fast; cbn [fst snd].
  - now rewrite ma_getFastAverage_spec.
  - destruct (ma_getAverage_spec _ Hok) as (-> & -> & Hok').
    split; [exact Hok' | symmetry; apply surjective_pairing].
Qed.

(** A new ring after any additions. *)
Lemma ring_window (n : nat) (vs : list Z) :
  (0 < n)%nat ->
  let r := ma_addValues vs (rb_clear n) in
  rb_ok r /\ contents r = lastn n vs /\ rb_sum r = sumZ (lastn n vs) /\ rb_size r = n.
Proof. intros Hn. exact (ma_window (M := ring_filter) n vs Hn). Qed.

Lemma ma_addValues_snoc {F : Type} {M : MovingAverage F} (vs : list Z) (v : Z) (f : F) :
  ma_addValues (vs ++ [v]) f = ma_addValue v (ma_addValues vs f).
Proof. unfold ma_addValues. now rewrite fold_left_app. Qed.

(** ** The filter calls of the current sensing call *)

Section Client.
Context {T : Target}.

(** [ma_reading] on the list filter is what [senseCurrent] does with its
    filter: the reading stored is the truncated average it returns, and
    the filter kept is the one it returns. *)
Lemma senseCurrent_ma_reading (raw : Z) (g : Globals) :
  let r := ma_reading (M := list_filter) raw
             (negb (uint_incr (sumCounter g) =? 65535)) (movAvgCurrent g) in
  iSenseVADC (senseCurrent raw g) = float_to_int (fst r) /\
  movAvgCurrent (senseCurrent raw g) = snd r.
Proof.
  unfold ma_reading. cbn [list_filter ma_addValue ma_getFastAverage ma_getAverage].
  destruct (Z.eqb_spec (uint_incr (sumCounter g)) 65535) as [E|E]; cbn [negb].
  - now rewrite (senseCurrent_full raw g E).
  - now rewrite (senseCurrent_fast raw g E).
Qed.

(** The same reading comes from any representation of the filter that
    implements the interface. *)
Lemma senseCurrent_any_representation {F : Type} {M : MovingAverage F}
    (raw : Z) (f : F) (g : Globals) :
  ma_ok f -> ma_abs f = movAvgCurrent g ->
  let r := ma_reading raw (negb (uint_incr (sumCounter g) =? 65535)) f in
  iSenseVADC (senseCurrent raw g) = float_to_int (fst r) /\
  movAvgCurrent (senseCurrent raw g) = ma_abs (snd r) /\ ma_ok (snd r).
Proof.
  intros Hf Ef r. subst r.
  destruct (ma_reading_spec raw (negb (uint_incr (sumCounter g) =? 65535)) f Hf) as [Hok E].
  destruct (senseCurrent_ma_reading raw g) as [Hi Hm]. rewrite <- Ef, <- E in Hi, Hm.
  auto.
Qed.

End Client.

(** C39: a ring of N slots that has received any sequence of readings
    satisfies its invariant, holds the last N of them in the order they
    arrived with their sum, and the reading the next sensing call takes
    from it, on the fast and on the full path, is the sum of the last N
    readings, the new one included, over N. *)
Theorem ring_reading (n : nat) (vs : list Z) (raw : Z) (fast : bool) :
  (0 < n)%nat ->
  let r := ma_addValues vs (rb_clear n) in
  rb_ok r /\ contents r = lastn n vs /\ rb_sum r = sumZ (lastn n vs) /\
  fst (ma_reading raw fast r) = average (sumZ (lastn n (vs ++ [raw]))) n.
Proof.
  intros Hn r. destruct (ring_window n vs Hn) as (Hok & Ec & Es & _).
  split; [exact Hok|]. split; [exact Ec|]. split; [exact Es|].
  destruct (ring_window n (vs ++ [raw]) Hn) as (Hok' & Ec' & Es' & En').
  rewrite ma_addValues_snoc in Hok', Ec', Es', En'. fold r in Hok', Ec', Es', En'.
  unfold ma_reading. cbn [ring_filter ma_addValue ma_getFastAverage ma_getAverage] in *.
  destruct fast; cbn [fst rb_getAverage]; unfold rb_getFastAverage.
  - now rewrite Es', En'.
  - now rewrite (sum_slots _ Hok'), Ec', En'.
Qed.

Lemma ring_reading_witness :
  contents (ma_addValues [1; 2; 3; 4; 5] (rb_clear 3)) = [3; 4; 5] /\
  rb_array (ma_addValues [1; 2; 3; 4; 5] (rb_clear 3)) = [4; 5; 3] /\
  fst (ma_reading 9 false (ma_addValues [1; 2; 3; 4; 5] (rb_clear 3))) = average 18 3.
Proof.
  destruct (ring_reading 3 [1; 2; 3; 4; 5] 9 false) as (_ & Ec & _ & Er); [lia|].
  split; [exact Ec|]. split; [reflexivity | exact Er].
Defined.
