(* ===== verification/Temperature.v ===== *)
(** * Temperature: configureTempSensors and senseTemperatures

    [configureTempSensors] (sense.cpp) stores the number of probes found on
    the bus in [deviceCount].  [senseTemperatures] loops on the global
    counter [senseSamples] from 0 while it is below [deviceCount] and
    writes the reading of probe [senseSamples] to [tempC[senseSamples]].

    [tempC] is an array of two 'float'.  The source does not compare the
    index with the size of the array, so a bus with more than two probes
    makes the loop write past its end.  The model keeps the array as a
    list and makes every write check the index: a write outside the list
    stops the function with the fault [OutOfBounds] and the index.  The
    functions that cannot fail are those of [Sense]; here a result is a
    state or a fault.

    The probe library is outside the sources: the number of probes and
    the readings are arguments.

    The theorems: with at most two probes the function returns, the first
    [deviceCount] entries hold the new readings and the others are
    unchanged; with no probe the guard fails at once and nothing is
    written; with more than two the function faults at index 2 after
    writing entries 0 and 1.  The loop of the model takes fuel; the
    function gives it one unit more than the iterations it can make, and
    the result is the same for every larger fuel. *)

From Stdlib Require Import ZArith QArith Lia Bool.
From stdpp Require Import base list.
From S2P Require Import Prelude MachInt Rational RunningAverage Sense.

#[local] Open Scope Z_scope.

(** ** Results that may be a fault *)

Inductive fault : Type :=
  | OutOfBounds (index : Z).

Inductive result (A : Type) : Type :=
  | Ok (a : A)
  | Fault (e : fault) (at_state : A).

Arguments Ok {A} a.
Arguments Fault {A} e at_state.

(** The state a result carries: the final one, or the one the fault
    occurred in. *)
Definition state_of {A : Type} (r : result A) : A :=
  match r with Ok a => a | Fault _ a => a end.

Definition is_ok {A : Type} (r : result A) : bool :=
  match r with Ok _ => true | Fault _ _ => false end.

Definition bind {A : Type} (r : result A) (k : A -> result A) : result A :=
  match r with Ok a => k a | Fault e a => Fault e a end.

(** ** The variables the functions write *)

Definition set_deviceCount (v : Z) (g : Globals) : Globals :=
  mkGlobals v (tempC g) (senseSamples g) (avgCount g) (sumCounter g)
    (zeroISenseVADC g) (iSenseVADC g) (current g) (vSenseADC g) (voltage g)
    (power g) (powerA g) (mx g) (movAvgCurrent g).

Definition set_tempC (v : list Q) (g : Globals) : Globals :=
  mkGlobals (deviceCount g) v (senseSamples g) (avgCount g) (sumCounter g)
    (zeroISenseVADC g) (iSenseVADC g) (current g) (vSenseADC g) (voltage g)
    (power g) (powerA g) (mx g) (movAvgCurrent g).

(** [deviceCount = tempSensors.getDeviceCount()] *)
Definition configureTempSensors (count : Z) (g : Globals) : Globals :=
  set_deviceCount count g.

(** [tempC[i] = v], checked against the size of the array. *)
Definition write_tempC (i : Z) (v : Q) (g : Globals) : result Globals :=
  if (0 <=? i) && (i <? Z.of_nat (length (tempC g)))
  then Ok (set_tempC (<[Z.to_nat i := v]> (tempC g)) g)
  else Fault (OutOfBounds i) g.

Section Operations.
Context {T : Target}.

(** The loop on [senseSamples] with a body that may fault.  The loop
    leaves by its guard or by a fault of the body. *)
Fixpoint for_senseSamples_checked (fuel : nat) (bound : Z)
    (body : Globals -> result Globals) (g : Globals) : result Globals :=
  match fuel with
  | O => Ok g
  | S fuel' =>
      if senseSamples g <? bound
      then bind (body g) (fun g' =>
             for_senseSamples_checked fuel' bound body
               (set_senseSamples (int_incr (senseSamples g')) g'))
      else Ok g
  end.

(** [tempC[senseSamples] = tempSensors.getTempCByIndex(senseSamples)] *)
Definition read_probe (probe : Z -> Q) (g : Globals) : result Globals :=
  write_tempC (senseSamples g) (probe (senseSamples g)) g.

(** The loop makes at most [deviceCount] iterations.  It is given one
    unit of fuel more, so that it is left by its guard or by a fault and
    never because the fuel ran out ([read_loop_ok], [read_loop_fault] and
    [read_loop_none] hold for every fuel above the number of
    iterations). *)
Definition senseTemperatures (probe : Z -> Q) (g : Globals) : result Globals :=
  for_senseSamples_checked (S (Z.to_nat (deviceCount g))) (deviceCount g)
    (read_probe probe) (set_senseSamples 0 g).

End Operations.

(** The array after the readings of probes [from], ..., [from + count - 1]
    have been written to the entries of the same indices. *)
Fixpoint fill (probe : Z -> Q) (from count : nat) (l : list Q) : list Q :=
  match count with
  | O => l
  | S c => fill probe (S from) c (<[from := probe (Z.of_nat from)]> l)
  end.

(** ** The array *)

Lemma length_fill (probe : Z -> Q) (count from : nat) (l : list Q) :
  length (fill probe from count l) = length l.
Proof.
  revert from l. induction count as [|c IH]; intros from l; [reflexivity|].
  simpl. now rewrite IH, length_insert.
Qed.

Lemma fill_lookup (probe : Z -> Q) (count from : nat) (l : list Q) (k : nat) :
  (from + count <= length l)%nat ->
  fill probe from count l !! k
  = if decide (from <= k < from + count)%nat then Some (probe (Z.of_nat k)) else l !! k.
Proof.
  revert from l. induction count as [|c IH]; intros from l Hlen.
  - simpl. case_decide; [lia | reflexivity].
  - simpl. rewrite IH by (rewrite length_insert; lia).
    destruct (decide (k = from)) as [->|Hne].
    + rewrite list_lookup_insert_eq by lia. repeat case_decide; try lia; reflexivity.
    + rewrite list_lookup_insert_ne by lia. repeat case_decide; try lia; reflexivity.
Qed.

(** Writes and the loop counter are independent variables. *)
Lemma set_state_collapse (a b : Z) (l l' : list Q) (g : Globals) :
  set_senseSamples a (set_tempC l (set_senseSamples b (set_tempC l' g)))
  = set_senseSamples a (set_tempC l g).
Proof. reflexivity. Qed.

Lemma set_state_id (g : Globals) :
  set_senseSamples (senseSamples g) (set_tempC (tempC g) g) = g.
Proof. now destruct g. Qed.

Lemma write_tempC_ok (i : Z) (v : Q) (g : Globals) :
  0 <= i < Z.of_nat (length (tempC g)) ->
  write_tempC i v g = Ok (set_tempC (<[Z.to_nat i := v]> (tempC g)) g).
Proof.
  intros Hi. unfold write_tempC.
  destruct (Z.leb_spec 0 i); [|lia]. destruct (Z.ltb_spec i (Z.of_nat (length (tempC g)))); [|lia].
  reflexivity.
Qed.

Lemma write_tempC_fault (i : Z) (v : Q) (g : Globals) :
  i < 0 \/ Z.of_nat (length (tempC g)) <= i ->
  write_tempC i v g = Fault (OutOfBounds i) g.
Proof.
  intros Hi. unfold write_tempC.
  destruct (Z.leb_spec 0 i); destruct (Z.ltb_spec i (Z.of_nat (length (tempC g))));
    try reflexivity; lia.
Qed.

(** ** The loop *)

Section Loop.
Context {T : Target}.
Context (probe : Z -> Q) (bound : Z).

(** [c] iterations whose writes are inside the array, from index [i]. *)
Lemma read_loop_prefix (c : nat) :
  forall (fuel i : nat) (g : Globals),
    senseSamples g = Z.of_nat i -> Z.of_nat (i + c) <= 32767 ->
    Z.of_nat (i + c) <= bound -> (i + c <= length (tempC g))%nat -> (c <= fuel)%nat ->
    for_senseSamples_checked fuel bound (read_probe probe) g
    = for_senseSamples_checked (fuel - c) bound (read_probe probe)
        (set_senseSamples (Z.of_nat (i + c)) (set_tempC (fill probe i c (tempC g)) g)).
Proof.
  induction c as [|c IH]; intros fuel i g Hs Hm Hb Hl Hf.
  - rewrite Nat.add_0_r, Nat.sub_0_r, <- Hs. simpl. now rewrite set_state_id.
  - destruct fuel as [|fuel]; [lia|]. cbn [for_senseSamples_checked Nat.sub].
    rewrite Hs. destruct (Z.ltb_spec (Z.of_nat i) bound); [|lia].
    unfold read_probe at 1. rewrite Hs, write_tempC_ok by lia. cbn [bind].
    rewrite Nat2Z.id. cbn [senseSamples set_tempC]. rewrite Hs, int_incr_small by lia.
    rewrite (IH fuel (S i)); cbn [senseSamples set_senseSamples tempC set_tempC];
      rewrite ?length_insert; try lia.
    rewrite set_state_collapse. cbn [fill].
    now replace (S i + c)%nat with (i + S c)%nat by lia.
Qed.

(** The loop at its bound: the guard fails, whatever fuel is left. *)
Lemma read_loop_exit (fuel : nat) (g : Globals) :
  bound <= senseSamples g ->
  for_senseSamples_checked fuel bound (read_probe probe) g = Ok g.
Proof.
  intros Hb. destruct fuel as [|fuel]; [reflexivity|].
  cbn [for_senseSamples_checked]. now destruct (Z.ltb_spec (senseSamples g) bound); [lia|].
Qed.

(** The loop from 0 when every index below [bound] is inside the array:
    it leaves by its guard after [bound] iterations, for every fuel that
    covers them. *)
Lemma read_loop_ok (fuel : nat) (g : Globals) :
  0 <= bound <= Z.of_nat (length (tempC g)) -> bound <= 32767 ->
  (Z.to_nat bound <= fuel)%nat ->
  for_senseSamples_checked fuel bound (read_probe probe) (set_senseSamples 0 g)
  = Ok (set_senseSamples bound (set_tempC (fill probe 0 (Z.to_nat bound) (tempC g)) g)).
Proof.
  intros Hb Hm Hf.
  rewrite (read_loop_prefix (Z.to_nat bound) _ 0%nat);
    cbn [senseSamples set_senseSamples tempC Nat.add]; try lia.
  rewrite Z2Nat.id by lia. apply read_loop_exit. cbn [senseSamples set_senseSamples]. lia.
Qed.

(** The loop from 0 when [bound] is beyond the end of the array: the
    entries of the array are written, then the write at the index that
    is the size of the array faults, for every fuel above that size. *)
Lemma read_loop_fault (fuel : nat) (g : Globals) :
  let n := length (tempC g) in
  Z.of_nat n < bound -> Z.of_nat n <= 32767 -> (n < fuel)%nat ->
  for_senseSamples_checked fuel bound (read_probe probe) (set_senseSamples 0 g)
  = Fault (OutOfBounds (Z.of_nat n))
      (set_senseSamples (Z.of_nat n) (set_tempC (fill probe 0 n (tempC g)) g)).
Proof.
  intros n Hb Hm Hf.
  rewrite (read_loop_prefix n _ 0%nat);
    cbn [senseSamples set_senseSamples tempC Nat.add]; try lia.
  destruct (fuel - n)%nat as [|fuel'] eqn:E; [lia|].
  cbn [for_senseSamples_checked senseSamples set_senseSamples].
  destruct (Z.ltb_spec (Z.of_nat n) bound); [|lia].
  unfold read_probe. cbn [senseSamples set_senseSamples].
  rewrite write_tempC_fault by (cbn [tempC set_tempC set_senseSamples]; rewrite length_fill; lia).
  reflexivity.
Qed.

End Loop.

Section Returns.
Context {T : Target}.

(** The state the function leaves when it returns. *)
Lemma senseTemperatures_returns (probe : Z -> Q) (g g' : Globals) :
  senseTemperatures probe g = Ok g' ->
  0 <= deviceCount g -> Z.of_nat (length (tempC g)) <= 32767 ->
  g' = set_senseSamples (deviceCount g)
         (set_tempC (fill probe 0 (Z.to_nat (deviceCount g)) (tempC g)) g).
Proof.
  intros E Hd Hl. unfold senseTemperatures in E.
  destruct (Z_le_gt_dec (deviceCount g) (Z.of_nat (length (tempC g)))) as [Hle|Hgt].
  - rewrite read_loop_ok in E by lia. now injection E as <-.
  - rewrite read_loop_fault in E by lia. discriminate.
Qed.

End Returns.

(** ** The theorems of the temperature path *)

Section Claims.
Context {T : Target}.

(** C22: with no more probes than [tempC] has entries, [senseTemperatures]
    returns: the loop leaves by its guard with [deviceCount] in
    [senseSamples], entry [k] holds the reading of probe [k] for every [k]
    below [deviceCount], and the other entries are unchanged. *)
Theorem senseTemperatures_reads_probes (probe : Z -> Q) (g : Globals) :
  0 <= deviceCount g <= Z.of_nat (length (tempC g)) -> deviceCount g <= 32767 ->
  exists g',
    senseTemperatures probe g = Ok g' /\
    senseSamples g' = deviceCount g /\
    length (tempC g') = length (tempC g) /\
    forall k : nat,
      tempC g' !! k
      = if decide (Z.of_nat k < deviceCount g) then Some (probe (Z.of_nat k))
        else tempC g !! k.
Proof.
  intros Hd Hm. eexists. split; [apply read_loop_ok; lia|].
  cbn [senseSamples set_senseSamples tempC set_tempC].
  split; [reflexivity|]. split; [apply length_fill|]. intros k.
  rewrite fill_lookup by lia. repeat case_decide; try lia; reflexivity.
Qed.

(** C23: with more probes than [tempC] has entries the function does not
    return normally: after the entries of the array have been written,
    the write at the index equal to the size of the array is outside it. *)
Theorem senseTemperatures_out_of_bounds (probe : Z -> Q) (g : Globals) :
  let n := length (tempC g) in
  Z.of_nat n < deviceCount g -> Z.of_nat n <= 32767 ->
  senseTemperatures probe g
  = Fault (OutOfBounds (Z.of_nat n))
      (set_senseSamples (Z.of_nat n) (set_tempC (fill probe 0 n (tempC g)) g)).
Proof. intros n Hd Hm. apply read_loop_fault; lia. Qed.

(** C24: with no probe on the bus, or a count that is not positive, the
    function writes nothing and returns. *)
Theorem senseTemperatures_no_probe (probe : Z -> Q) (g : Globals) :
  deviceCount g <= 0 -> senseTemperatures probe g = Ok (set_senseSamples 0 g).
Proof.
  intros Hd. apply read_loop_exit. cbn [senseSamples set_senseSamples]. exact Hd.
Qed.

(** C38: the loop of [senseTemperatures] terminates, and the fuel of the
    model plays no part in its result.  With any fuel above the number of
    probes the loop gives the result of the function: it is left by its
    guard, or by the fault of a write, and never because the fuel ran
    out. *)
Theorem senseTemperatures_fuel_independent (probe : Z -> Q) (g : Globals) (fuel : nat) :
  Z.of_nat (length (tempC g)) <= 32767 -> (Z.to_nat (deviceCount g) < fuel)%nat ->
  for_senseSamples_checked fuel (deviceCount g) (read_probe probe) (set_senseSamples 0 g)
  = senseTemperatures probe g.
Proof.
  intros Hl Hf. unfold senseTemperatures.
  destruct (Z_le_gt_dec (deviceCount g) 0) as [Hz|Hz].
  - now rewrite !read_loop_exit.
  - destruct (Z_le_gt_dec (deviceCount g) (Z.of_nat (length (tempC g)))) as [Hle|Hgt].
    + now rewrite !read_loop_ok by lia.
    + now rewrite !read_loop_fault by lia.
Qed.

End Claims.

(** ** The theorems at concrete inputs, on the 16-bit target *)

(** Probe [k] reads [20 + k] degrees. *)
Definition probe_ramp (k : Z) : Q := inject_Z (20 + k).

Lemma senseTemperatures_reads_probes_witness :
  exists g', senseTemperatures probe_ramp (configureTempSensors 1 initial) = Ok g' /\
             tempC g' = [inject_Z 20; 0%Q].
Proof.
  destruct (senseTemperatures_reads_probes probe_ramp (configureTempSensors 1 initial))
    as (g' & E & _); [simpl; lia | simpl; lia |].
  exists g'. split; [exact E|].
  assert (E' : Ok g' = senseTemperatures probe_ramp (configureTempSensors 1 initial))
    by now rewrite E.
  vm_compute in E'. now injection E' as ->.
Defined.

Lemma senseTemperatures_out_of_bounds_witness :
  senseTemperatures probe_ramp (configureTempSensors 3 initial)
  = Fault (OutOfBounds 2)
      (set_senseSamples 2
        (set_tempC [inject_Z 20; inject_Z 21] (configureTempSensors 3 initial))).
Proof.
  rewrite (senseTemperatures_out_of_bounds probe_ramp (configureTempSensors 3 initial));
    [reflexivity | simpl; lia | simpl; lia].
Defined.

Lemma senseTemperatures_fuel_independent_witness :
  for_senseSamples_checked 10 3 (read_probe probe_ramp)
    (set_senseSamples 0 (configureTempSensors 3 initial))
  = senseTemperatures probe_ramp (configureTempSensors 3 initial).
Proof.
  apply (senseTemperatures_fuel_independent probe_ramp (configureTempSensors 3 initial) 10);
    simpl; lia.
Defined.

Lemma senseTemperatures_no_probe_witness :
  senseTemperatures probe_ramp (configureTempSensors 0 initial)
  = Ok (set_senseSamples 0 (configureTempSensors 0 initial)).
Proof. apply senseTemperatures_no_probe. simpl. lia. Defined.
