(* ===== verification/Mppt.v ===== *)
(** * Mppt: trackMPPT of sense.cpp

    [trackMPPT] scans the power history [powerA] into the running maximum
    [mx] and then selects one of three actions by comparing [power] with
    [mx] and, below the maximum, the last two entries of the history.

    The loop is [for (int i : powerA) mx = max(mx, i)].  The loop variable
    is an 'int', so every entry is converted from 'float' to 'int' before
    it is compared: [scan_step] is one iteration, with [max] the macro of
    Arduino.h ([Qmaxc]).  [mx] is a global that the function never resets,
    so the scan starts from the maximum of every earlier call.

    The bodies of the three branches are comments in the source: the
    function changes no variable but [mx].  [mppt_branch] is the branch
    the conditions select, named by the comment it holds; [trackMPPT]
    returns it beside the new state so that theorems can speak of it.

    The theorems: the scan computes the greatest of the old [mx] and the
    truncated entries; [mx] never decreases, and a peak that has left the
    history stays in it; entries between -1 and 1 are invisible to the
    scan; which branch is selected, case by case; and the branch selected
    on the history as start-up leaves it. *)

From Stdlib Require Import ZArith QArith List Lia Bool Morphisms.
From S2P Require Import Prelude MachInt Rational RunningAverage Sense.
Import ListNotations.

#[local] Open Scope Z_scope.

(** The action a branch of [trackMPPT] stands for. *)
Inductive Branch : Type :=
  | IncreasePWM
  | KeepStable
  | DecreasePWM.

Definition Branch_eqb (a b : Branch) : bool :=
  match a, b with
  | IncreasePWM, IncreasePWM | KeepStable, KeepStable | DecreasePWM, DecreasePWM => true
  | _, _ => false
  end.

(** The number of entries of [powerA]. *)
Definition HISTORY : nat := 100.

Section Operations.
Context {T : Target}.

(** One iteration: [int i = entry; mx = max(mx, i)]. *)
Definition scan_step (m : Q) (entry : Q) : Q := Qmaxc m (inject_Z (float_to_int entry)).

(** [for (int i : powerA) mx = max(mx, i)] *)
Definition scan_max (m : Q) (history : list Q) : Q := fold_left scan_step history m.

(** The branch selected after the scan. *)
Definition mppt_branch (g : Globals) : Branch :=
  if Qgtb (power g) (mx g) then IncreasePWM
  else if Qeq_bool (power g) (mx g) then KeepStable
  else if Qltb (nth 99 (powerA g) 0%Q) (nth 98 (powerA g) 0%Q) then DecreasePWM
  else IncreasePWM.

Definition trackMPPT (g : Globals) : Globals * Branch :=
  let g1 := set_mx (scan_max (mx g) (powerA g)) g in
  (g1, mppt_branch g1).

End Operations.

(** The reference the scan is compared with: the greatest of a list of
    integers and a starting value. *)
Definition peak_of (m : Q) (entries : list Z) : Q :=
  fold_left (fun a z => Qmaxc a (inject_Z z)) entries m.

Section Scan.
Context {T : Target}.

Lemma scan_max_app (m : Q) (l1 l2 : list Q) :
  scan_max m (l1 ++ l2) = scan_max (scan_max m l1) l2.
Proof. apply fold_left_app. Qed.

Lemma scan_step_ge (m entry : Q) : (m <= scan_step m entry)%Q.
Proof. apply Qmaxc_ge_l. Qed.

(** The scan is the reference on the truncated entries. *)
Lemma scan_max_peak (m : Q) (l : list Q) :
  scan_max m l = peak_of m (map float_to_int l).
Proof.
  revert m. induction l as [|p l IH]; intros m; [reflexivity|].
  simpl. apply IH.
Qed.

Lemma scan_max_ge (m : Q) (l : list Q) : (m <= scan_max m l)%Q.
Proof.
  revert m. induction l as [|p l IH]; intros m; [apply Qle_refl|].
  simpl. eapply Qle_trans; [apply scan_step_ge | apply IH].
Qed.

Lemma scan_max_upper (m : Q) (l : list Q) (p : Q) :
  In p l -> (inject_Z (float_to_int p) <= scan_max m l)%Q.
Proof.
  revert m. induction l as [|q l IH]; intros m; [contradiction|].
  intros [-> | Hin]; simpl.
  - eapply Qle_trans; [apply Qmaxc_ge_r | apply scan_max_ge].
  - now apply IH.
Qed.

Lemma scan_max_attained (m : Q) (l : list Q) :
  scan_max m l = m \/ exists p, In p l /\ scan_max m l = inject_Z (float_to_int p).
Proof.
  revert m. induction l as [|q l IH]; intros m; [now left|].
  simpl. destruct (IH (scan_step m q)) as [E | (p & Hin & E)].
  - rewrite E. unfold scan_step. destruct (Qmaxc_cases m (inject_Z (float_to_int q))) as [-> | ->];
      [now left | right; exists q; auto].
  - right. exists p. auto.
Qed.

(** A scan that meets nothing above [m] ends at a value equal to [m]. *)
Lemma scan_max_stays (m : Q) (l : list Q) :
  (forall p, In p l -> (inject_Z (float_to_int p) <= m)%Q) -> (scan_max m l == m)%Q.
Proof.
  intros H. apply Qle_antisym; [|apply scan_max_ge].
  destruct (scan_max_attained m l) as [-> | (p & Hin & ->)]; [apply Qle_refl | auto].
Qed.

(** An entry strictly between -1 and 1 is read as 0. *)
Lemma float_to_int_small (p : Q) : (-1 < p)%Q -> (p < 1)%Q -> float_to_int p = 0.
Proof.
  intros Hl Hh. unfold float_to_int. rewrite Qtrunc_small by assumption.
  apply wrapS_id. in_range.
Qed.

(** ** The branch *)

Lemma trackMPPT_mx (g : Globals) :
  mx (fst (trackMPPT g)) = scan_max (mx g) (powerA g).
Proof. reflexivity. Qed.

Lemma trackMPPT_branch (g : Globals) :
  snd (trackMPPT g) = mppt_branch (set_mx (scan_max (mx g) (powerA g)) g).
Proof. reflexivity. Qed.

Lemma mppt_branch_above (g : Globals) :
  (mx g < power g)%Q -> mppt_branch g = IncreasePWM.
Proof. intros H. unfold mppt_branch. apply Qgtb_gt in H. now rewrite H. Qed.

Lemma mppt_branch_equal (g : Globals) :
  (power g == mx g)%Q -> mppt_branch g = KeepStable.
Proof.
  intros H. unfold mppt_branch.
  assert (E : Qgtb (power g) (mx g) = false) by (apply Qgtb_le; rewrite H; apply Qle_refl).
  apply Qeq_bool_iff in H. now rewrite E, H.
Qed.

Lemma mppt_branch_below (g : Globals) :
  (power g < mx g)%Q ->
  mppt_branch g
  = if Qltb (nth 99 (powerA g) 0%Q) (nth 98 (powerA g) 0%Q) then DecreasePWM
    else IncreasePWM.
Proof.
  intros H. unfold mppt_branch.
  assert (E : Qgtb (power g) (mx g) = false) by (apply Qgtb_le; now apply Qlt_le_weak).
  assert (E' : Qeq_bool (power g) (mx g) = false).
  { apply not_true_iff_false. rewrite Qeq_bool_iff. intros Heq.
    rewrite Heq in H. now apply Qlt_irrefl in H. }
  now rewrite E, E'.
Qed.

End Scan.

#[export] Hint Resolve scan_max_ge scan_max_upper : fw.

(** ** The theorems of the power tracker *)

Section Claims.
Context {T : Target}.

(** C25: the scan leaves in [mx] the greatest of the value [mx] had and
    the entries of the history converted to 'int': it is at least each of
    them, and it is one of them. *)
Theorem scan_max_is_maximum (m : Q) (l : list Q) :
  (m <= scan_max m l)%Q /\
  (forall p, In p l -> (inject_Z (float_to_int p) <= scan_max m l)%Q) /\
  (scan_max m l = m \/ exists p, In p l /\ scan_max m l = inject_Z (float_to_int p)).
Proof.
  split; [apply scan_max_ge|]. split; [intros p; apply scan_max_upper|].
  apply scan_max_attained.
Qed.

(** C26: which branch is selected.  Above the maximum: increase.  Equal to
    it: keep stable.  Below it: decrease when the last entry of the
    history is below the one before it, increase otherwise. *)
Theorem mppt_branch_cases (g : Globals) :
  let last := nth 99 (powerA g) 0%Q in
  let before := nth 98 (powerA g) 0%Q in
  ((mx g < power g)%Q -> mppt_branch g = IncreasePWM) /\
  ((power g == mx g)%Q -> mppt_branch g = KeepStable) /\
  ((power g < mx g)%Q -> (last < before)%Q -> mppt_branch g = DecreasePWM) /\
  ((power g < mx g)%Q -> (before <= last)%Q -> mppt_branch g = IncreasePWM).
Proof.
  intros last before.
  split; [apply mppt_branch_above|]. split; [apply mppt_branch_equal|].
  split; intros H Ht; rewrite mppt_branch_below by assumption; fold last before.
  - apply Qltb_lt in Ht. now rewrite Ht.
  - apply Qltb_ge in Ht. now rewrite Ht.
Qed.

(** C27: [mx] is never reset, so it is the greatest value ever seen and
    not the greatest of the last 100.  When every entry of the history is
    below [power] but an earlier call left a higher [mx], the function
    does not take the branch for a new maximum: it takes the trend
    branch, as if the power had fallen. *)
Theorem stale_peak (g : Globals) :
  (forall p, In p (powerA g) -> (inject_Z (float_to_int p) < power g)%Q) ->
  (power g < mx g)%Q ->
  (mx (fst (trackMPPT g)) == mx g)%Q /\
  snd (trackMPPT g)
  = if Qltb (nth 99 (powerA g) 0%Q) (nth 98 (powerA g) 0%Q) then DecreasePWM
    else IncreasePWM.
Proof.
  intros Hh Hp.
  assert (E : (scan_max (mx g) (powerA g) == mx g)%Q).
  { apply scan_max_stays. intros p Hin. apply Qlt_le_weak.
    eapply Qlt_trans; [now apply Hh | assumption]. }
  split; [exact E|].
  rewrite trackMPPT_branch, mppt_branch_below; [reflexivity|].
  cbn [power mx set_mx]. now rewrite E.
Qed.

(** C28: the entries are converted to 'int' before they are compared, so
    a history of values strictly between -1 and 1 is a history of zeros:
    [mx] stays 0, and any positive [power] takes the branch for a new
    maximum, even one below every entry of the history. *)
Theorem subunit_history_invisible (g : Globals) :
  (mx g == 0)%Q ->
  (forall p, In p (powerA g) -> (-1 < p)%Q /\ (p < 1)%Q) ->
  (0 < power g)%Q ->
  (mx (fst (trackMPPT g)) == 0)%Q /\ snd (trackMPPT g) = IncreasePWM.
Proof.
  intros Hm Hh Hp.
  assert (E : (scan_max (mx g) (powerA g) == 0)%Q).
  { transitivity (mx g); [|exact Hm]. apply scan_max_stays. intros p Hin.
    destruct (Hh p Hin) as [Hl Hu]. rewrite float_to_int_small, Hm by assumption.
    apply Qle_refl. }
  split; [exact E|].
  rewrite trackMPPT_branch. apply mppt_branch_above. cbn [power mx set_mx].
  now rewrite E.
Qed.

(** On the history as start-up leaves it, all zeros with [mx] zero, the
    function keeps [mx] at zero, holds for a power of exactly zero and
    increases otherwise. *)
Lemma trackMPPT_zero_history (g : Globals) :
  powerA g = repeat 0%Q HISTORY -> (mx g == 0)%Q ->
  (mx (fst (trackMPPT g)) == 0)%Q /\
  snd (trackMPPT g) = (if Qeq_bool (power g) 0 then KeepStable else IncreasePWM).
Proof.
  intros Hh Hm.
  assert (E : (scan_max (mx g) (powerA g) == 0)%Q).
  { transitivity (mx g); [|exact Hm]. apply scan_max_stays. intros p Hin. rewrite Hh in Hin.
    apply repeat_spec in Hin. subst p.
    rewrite float_to_int_small, Hm by reflexivity. apply Qle_refl. }
  split; [exact E|]. rewrite trackMPPT_branch.
  destruct (Qeq_bool (power g) 0) eqn:E0.
  - apply mppt_branch_equal. cbn [power mx set_mx]. rewrite E.
    now apply Qeq_bool_iff.
  - destruct (Qlt_le_dec 0 (power g)) as [Hpos|Hneg].
    + apply mppt_branch_above. cbn [power mx set_mx]. now rewrite E.
    + rewrite mppt_branch_below; cbn [power mx set_mx powerA].
      * rewrite Hh. reflexivity.
      * rewrite E. apply Qle_lteq in Hneg as [Hlt | Heq]; [assumption|].
        apply Qeq_bool_iff in Heq. congruence.
Qed.

End Claims.

(** ** The theorems at concrete inputs, on the 16-bit target *)

(** A state with [power], [mx] and the history given, and the other
    variables as at start-up. *)
Definition with_history (p m : Q) (h : list Q) : Globals :=
  mkGlobals 0 [0%Q; 0%Q] 0 16 0 0 0 0%Q 0 0%Q p h m (clear 16).

(** The history of the specification's example: a peak of 12, then 10 and
    8 in the last two entries. *)
Definition declining : list Q := 12%Q :: repeat 0%Q 97 ++ [10%Q; 8%Q].

Lemma mppt_branch_cases_witness :
  snd (trackMPPT (with_history 9 0 declining)) = DecreasePWM.
Proof.
  rewrite trackMPPT_branch.
  apply (mppt_branch_cases (set_mx (scan_max 0 declining) (with_history 9 0 declining)));
    reflexivity.
Defined.

Lemma stale_peak_witness :
  snd (trackMPPT (with_history 11 12 (repeat 10%Q 99 ++ [9%Q]))) = DecreasePWM.
Proof.
  destruct (stale_peak (with_history 11 12 (repeat 10%Q 99 ++ [9%Q]))) as [_ ->];
    [| reflexivity | reflexivity].
  intros p Hin. cbn [powerA with_history] in Hin. apply in_app_or in Hin as [Hin | [<- | []]].
  - apply repeat_spec in Hin. subst p. reflexivity.
  - reflexivity.
Defined.

Lemma subunit_history_invisible_witness :
  snd (trackMPPT (with_history (1 # 2) 0 (repeat (9 # 10) 100))) = IncreasePWM.
Proof.
  apply subunit_history_invisible; [reflexivity | | reflexivity].
  intros p Hin. apply repeat_spec in Hin. subst p. split; reflexivity.
Defined.
