(* ===== verification/Protections.v ===== *)
(** * Protections: checkProtections of protections.cpp

    [checkProtections] compares the filtered current reading and the
    voltage reading with three limits.  Each comparison sets or clears a
    flag and, when it holds, moves the shared [duty] variable.  The three
    blocks are compiled in or out by preprocessor symbols; [Config] holds
    the three symbols, and a block that is compiled out leaves its flag
    and [duty] alone.

    [Firmware] is the state the function works on: the globals of
    sense.cpp, which it only reads, its own three flags, and [duty], which
    is declared elsewhere in the firmware and modelled as an 'int'.

    The rule table of the specification is [rule_mdd], [rule_ocp] and
    [rule_ovp]: pure functions from readings to a flag and a duty change.
    [checkProtections_refines_rules] shows that the function computes the
    flags of the table and adds up its duty changes; the other theorems
    are read off it. *)

From Stdlib Require Import ZArith QArith List Lia Bool.
From S2P Require Import Prelude MachInt Rational RunningAverage Sense.
Import ListNotations.

#[local] Open Scope Z_scope.

(** The preprocessor symbols that select the protection blocks. *)
Record Config : Type := mkConfig {
  MINIMUM_DUTY_DETECTION : bool;
  OVERCURRENT_PROTECTION : bool;
  OVERVOLTAGE_PREVENTION : bool
}.

Definition all_enabled : Config := mkConfig true true true.

(** [bool mddActive, ocpActive, ovpActive] *)
Record Flags : Type := mkFlags {
  mddActive : bool;
  ocpActive : bool;
  ovpActive : bool
}.

Record Firmware : Type := mkFirmware {
  sense : Globals;
  flags : Flags;
  duty : Z
}.

Definition set_mddActive (b : bool) (f : Flags) : Flags :=
  mkFlags b (ocpActive f) (ovpActive f).
Definition set_ocpActive (b : bool) (f : Flags) : Flags :=
  mkFlags (mddActive f) b (ovpActive f).
Definition set_ovpActive (b : bool) (f : Flags) : Flags :=
  mkFlags (mddActive f) (ocpActive f) b.

(** Start-up: the globals of sense.cpp as initialised, the flags false,
    and [duty] as the rest of the firmware left it. *)
Definition boot (d : Z) : Firmware := mkFirmware initial (mkFlags false false false) d.

(** Run a sensing function on the globals of sense.cpp. *)
Definition on_sense (f : Globals -> Globals) (fw : Firmware) : Firmware :=
  mkFirmware (f (sense fw)) (flags fw) (duty fw).

(** The limits, in ADC counts: 454 for 40 A, 845 for 37 V. *)
Definition OCP_LIMIT : Z := 454.
Definition OVP_LIMIT : Z := 845.

Section Rules.
Context {T : Target}.

(** Keep load current above 0 amps. *)
Definition check_mdd (fw : Firmware) : Firmware :=
  if iSenseVADC (sense fw) <? zeroISenseVADC (sense fw)
  then mkFirmware (sense fw) (set_mddActive true (flags fw)) (int_incr (duty fw))
  else mkFirmware (sense fw) (set_mddActive false (flags fw)) (duty fw).

(** Keep load current under 40 amps. *)
Definition check_ocp (fw : Firmware) : Firmware :=
  if iSenseVADC (sense fw) >? OCP_LIMIT
  then mkFirmware (sense fw) (set_ocpActive true (flags fw)) (int_sub (duty fw) 2)
  else mkFirmware (sense fw) (set_ocpActive false (flags fw)) (duty fw).

(** Keep input voltage below 37 volts. *)
Definition check_ovp (fw : Firmware) : Firmware :=
  if vSenseADC (sense fw) >? OVP_LIMIT
  then mkFirmware (sense fw) (set_ovpActive true (flags fw)) (int_add (duty fw) 2)
  else mkFirmware (sense fw) (set_ovpActive false (flags fw)) (duty fw).

(** The three blocks in the order of the source, each under its symbol. *)
Definition checkProtections (cfg : Config) (fw : Firmware) : Firmware :=
  let fw1 := if MINIMUM_DUTY_DETECTION cfg then check_mdd fw else fw in
  let fw2 := if OVERCURRENT_PROTECTION cfg then check_ocp fw1 else fw1 in
  if OVERVOLTAGE_PREVENTION cfg then check_ovp fw2 else fw2.

End Rules.

(** ** The rule table of the specification *)

(** A rule: whether it fires, and by how much it then moves the duty. *)
Definition rule_mdd (g : Globals) : bool * Z :=
  (iSenseVADC g <? zeroISenseVADC g, 1).
Definition rule_ocp (g : Globals) : bool * Z :=
  (OCP_LIMIT <? iSenseVADC g, -2).
Definition rule_ovp (g : Globals) : bool * Z :=
  (OVP_LIMIT <? vSenseADC g, 2).

(** The duty change of a rule that is compiled in and fires. *)
Definition delta (enabled : bool) (rule : bool * Z) : Z :=
  if enabled && fst rule then snd rule else 0.

(** The flag of a rule: recomputed when compiled in, kept otherwise. *)
Definition flag (enabled : bool) (rule : bool * Z) (old : bool) : bool :=
  if enabled then fst rule else old.

Definition table_delta (cfg : Config) (g : Globals) : Z :=
  delta (MINIMUM_DUTY_DETECTION cfg) (rule_mdd g)
  + delta (OVERCURRENT_PROTECTION cfg) (rule_ocp g)
  + delta (OVERVOLTAGE_PREVENTION cfg) (rule_ovp g).

Definition table_flags (cfg : Config) (g : Globals) (old : Flags) : Flags :=
  mkFlags (flag (MINIMUM_DUTY_DETECTION cfg) (rule_mdd g) (mddActive old))
          (flag (OVERCURRENT_PROTECTION cfg) (rule_ocp g) (ocpActive old))
          (flag (OVERVOLTAGE_PREVENTION cfg) (rule_ovp g) (ovpActive old)).

Section Blocks.
Context {T : Target}.

(** The duty after a block whose rule fires or not: moved by [k], with
    wrap-around, when it fires. *)
Definition bump (fires : bool) (k d : Z) : Z := if fires then wrapS (d + k) else d.

(** The duty after a block that may be compiled out. *)
Definition block (enabled : bool) (rule : bool * Z) (d : Z) : Z :=
  if enabled then bump (fst rule) (snd rule) d else d.

Lemma bump_delta (fires : bool) (k d : Z) :
  in_int d -> bump fires k d = wrapS (d + (if fires then k else 0)).
Proof.
  intros Hd. destruct fires; simpl; [reflexivity|]. now rewrite Z.add_0_r, wrapS_id.
Qed.

Lemma bump_in_int (fires : bool) (k d : Z) : in_int d -> in_int (bump fires k d).
Proof. intros Hd. destruct fires; simpl; auto with fw. Qed.

Lemma block_in_int (enabled : bool) (rule : bool * Z) (d : Z) :
  in_int d -> in_int (block enabled rule d).
Proof. intros Hd. unfold block. destruct enabled; auto using bump_in_int. Qed.

Lemma block_wrap (enabled : bool) (rule : bool * Z) (d : Z) :
  in_int d -> block enabled rule d = wrapS (d + delta enabled rule).
Proof.
  intros Hd. unfold block, delta. destruct enabled; simpl.
  - now apply bump_delta.
  - now rewrite Z.add_0_r, wrapS_id.
Qed.

(** Each block of the source is its rule of the table. *)
Lemma check_mdd_rule (fw : Firmware) :
  check_mdd fw
  = mkFirmware (sense fw) (set_mddActive (fst (rule_mdd (sense fw))) (flags fw))
      (bump (fst (rule_mdd (sense fw))) 1 (duty fw)).
Proof. unfold check_mdd, rule_mdd. simpl. now destruct (_ <? _). Qed.

Lemma check_ocp_rule (fw : Firmware) :
  check_ocp fw
  = mkFirmware (sense fw) (set_ocpActive (fst (rule_ocp (sense fw))) (flags fw))
      (bump (fst (rule_ocp (sense fw))) (-2) (duty fw)).
Proof. unfold check_ocp, rule_ocp. simpl. rewrite Z.gtb_ltb. now destruct (_ <? _). Qed.

Lemma check_ovp_rule (fw : Firmware) :
  check_ovp fw
  = mkFirmware (sense fw) (set_ovpActive (fst (rule_ovp (sense fw))) (flags fw))
      (bump (fst (rule_ovp (sense fw))) 2 (duty fw)).
Proof. unfold check_ovp, rule_ovp. simpl. rewrite Z.gtb_ltb. now destruct (_ <? _). Qed.

Lemma checkProtections_blocks (cfg : Config) (fw : Firmware) :
  checkProtections cfg fw
  = mkFirmware (sense fw) (table_flags cfg (sense fw) (flags fw))
      (block (OVERVOLTAGE_PREVENTION cfg) (rule_ovp (sense fw))
        (block (OVERCURRENT_PROTECTION cfg) (rule_ocp (sense fw))
          (block (MINIMUM_DUTY_DETECTION cfg) (rule_mdd (sense fw)) (duty fw)))).
Proof.
  unfold checkProtections, table_flags, block.
  destruct cfg as [[|] [|] [|]], fw as [g [fm fc fv] d];
    cbn [MINIMUM_DUTY_DETECTION OVERCURRENT_PROTECTION OVERVOLTAGE_PREVENTION];
    rewrite ?check_mdd_rule, ?check_ocp_rule, ?check_ovp_rule; reflexivity.
Qed.

(** The three projections of the state after a call. *)
Lemma checkProtections_sense (cfg : Config) (fw : Firmware) :
  sense (checkProtections cfg fw) = sense fw.
Proof. now rewrite checkProtections_blocks. Qed.

Lemma checkProtections_flags (cfg : Config) (fw : Firmware) :
  flags (checkProtections cfg fw) = table_flags cfg (sense fw) (flags fw).
Proof. now rewrite checkProtections_blocks. Qed.

Lemma checkProtections_duty (cfg : Config) (fw : Firmware) :
  in_int (duty fw) ->
  duty (checkProtections cfg fw) = wrapS (duty fw + table_delta cfg (sense fw)).
Proof.
  intros Hd. rewrite checkProtections_blocks. cbn [duty].
  rewrite (block_wrap (OVERVOLTAGE_PREVENTION cfg)),
    (block_wrap (OVERCURRENT_PROTECTION cfg)),
    (block_wrap (MINIMUM_DUTY_DETECTION cfg)) by auto using block_in_int.
  rewrite !wrapS_add_l, <- !Z.add_assoc, !wrapS_add_l.
  unfold table_delta. apply (f_equal wrapS). lia.
Qed.

Lemma checkProtections_duty_in_int (cfg : Config) (fw : Firmware) :
  in_int (duty fw) -> in_int (duty (checkProtections cfg fw)).
Proof. intros Hd. rewrite checkProtections_duty by assumption. apply wrapS_in_int. Qed.

(** The table moves the duty by -2 .. 3 counts. *)
Lemma table_delta_bounds (cfg : Config) (g : Globals) : -2 <= table_delta cfg g <= 3.
Proof.
  unfold table_delta, delta, rule_mdd, rule_ocp, rule_ovp.
  destruct cfg as [[|] [|] [|]]; simpl;
    repeat match goal with |- context [if ?b then _ else _] => destruct b end; lia.
Qed.

End Blocks.

#[export] Hint Resolve checkProtections_duty_in_int block_in_int bump_in_int : fw.
#[export] Hint Rewrite @checkProtections_sense @checkProtections_flags : fw_rw.

(** Unfold the rule table and split on its comparisons. *)
Ltac table_simpl :=
  cbn [fst snd mddActive ocpActive ovpActive andb MINIMUM_DUTY_DETECTION
       OVERCURRENT_PROTECTION OVERVOLTAGE_PREVENTION] in *.

Ltac table_cases :=
  unfold table_delta, table_flags, delta, flag, rule_mdd, rule_ocp, rule_ovp,
    OCP_LIMIT, OVP_LIMIT, all_enabled in *;
  table_simpl; case_cmp; table_simpl.

(** A state with the given readings and duty, the flags clear. *)
Definition probe (i z v d : Z) : Firmware :=
  mkFirmware (set_vSenseADC v (set_zeroISenseVADC z (set_iSenseVADC i initial)))
    (mkFlags false false false) d.

(** ** The rules *)

Section Claims.
Context {T : Target}.

(** C1: [checkProtections] implements the rule table.  It leaves the
    globals of sense.cpp as they are, gives every compiled-in rule the flag
    the table gives it, and moves [duty] by the sum of the duty changes of
    the rules that fire, in 'int' arithmetic. *)
Theorem checkProtections_refines_rules (cfg : Config) (fw : Firmware) :
  in_int (duty fw) ->
  checkProtections cfg fw
  = mkFirmware (sense fw) (table_flags cfg (sense fw) (flags fw))
      (wrapS (duty fw + table_delta cfg (sense fw))).
Proof.
  intros Hd.
  rewrite <- (checkProtections_duty cfg fw Hd), <- checkProtections_flags,
    <- (checkProtections_sense cfg fw) at 1.
  now destruct (checkProtections cfg fw).
Qed.

(** C2: with overcurrent protection compiled in, [ocpActive] is set exactly
    when the filtered current reading is strictly above 454, so a reading
    of 454 leaves it clear; and when this is the only rule that fires,
    [duty] goes down by exactly 2. *)
Theorem overcurrent_rule (cfg : Config) (fw : Firmware) :
  OVERCURRENT_PROTECTION cfg = true -> in_int (duty fw) -> in_int (duty fw - 2) ->
  let g := sense fw in
  (ocpActive (flags (checkProtections cfg fw)) = true <-> 454 < iSenseVADC g) /\
  (454 < iSenseVADC g -> zeroISenseVADC g <= iSenseVADC g -> vSenseADC g <= OVP_LIMIT ->
   duty (checkProtections cfg fw) = duty fw - 2).
Proof.
  intros Hm Hd Hd1 g. rewrite checkProtections_flags, checkProtections_duty by assumption.
  fold g. destruct cfg as [m c v]. cbn in Hm. subst c. split.
  - table_cases; intuition (try lia; try discriminate).
  - intros. apply wrapS_exact; [|assumption].
    destruct m, v; table_cases; lia.
Qed.

(** C3: with overvoltage prevention compiled in, [ovpActive] is set exactly
    when the voltage reading is strictly above 845; and when this is the
    only rule that fires, [duty] goes up by exactly 2. *)
Theorem overvoltage_rule (cfg : Config) (fw : Firmware) :
  OVERVOLTAGE_PREVENTION cfg = true -> in_int (duty fw) -> in_int (duty fw + 2) ->
  let g := sense fw in
  (ovpActive (flags (checkProtections cfg fw)) = true <-> 845 < vSenseADC g) /\
  (845 < vSenseADC g -> zeroISenseVADC g <= iSenseVADC g -> iSenseVADC g <= OCP_LIMIT ->
   duty (checkProtections cfg fw) = duty fw + 2).
Proof.
  intros Hm Hd Hd1 g. rewrite checkProtections_flags, checkProtections_duty by assumption.
  fold g. destruct cfg as [m c v]. cbn in Hm. subst v. split.
  - table_cases; intuition (try lia; try discriminate).
  - intros. apply wrapS_exact; [|assumption].
    destruct m, c; table_cases; lia.
Qed.

(** C4: with minimum-duty detection compiled in, [mddActive] is set exactly
    when the filtered current reading is strictly below the zero-current
    offset; and when this is the only rule that fires, [duty] goes up by
    exactly 1. *)
Theorem minimum_duty_rule (cfg : Config) (fw : Firmware) :
  MINIMUM_DUTY_DETECTION cfg = true -> in_int (duty fw) -> in_int (duty fw + 1) ->
  let g := sense fw in
  (mddActive (flags (checkProtections cfg fw)) = true
   <-> iSenseVADC g < zeroISenseVADC g) /\
  (iSenseVADC g < zeroISenseVADC g -> iSenseVADC g <= OCP_LIMIT ->
   vSenseADC g <= OVP_LIMIT ->
   duty (checkProtections cfg fw) = duty fw + 1).
Proof.
  intros Hm Hd Hd1 g. rewrite checkProtections_flags, checkProtections_duty by assumption.
  fold g. destruct cfg as [m c v]. cbn in Hm. subst m. split.
  - table_cases; intuition (try lia; try discriminate).
  - intros. apply wrapS_exact; [|assumption].
    destruct c, v; table_cases; lia.
Qed.

(** C7: the rules compound by addition, and overcurrent and overvoltage
    have opposite signs.  When both fire and the current is not below the
    offset, both flags are set and [duty] does not move. *)
Theorem overcurrent_overvoltage_cancel (fw : Firmware) :
  in_int (duty fw) ->
  OCP_LIMIT < iSenseVADC (sense fw) -> OVP_LIMIT < vSenseADC (sense fw) ->
  zeroISenseVADC (sense fw) <= iSenseVADC (sense fw) ->
  let fw' := checkProtections all_enabled fw in
  ocpActive (flags fw') = true /\ ovpActive (flags fw') = true /\ duty fw' = duty fw.
Proof.
  intros Hd Hc Hv Hz fw'. unfold fw'.
  rewrite checkProtections_flags, checkProtections_duty by assumption.
  repeat split; [| | apply wrapS_exact; [|assumption]];
    table_cases; first [lia | reflexivity].
Qed.

(** C8: away from the ends of the 'int' range one call moves [duty] by at
    least -2 and at most 3, whatever the configuration and the readings. *)
Theorem duty_step_bounded (cfg : Config) (fw : Firmware) :
  in_int (duty fw - 2) -> in_int (duty fw + 3) ->
  -2 <= duty (checkProtections cfg fw) - duty fw <= 3.
Proof.
  intros Hlo Hhi. pose proof (table_delta_bounds cfg (sense fw)) as Hb.
  rewrite checkProtections_duty, wrapS_id; unfold in_int in *; lia.
Qed.

(** C13: a block that is compiled out never writes its flag, and with all
    three compiled out the function does nothing. *)
Theorem compiled_out_blocks (cfg : Config) (fw : Firmware) :
  (MINIMUM_DUTY_DETECTION cfg = false ->
     mddActive (flags (checkProtections cfg fw)) = mddActive (flags fw)) /\
  (OVERCURRENT_PROTECTION cfg = false ->
     ocpActive (flags (checkProtections cfg fw)) = ocpActive (flags fw)) /\
  (OVERVOLTAGE_PREVENTION cfg = false ->
     ovpActive (flags (checkProtections cfg fw)) = ovpActive (flags fw)) /\
  (cfg = mkConfig false false false -> checkProtections cfg fw = fw).
Proof.
  rewrite checkProtections_flags. repeat split; intros E.
  1-3: unfold table_flags, flag; rewrite E; reflexivity.
  subst cfg. now destruct fw as [g [a b c] d].
Qed.

(** C14: with every rule compiled in, the flags after a call depend on the
    readings alone: there is no hysteresis, and a flag clears on the first
    call at which its condition no longer holds. *)
Theorem flags_stateless (fw1 fw2 : Firmware) :
  sense fw1 = sense fw2 ->
  flags (checkProtections all_enabled fw1) = flags (checkProtections all_enabled fw2).
Proof. intros E. rewrite !checkProtections_flags, E. reflexivity. Qed.

(** ** Repeated calls at steady readings *)

Lemma checkProtections_iter_sense (cfg : Config) (n : nat) (fw : Firmware) :
  sense (Nat.iter n (checkProtections cfg) fw) = sense fw.
Proof.
  induction n as [|n IH]; [reflexivity|].
  now rewrite Nat.iter_succ, checkProtections_sense.
Qed.

Lemma checkProtections_iter_in_int (cfg : Config) (n : nat) (fw : Firmware) :
  in_int (duty fw) -> in_int (duty (Nat.iter n (checkProtections cfg) fw)).
Proof.
  intros Hd. induction n as [|n IH]; [assumption|].
  rewrite Nat.iter_succ. auto with fw.
Qed.

(** C6: [duty] is never clamped.  While an overcurrent persists every call
    takes another 2 off, so after [n] calls [duty] is [duty - 2 n] wrapped
    into the 'int' range: it leaves the range of the actuator and, after
    enough calls, wraps around to the largest values. *)
Theorem sustained_overcurrent (cfg : Config) (n : nat) (fw : Firmware) :
  OVERCURRENT_PROTECTION cfg = true -> in_int (duty fw) ->
  OCP_LIMIT < iSenseVADC (sense fw) ->
  zeroISenseVADC (sense fw) <= iSenseVADC (sense fw) ->
  vSenseADC (sense fw) <= OVP_LIMIT ->
  duty (Nat.iter n (checkProtections cfg) fw) = wrapS (duty fw - 2 * Z.of_nat n).
Proof.
  intros Hc Hd Hi Hz Hv. induction n as [|n IH].
  - simpl. now rewrite Z.sub_0_r, wrapS_id.
  - rewrite Nat.iter_succ, checkProtections_duty
      by now apply checkProtections_iter_in_int.
    rewrite IH, checkProtections_iter_sense, wrapS_add_l. apply (f_equal wrapS).
    destruct cfg as [m c v]. cbn in Hc. subst c.
    destruct m, v; table_cases; lia.
Qed.

(** C5: the overvoltage rule fires far below its limit.  Since
    [senseVoltage] accumulates onto the previous reading, a steady input of
    [r] counts settles [vSenseADC] near [5 r / 4]; after six readings the
    rule fires exactly when [r] is at least 677 counts (29.6 V), although
    the limit is 845 counts (37 V). *)
Theorem overvoltage_trips_early (cfg : Config) (r : Z) (fw : Firmware) :
  OVERVOLTAGE_PREVENTION cfg = true ->
  0 <= r <= 1023 -> 0 <= vSenseADC (sense fw) <= 1278 ->
  ovpActive (flags (checkProtections cfg
     (on_sense (Nat.iter 6 (senseVoltage (fun _ => r))) fw))) = true
  <-> 677 <= r.
Proof.
  intros Hc Hr Hv. rewrite checkProtections_flags. cbn [on_sense sense flags].
  unfold table_flags, flag. rewrite Hc. cbn [ovpActive rule_ovp fst].
  rewrite senseVoltage_iter by assumption.
  pose proof (settle_six r _ Hr Hv). unfold OVP_LIMIT. rewrite Z.ltb_lt. lia.
Qed.

End Claims.

(** ** The theorems at concrete inputs, on the 16-bit target *)

Lemma checkProtections_refines_rules_witness :
  in_int 100 /\
  checkProtections all_enabled (probe 20 34 900 100)
  = mkFirmware (sense (probe 20 34 900 100)) (mkFlags true false true) 103.
Proof.
  assert (H : in_int 100) by by_compute. split; [exact H|].
  rewrite (checkProtections_refines_rules all_enabled (probe 20 34 900 100) H).
  reflexivity.
Defined.

Lemma overcurrent_rule_witness :
  ocpActive (flags (checkProtections all_enabled (probe 455 34 700 100))) = true /\
  duty (checkProtections all_enabled (probe 455 34 700 100)) = 98 /\
  ocpActive (flags (checkProtections all_enabled (probe 454 34 700 100))) = false.
Proof.
  destruct (overcurrent_rule all_enabled (probe 455 34 700 100) eq_refl
              ltac:(by_compute) ltac:(by_compute)) as [Hf Hd].
  split; [apply Hf; by_compute|].
  split; [rewrite Hd by by_compute; reflexivity|].
  destruct (overcurrent_rule all_enabled (probe 454 34 700 100) eq_refl
              ltac:(by_compute) ltac:(by_compute)) as [Hf' _].
  apply not_true_is_false. intros E. apply Hf' in E. revert E. by_compute.
Defined.

Lemma overvoltage_rule_witness :
  ovpActive (flags (checkProtections all_enabled (probe 100 34 846 100))) = true /\
  duty (checkProtections all_enabled (probe 100 34 846 100)) = 102.
Proof.
  destruct (overvoltage_rule all_enabled (probe 100 34 846 100) eq_refl
              ltac:(by_compute) ltac:(by_compute)) as [Hf Hd].
  split; [apply Hf; by_compute | rewrite Hd by by_compute; reflexivity].
Defined.

Lemma minimum_duty_rule_witness :
  mddActive (flags (checkProtections all_enabled (probe 33 34 700 100))) = true /\
  duty (checkProtections all_enabled (probe 33 34 700 100)) = 101.
Proof.
  destruct (minimum_duty_rule all_enabled (probe 33 34 700 100) eq_refl
              ltac:(by_compute) ltac:(by_compute)) as [Hf Hd].
  split; [apply Hf; by_compute | rewrite Hd by by_compute; reflexivity].
Defined.

Lemma overcurrent_overvoltage_cancel_witness :
  duty (checkProtections all_enabled (probe 500 34 900 100)) = 100.
Proof.
  destruct (overcurrent_overvoltage_cancel (probe 500 34 900 100)) as (_ & _ & ->);
    by_compute.
Defined.

Lemma duty_step_bounded_witness :
  -2 <= duty (checkProtections all_enabled (probe 500 34 700 100)) - 100 <= 3.
Proof.
  apply (duty_step_bounded all_enabled (probe 500 34 700 100)); by_compute.
Defined.

Lemma flags_stateless_witness :
  flags (checkProtections all_enabled
           (mkFirmware (sense (probe 500 34 700 0)) (mkFlags true true true) 7))
  = flags (checkProtections all_enabled (probe 500 34 700 0)).
Proof. apply flags_stateless. reflexivity. Defined.

(** One call under overcurrent takes the duty from 0 to -2, and 16385
    calls take it to 32766. *)
Lemma sustained_overcurrent_witness :
  duty (Nat.iter 1 (checkProtections all_enabled) (probe 500 34 700 0)) = -2 /\
  duty (Nat.iter (Z.to_nat 16385) (checkProtections all_enabled) (probe 500 34 700 0))
  = 32766.
Proof.
  split; rewrite (sustained_overcurrent all_enabled); by_compute.
Defined.

(** A steady 700 counts (30.6 V) sets the overvoltage flag. *)
Lemma overvoltage_trips_early_witness :
  ovpActive (flags (checkProtections all_enabled
     (on_sense (Nat.iter 6 (senseVoltage (fun _ => 700))) (boot 0)))) = true.
Proof.
  apply (overvoltage_trips_early all_enabled 700 (boot 0)); by_compute.
Defined.
