(* ===== verification/Firmware.v ===== *)
(** * Firmware: the entry points as a transition system

    The functions of sense.cpp and protections.cpp are called from a
    control loop that is not part of the sources.  This file puts them
    together: a [Call] is one call of an entry point with what the
    hardware returns during it, [run_call] runs it on the whole state, and
    [step] and [reachable] are the transition system this gives from
    start-up ([boot]).  A step is a call that returns: the only call that
    can fault is [senseTemperatures], and [call_ok] says what the hardware
    may return (readings of the 10-bit converter, at most 255 probes).

    [sense_inv] collects what is true of the sensing variables in every
    reachable state.  It is proved by induction on [reachable], one lemma
    per entry point.  From it follow the theorems that hold of the running
    firmware and not of single calls: no 'int' operation of a sensing
    function overflows, the decrease branch of [trackMPPT] is never
    selected, and the minimum-duty rule fires while the filter fills. *)

From Stdlib Require Import ZArith QArith List Lia Bool.
From S2P Require Import Prelude MachInt Rational RunningAverage Sense Current.
From S2P Require Import Temperature Mppt Protections.
Import ListNotations.

#[local] Open Scope Z_scope.

(** One call of an entry point, with the values the hardware returns
    during the call. *)
Inductive Call : Type :=
  | ConfigureTempSensors (count : Z)
  | SenseTemperatures (probe : Z -> Q)
  | SenseZeroCurrent (adc : nat -> Z)
  | SenseCurrent (raw : Z)
  | SenseVoltage (adc : nat -> Z)
  | SensePower
  | TrackMPPT
  | CheckProtections.

(** What the hardware may return: converter values for the analog reads,
    an 8-bit count of probes. *)
Definition call_ok (c : Call) : Prop :=
  match c with
  | ConfigureTempSensors count => 0 <= count <= 255
  | SenseZeroCurrent adc | SenseVoltage adc => adc_ok adc
  | SenseCurrent raw => 0 <= raw <= ADC_MAX
  | SenseTemperatures _ | SensePower | TrackMPPT | CheckProtections => True
  end.

(** A result on the sensing variables as a result on the whole state. *)
Definition lift (r : result Globals) (fw : Firmware) : result Firmware :=
  match r with
  | Ok g => Ok (mkFirmware g (flags fw) (duty fw))
  | Fault e g => Fault e (mkFirmware g (flags fw) (duty fw))
  end.

Section Machine.
Context {T : Target}.
Variable cfg : Config.

Definition run_call (c : Call) (fw : Firmware) : result Firmware :=
  match c with
  | ConfigureTempSensors count => Ok (on_sense (configureTempSensors count) fw)
  | SenseTemperatures probe => lift (senseTemperatures probe (sense fw)) fw
  | SenseZeroCurrent adc => Ok (on_sense (senseZeroCurrent adc) fw)
  | SenseCurrent raw => Ok (on_sense (senseCurrent raw) fw)
  | SenseVoltage adc => Ok (on_sense (senseVoltage adc) fw)
  | SensePower => Ok (on_sense sensePower fw)
  | TrackMPPT => Ok (on_sense (fun g => fst (trackMPPT g)) fw)
  | CheckProtections => Ok (checkProtections cfg fw)
  end.

(** Calls in sequence, up to the first fault. *)
Fixpoint run_calls (cs : list Call) (fw : Firmware) : result Firmware :=
  match cs with
  | [] => Ok fw
  | c :: cs' => bind (run_call c fw) (run_calls cs')
  end.

(** A step: a call the hardware allows, that returns. *)
Inductive step : Firmware -> Call -> Firmware -> Prop :=
  | step_call (c : Call) (fw fw' : Firmware) :
      call_ok c -> run_call c fw = Ok fw' -> step fw c fw'.

(** The states reached from start-up with [duty] at [d]. *)
Inductive reachable (d : Z) : Firmware -> Prop :=
  | reach_boot : reachable d (boot d)
  | reach_step (fw : Firmware) (c : Call) (fw' : Firmware) :
      reachable d fw -> step fw c fw' -> reachable d fw'.

(** What holds of the sensing variables in every reachable state. *)
Record sense_inv (g : Globals) : Prop := mkSenseInv {
  inv_current : current_inv g;
  inv_window : ra_size (movAvgCurrent g) = 16%nat;
  inv_zero : 0 <= zeroISenseVADC g <= 1278;
  inv_volt : 0 <= vSenseADC g <= 1278;
  inv_history : powerA g = repeat 0%Q HISTORY;
  inv_mx : (mx g == 0)%Q;
  inv_temp : length (tempC g) = 2%nat;
  inv_count : 0 <= deviceCount g <= 255;
  inv_samples : 0 <= senseSamples g <= 5
}.

Definition fw_inv (fw : Firmware) : Prop := sense_inv (sense fw) /\ in_int (duty fw).

End Machine.

(** Projections of the sensing variables through their setters. *)
Ltac sense_simpl :=
  cbn [deviceCount tempC senseSamples avgCount sumCounter zeroISenseVADC iSenseVADC
       current vSenseADC voltage power powerA mx movAvgCurrent
       set_senseSamples set_sumCounter set_zeroISenseVADC set_iSenseVADC set_current
       set_vSenseADC set_voltage set_power set_mx set_movAvgCurrent
       set_deviceCount set_tempC configureTempSensors sensePower
       sense flags duty on_sense] in *.

(** ** The invariant, entry point by entry point *)

Section Preservation.
Context {T : Target}.

(** A state that agrees with [g] on the variables of the current path. *)
Lemma current_inv_frame (g g' : Globals) :
  movAvgCurrent g' = movAvgCurrent g -> sumCounter g' = sumCounter g ->
  iSenseVADC g' = iSenseVADC g -> current_inv g -> current_inv g'.
Proof. intros Ef Ec Ei [Hf Hin Hc Hi]. constructor; rewrite ?Ef, ?Ec, ?Ei; assumption. Qed.

Lemma inv_boot : sense_inv initial.
Proof.
  constructor; sense_simpl; try reflexivity; try (simpl; lia); auto with fw.
Qed.

Lemma inv_configure (count : Z) (g : Globals) :
  0 <= count <= 255 -> sense_inv g -> sense_inv (configureTempSensors count g).
Proof.
  intros Hc [H1 H2 H3 H4 H5 H6 H7 H8 H9].
  constructor; sense_simpl; auto. now apply (current_inv_frame g).
Qed.

Lemma inv_zero_current (adc : nat -> Z) (g : Globals) :
  adc_ok adc -> sense_inv g -> sense_inv (senseZeroCurrent adc g).
Proof.
  intros Ha [H1 H2 H3 H4 H5 H6 H7 H8 H9]. rewrite senseZeroCurrent_closed.
  destruct (average5_exact adc _ Ha H3) as [-> Hb].
  constructor; sense_simpl; auto; try lia. now apply (current_inv_frame g).
Qed.

Lemma inv_voltage (adc : nat -> Z) (g : Globals) :
  adc_ok adc -> sense_inv g -> sense_inv (senseVoltage adc g).
Proof.
  intros Ha [H1 H2 H3 H4 H5 H6 H7 H8 H9]. rewrite senseVoltage_closed.
  destruct (average5_exact adc _ Ha H4) as [-> Hb].
  constructor; sense_simpl; auto; try lia. now apply (current_inv_frame g).
Qed.

Lemma inv_current_call (raw : Z) (g : Globals) :
  0 <= raw <= ADC_MAX -> sense_inv g -> sense_inv (senseCurrent raw g).
Proof.
  intros Hr [H1 H2 H3 H4 H5 H6 H7 H8 H9].
  pose proof (senseCurrent_inv raw g H1 Hr) as H1'. revert H1'.
  rewrite senseCurrent_closed by apply H1. unfold senseCurrent_ref, store_reading.
  intros H1'. constructor; sense_simpl; auto. now rewrite addValue_size.
Qed.

Lemma inv_power (g : Globals) : sense_inv g -> sense_inv (sensePower g).
Proof.
  intros [H1 H2 H3 H4 H5 H6 H7 H8 H9].
  constructor; sense_simpl; auto. now apply (current_inv_frame g).
Qed.

Lemma inv_mppt (g : Globals) : sense_inv g -> sense_inv (fst (trackMPPT g)).
Proof.
  intros [H1 H2 H3 H4 H5 H6 H7 H8 H9].
  destruct (trackMPPT_zero_history g H5 H6) as [Hm _]. revert Hm.
  unfold trackMPPT. cbn [fst]. intros Hm.
  constructor; sense_simpl; auto. now apply (current_inv_frame g).
Qed.

Lemma inv_temperatures (probe : Z -> Q) (g g' : Globals) :
  senseTemperatures probe g = Ok g' -> sense_inv g -> sense_inv g'.
Proof.
  intros E [H1 H2 H3 H4 H5 H6 H7 H8 H9]. unfold senseTemperatures in E.
  destruct (Z_le_gt_dec (deviceCount g) 2) as [Hle|Hgt].
  - rewrite read_loop_ok in E by lia. injection E as <-.
    constructor; sense_simpl; auto; try lia.
    + now apply (current_inv_frame g).
    + now rewrite length_fill.
  - rewrite read_loop_fault in E by lia. discriminate.
Qed.

End Preservation.

#[export] Hint Resolve inv_boot inv_configure inv_zero_current inv_voltage
  inv_current_call inv_power inv_mppt : fw.

(** ** Steps and reachable states *)

Section System.
Context {T : Target}.
Variable cfg : Config.

Lemma step_preserves (fw : Firmware) (c : Call) (fw' : Firmware) :
  step cfg fw c fw' -> fw_inv fw -> fw_inv fw'.
Proof.
  intros [c0 f f' Hok E] [Hs Hd]. destruct c0; cbn [run_call call_ok] in *.
  2: { unfold lift in E. destruct (senseTemperatures probe (sense f)) eqn:E'; [|discriminate].
       injection E as <-. split; [eapply inv_temperatures; eauto | assumption]. }
  all: injection E as <-; split; cbn [sense duty on_sense]; auto with fw.
  - now apply (inv_mppt (sense f)).
  - now rewrite checkProtections_sense.
Qed.

Lemma boot_inv (d : Z) : in_int d -> fw_inv (boot d).
Proof. intros Hd. split; [apply inv_boot | exact Hd]. Qed.

(** The zero offset taken at start-up from the constant reading [r]. *)
Lemma zero_offset_at_boot (r : Z) :
  adc_ok (fun _ : nat => r) ->
  zeroISenseVADC (senseZeroCurrent (fun _ => r) initial) = r.
Proof.
  intros Hadc. rewrite senseZeroCurrent_closed. sense_simpl.
  destruct (average5_exact (fun _ => r) (zeroISenseVADC initial) Hadc) as [-> _];
    [simpl; lia|].
  rewrite sum_readings_const.
  cbn [initial zeroISenseVADC Z.add Z.of_nat Pos.of_succ_nat Pos.succ].
  rewrite Z.mul_comm. apply Z.quot_mul; lia.
Qed.

(** The invariant holds in every reachable state. *)
Lemma reachable_inv (d : Z) (fw : Firmware) :
  in_int d -> reachable cfg d fw -> fw_inv fw.
Proof.
  intros Hd Hr. induction Hr as [|fw c fw' _ IH Hstep].
  - now apply boot_inv.
  - eapply step_preserves; eauto.
Qed.

(** A sequence of allowed calls that returns leads to a reachable state. *)
Lemma run_calls_reachable (d : Z) (cs : list Call) :
  forall fw fw', reachable cfg d fw -> Forall call_ok cs ->
    run_calls cfg cs fw = Ok fw' -> reachable cfg d fw'.
Proof.
  induction cs as [|c cs IH]; intros fw fw' Hr Hok E.
  - injection E as <-. exact Hr.
  - apply Forall_cons_iff in Hok as [Hc Hok]. cbn [run_calls] in E.
    destruct (run_call cfg c fw) as [fw1|] eqn:E1; [|discriminate].
    apply (IH fw1); [|exact Hok | exact E].
    apply (reach_step cfg d fw c); [exact Hr|]. now constructor.
Qed.

(** Calls of [senseCurrent] in sequence are a run of [senseCurrent]. *)
Lemma run_calls_current (raws : list Z) (fw : Firmware) :
  run_calls cfg (map SenseCurrent raws) fw = Ok (on_sense (senseCurrent_run raws) fw).
Proof.
  revert fw. induction raws as [|raw raws IH]; intros fw.
  - now destruct fw.
  - cbn [map run_calls run_call bind]. now rewrite IH.
Qed.

Lemma run_calls_app (cs1 cs2 : list Call) (fw : Firmware) :
  run_calls cfg (cs1 ++ cs2) fw = bind (run_calls cfg cs1 fw) (run_calls cfg cs2).
Proof.
  revert fw. induction cs1 as [|c cs1 IH]; intros fw; [reflexivity|].
  cbn [app run_calls]. destruct (run_call cfg c fw); [apply IH | reflexivity].
Qed.

Lemma sense_on_sense (f : Globals -> Globals) (fw : Firmware) :
  sense (on_sense f fw) = f (sense fw).
Proof. reflexivity. Qed.

Lemma zero_current_keeps_filter (adc : nat -> Z) (g : Globals) :
  movAvgCurrent (senseZeroCurrent adc g) = movAvgCurrent g.
Proof. rewrite senseZeroCurrent_closed. reflexivity. Qed.

(** Zeroing, a run of current samples, then the protections. *)
Lemma run_warmup (adc : nat -> Z) (raws : list Z) (fw : Firmware) :
  run_calls cfg (SenseZeroCurrent adc :: map SenseCurrent raws ++ [CheckProtections]) fw
  = Ok (checkProtections cfg
          (on_sense (senseCurrent_run raws) (on_sense (senseZeroCurrent adc) fw))).
Proof.
  cbn [run_calls run_call bind]. rewrite run_calls_app, run_calls_current.
  reflexivity.
Qed.

(** The only call that can fault. *)
Lemma run_call_fault (c : Call) (fw : Firmware) :
  is_ok (run_call cfg c fw) = false ->
  exists probe, c = SenseTemperatures probe /\
                is_ok (senseTemperatures probe (sense fw)) = false.
Proof.
  destruct c; cbn [run_call is_ok]; try discriminate.
  intros E. exists probe. split; [reflexivity|].
  unfold lift in E. now destruct (senseTemperatures probe (sense fw)).
Qed.

(** With at most two probes every call returns. *)
Lemma run_call_returns (c : Call) (fw : Firmware) :
  sense_inv (sense fw) -> deviceCount (sense fw) <= 2 ->
  exists fw', run_call cfg c fw = Ok fw'.
Proof.
  intros Hs Hd. destruct c; cbn [run_call]; eauto.
  unfold senseTemperatures. rewrite read_loop_ok; cbn [lift]; eauto;
    rewrite ?(inv_temp _ Hs); pose proof (inv_count _ Hs); simpl; lia.
Qed.

(** The calls the loop makes. *)
Definition loop_call (c : Call) : bool :=
  match c with
  | ConfigureTempSensors _ | SenseZeroCurrent _ => false
  | _ => true
  end.

(** They leave the number of probes as it is. *)
Lemma loop_call_count (c : Call) (fw fw' : Firmware) :
  loop_call c = true -> sense_inv (sense fw) -> run_call cfg c fw = Ok fw' ->
  deviceCount (sense fw') = deviceCount (sense fw).
Proof.
  intros Hc Hs E. destruct c; try discriminate; cbn [run_call] in E.
  1: { unfold lift in E. destruct (senseTemperatures probe (sense fw)) as [g'|] eqn:E';
         [injection E as <- | discriminate].
       apply senseTemperatures_returns in E';
         [now subst g' | apply Hs | rewrite (inv_temp _ Hs); simpl; lia]. }
  all: injection E as <-; rewrite ?checkProtections_sense, ?sense_on_sense;
    try reflexivity.
  - apply senseCurrent_frame.
  - now rewrite senseVoltage_closed.
Qed.

End System.

(** ** The theorems of the running firmware *)

Section Claims.
Context {T : Target}.
Variable cfg : Config.

(** C29: in every state the firmware reaches from start-up, with readings
    of the 10-bit converter, the filter is well formed with a window of 16
    converter values, the filtered reading is a converter value, the zero
    offset and the voltage reading are within 0 .. 1278, the loop counter
    is within 0 .. 5, the temperature array has its two entries, the power
    history is all zeros with [mx] zero, and [duty] is in the range of
    'int'. *)
Theorem reachable_ranges (d : Z) (fw : Firmware) :
  in_int d -> reachable cfg d fw ->
  let g := sense fw in
  wf (movAvgCurrent g) /\ ra_size (movAvgCurrent g) = 16%nat /\
  within 0 1023 (movAvgCurrent g) /\ in_uint (sumCounter g) /\
  0 <= iSenseVADC g <= 1023 /\ 0 <= zeroISenseVADC g <= 1278 /\
  0 <= vSenseADC g <= 1278 /\ 0 <= senseSamples g <= 5 /\
  length (tempC g) = 2%nat /\ powerA g = repeat 0%Q 100 /\ (mx g == 0)%Q /\
  in_int (duty fw).
Proof.
  intros Hd Hr g.
  destruct (reachable_inv cfg d fw Hd Hr)
    as [[[Hf Hin Hc Hi] H2 H3 H4 H5 H6 H7 H8 H9] Hduty].
  exact (conj Hf (conj H2 (conj Hin (conj Hc (conj Hi (conj H3 (conj H4
    (conj H9 (conj H7 (conj H5 (conj H6 Hduty))))))))))).
Qed.

(** C30: nothing in the sources writes the power history, so in every
    reachable state [trackMPPT] scans zeros: [mx] stays zero, the decrease
    branch is never selected, and the call changes neither [duty] nor
    the flags. *)
Theorem decrease_unreachable (d : Z) (fw : Firmware) :
  in_int d -> reachable cfg d fw ->
  snd (trackMPPT (sense fw)) <> DecreasePWM /\
  (mx (fst (trackMPPT (sense fw))) == 0)%Q /\
  exists fw', run_call cfg TrackMPPT fw = Ok fw' /\
              duty fw' = duty fw /\ flags fw' = flags fw.
Proof.
  intros Hd Hr. destruct (reachable_inv cfg d fw Hd Hr) as [Hs _].
  destruct (trackMPPT_zero_history (sense fw)) as [Hm Hb]; try apply Hs.
  split; [|split; [exact Hm|]].
  - rewrite Hb. destruct (Qeq_bool _ _); discriminate.
  - eexists. split; [reflexivity|]. split; reflexivity.
Qed.

(** C31: in a reachable state a call faults exactly when it is
    [senseTemperatures] and more than two probes were counted; every
    other call returns. *)
Theorem only_temperature_faults (d : Z) (fw : Firmware) (c : Call) :
  in_int d -> reachable cfg d fw ->
  is_ok (run_call cfg c fw) = false
  <-> exists probe, c = SenseTemperatures probe /\ 2 < deviceCount (sense fw).
Proof.
  intros Hd Hr. destruct (reachable_inv cfg d fw Hd Hr) as [Hs _].
  pose proof (inv_temp _ Hs) as Hl. pose proof (inv_count _ Hs) as Hc. split.
  - intros E. apply run_call_fault in E as (probe & -> & E). exists probe.
    split; [reflexivity|].
    destruct (Z_le_gt_dec (deviceCount (sense fw)) 2) as [Hle|]; [|lia].
    unfold senseTemperatures in E. rewrite read_loop_ok in E by lia. discriminate.
  - intros (probe & -> & Hgt). cbn [run_call]. unfold senseTemperatures.
    rewrite read_loop_fault by lia. reflexivity.
Qed.

(** C32: the minimum-duty rule fires while the filter fills.  After
    start-up, a zero offset taken at the reading [r] and up to 15 current
    samples at the same reading, the filtered reading is below the offset
    although the signal equals it, and [checkProtections] sets
    [mddActive]. *)
Theorem warmup_trips_minimum_duty (r : Z) (k : nat) (d : Z) :
  MINIMUM_DUTY_DETECTION cfg = true -> 0 < r <= ADC_MAX -> (k < 15)%nat ->
  let calls := SenseZeroCurrent (fun _ => r)
               :: map SenseCurrent (repeat r (S k)) ++ [CheckProtections] in
  exists fw,
    run_calls cfg calls (boot d) = Ok fw /\
    zeroISenseVADC (sense fw) = r /\ iSenseVADC (sense fw) < r /\
    mddActive (flags fw) = true.
Proof.
  intros Hcfg Hr Hk calls. subst calls. rewrite run_warmup.
  eexists. split; [reflexivity|].
  rewrite checkProtections_sense, checkProtections_flags, !sense_on_sense.
  change (sense (boot d)) with initial.
  assert (Hadc : adc_ok (fun _ : nat => r)) by (apply adc_ok_const; unfold ADC_MAX in *; lia).
  pose proof (inv_zero_current _ initial Hadc inv_boot) as Hinv.
  pose proof (zero_offset_at_boot r Hadc) as Hz.
  assert (Hi : iSenseVADC (senseCurrent_run (repeat r (S k))
                 (senseZeroCurrent (fun _ => r) initial)) < r).
  { rewrite warmup_reading; try apply Hinv; rewrite ?(inv_window _ Hinv); try lia.
    - change (Z.of_nat 16) with 16. apply Z.quot_lt_upper_bound; nia.
    - now rewrite zero_current_keeps_filter. }
  rewrite senseCurrent_run_zero, Hz. split; [reflexivity|]. split; [exact Hi|].
  unfold table_flags, flag, rule_mdd. cbn [mddActive fst]. rewrite Hcfg.
  rewrite senseCurrent_run_zero, Hz. now apply Z.ltb_lt.
Qed.

End Claims.

(** ** The theorems at concrete inputs, on the 16-bit target *)

(** A start-up sequence: two probes, the zero offset at 34 counts, one
    voltage and one current reading, the power, the protections and the
    tracker. *)
Definition startup_calls : list Call :=
  [ConfigureTempSensors 2; SenseTemperatures probe_ramp;
   SenseZeroCurrent (fun _ => 34); SenseVoltage (fun _ => 700); SenseCurrent 500;
   SensePower; CheckProtections; TrackMPPT].

Definition after_startup : Firmware :=
  state_of (run_calls all_enabled startup_calls (boot 100)).

(** Three probes on the bus. *)
Definition three_probes : Firmware :=
  state_of (run_calls all_enabled [ConfigureTempSensors 3] (boot 100)).

Lemma in_int_100 : in_int 100.
Proof. apply small_in_int. lia. Qed.

Lemma startup_calls_ok : Forall call_ok startup_calls.
Proof.
  repeat constructor; try (apply adc_ok_const; lia); simpl; unfold ADC_MAX; lia.
Qed.

Lemma after_startup_reachable : reachable all_enabled 100 after_startup.
Proof.
  apply (run_calls_reachable all_enabled 100 startup_calls (boot 100));
    [constructor | apply startup_calls_ok | vm_compute; reflexivity].
Qed.

Lemma three_probes_reachable : reachable all_enabled 100 three_probes.
Proof.
  apply (run_calls_reachable all_enabled 100 [ConfigureTempSensors 3] (boot 100));
    [constructor | repeat constructor; simpl; lia | reflexivity].
Qed.

Lemma reachable_ranges_witness :
  0 <= vSenseADC (sense after_startup) <= 1278 /\ in_int (duty after_startup).
Proof.
  destruct (reachable_ranges all_enabled 100 after_startup in_int_100
              after_startup_reachable) as (_ & _ & _ & _ & _ & _ & Hv & _ & _ & _ & _ & Hd).
  exact (conj Hv Hd).
Defined.

Lemma decrease_unreachable_witness :
  snd (trackMPPT (sense after_startup)) <> DecreasePWM.
Proof.
  apply (decrease_unreachable all_enabled 100 after_startup in_int_100
           after_startup_reachable).
Defined.

Lemma only_temperature_faults_witness :
  is_ok (run_call all_enabled (SenseTemperatures probe_ramp) three_probes) = false /\
  is_ok (run_call all_enabled (SenseTemperatures probe_ramp) after_startup) = true.
Proof.
  split.
  - apply (only_temperature_faults all_enabled 100 three_probes _ in_int_100
             three_probes_reachable).
    exists probe_ramp. split; [reflexivity | simpl; lia].
  - apply not_false_iff_true. intros E.
    apply (only_temperature_faults all_enabled 100 after_startup _ in_int_100
             after_startup_reachable) in E as (probe & _ & Hgt).
    vm_compute in Hgt. discriminate.
Defined.

Lemma warmup_trips_minimum_duty_witness :
  exists fw,
    run_calls all_enabled
      [SenseZeroCurrent (fun _ => 34); SenseCurrent 34; CheckProtections] (boot 100)
    = Ok fw /\ mddActive (flags fw) = true.
Proof.
  destruct (warmup_trips_minimum_duty all_enabled 34 0 100) as (fw & E & _ & _ & H);
    [reflexivity | unfold ADC_MAX; lia | lia |].
  exists fw. split; [exact E | exact H].
Defined.
