(* ===== verification/Control.v ===== *)
(** * Control: what the duty cycle depends on

    The firmware keeps two kinds of values: the integers the converter
    and the counters give (the readings [iSenseVADC], [vSenseADC] and
    [zeroISenseVADC], the filter, the counters, the flags, [duty]) and the
    calibrated 'float' values computed from them ([current], [voltage],
    [power], the power history [powerA], [mx], the temperatures).

    [same_control] relates two states that agree on the integers and may
    differ in every calibrated value; of the temperature array only the
    length is compared.  It is an equivalence, every entry point is a
    morphism for it ([Proper] instances), and so is any sequence of
    calls: the calibrated values are outputs only.  No comparison of
    [checkProtections] reads them, and nothing that [trackMPPT] computes
    reaches [duty]. *)

From Stdlib Require Import ZArith QArith Lia Bool Morphisms RelationClasses.
From stdpp Require Import base list.
From S2P Require Import Prelude MachInt Rational RunningAverage Sense Current.
From S2P Require Import Temperature Mppt Protections Firmware.

#[local] Open Scope Z_scope.

(** The integers of the globals: the calibrated values are erased, and of
    the temperature array the length is kept. *)
Definition erase (g : Globals) : Globals :=
  mkGlobals (deviceCount g) (repeat 0%Q (length (tempC g))) (senseSamples g)
    (avgCount g) (sumCounter g) (zeroISenseVADC g) (iSenseVADC g) 0%Q
    (vSenseADC g) 0%Q 0%Q [] 0%Q (movAvgCurrent g).

Definition same_ints (g g' : Globals) : Prop := erase g = erase g'.

Definition same_control (fw fw' : Firmware) : Prop :=
  same_ints (sense fw) (sense fw') /\ flags fw = flags fw' /\ duty fw = duty fw'.

(** Two results agree when both return, or both fault at the same index,
    in states that agree. *)
Inductive same_result {A : Type} (R : relation A) : relation (result A) :=
  | same_ok (a b : A) : R a b -> same_result R (Ok a) (Ok b)
  | same_fault (e : fault) (a b : A) : R a b -> same_result R (Fault e a) (Fault e b).

(** Two calls agree when they are the same call, or two readings of the
    temperature probes, whatever the probes return. *)
Definition same_call (c c' : Call) : Prop :=
  match c, c' with
  | SenseTemperatures _, SenseTemperatures _ => True
  | _, _ => c = c'
  end.

(** ** The relations are equivalences *)

#[export] Instance same_ints_equiv : Equivalence same_ints.
Proof.
  split; unfold same_ints; [intros g | intros g g' | intros g g' g'']; congruence.
Qed.

#[export] Instance same_control_equiv : Equivalence same_control.
Proof.
  split; unfold same_control.
  - intros fw. now split.
  - intros fw fw' (Hs & Hf & Hd). now split.
  - intros fw fw' fw'' (Hs & Hf & Hd) (Hs' & Hf' & Hd').
    split; [now transitivity (sense fw') | split; congruence].
Qed.

#[export] Instance same_call_refl : Reflexive same_call.
Proof. intros []; exact I || reflexivity. Qed.

(** ** What agreeing states share *)

Lemma same_ints_fields (g g' : Globals) :
  same_ints g g' ->
  deviceCount g = deviceCount g' /\ senseSamples g = senseSamples g' /\
  length (tempC g) = length (tempC g') /\ iSenseVADC g = iSenseVADC g' /\
  zeroISenseVADC g = zeroISenseVADC g' /\ vSenseADC g = vSenseADC g'.
Proof.
  intros H. unfold same_ints, erase in H. injection H as H1 H2 H3 _ _ H6 H7 H8 _.
  apply (f_equal (@length Q)) in H2. rewrite !repeat_length in H2. auto 10.
Qed.

(** An entry point that commutes with [erase] respects the relation. *)
Lemma respects_erase (op : Globals -> Globals) :
  (forall g, erase (op g) = erase (op (erase g))) ->
  Proper (same_ints ==> same_ints) op.
Proof.
  intros Hop g g' H. unfold same_ints in *. now rewrite Hop, H, <- Hop.
Qed.

(** Two states with the same integers have the same erasure. *)
Lemma erase_eq (g g' : Globals) :
  deviceCount g = deviceCount g' -> length (tempC g) = length (tempC g') ->
  senseSamples g = senseSamples g' -> avgCount g = avgCount g' ->
  sumCounter g = sumCounter g' -> zeroISenseVADC g = zeroISenseVADC g' ->
  iSenseVADC g = iSenseVADC g' -> vSenseADC g = vSenseADC g' ->
  movAvgCurrent g = movAvgCurrent g' -> erase g = erase g'.
Proof. intros. unfold erase. congruence. Qed.

(** An entry point made of assignments: field by field. *)
Ltac by_fields :=
  apply erase_eq;
  cbn [deviceCount tempC senseSamples avgCount sumCounter zeroISenseVADC iSenseVADC
       vSenseADC movAvgCurrent erase set_senseSamples set_sumCounter set_zeroISenseVADC
       set_iSenseVADC set_current set_vSenseADC set_voltage set_power set_mx
       set_movAvgCurrent set_deviceCount set_tempC];
  rewrite ?repeat_length; reflexivity.

(** Writing the temperature array changes no integer. *)
Lemma erase_set_tempC (l : list Q) (g : Globals) :
  length l = length (tempC g) -> erase (set_tempC l g) = erase g.
Proof. intros Hl. unfold erase, set_tempC. cbn. now rewrite Hl. Qed.

(** ** Every entry point respects the relation *)

Section Respect.
Context {T : Target}.

#[export] Instance set_senseSamples_respects (v : Z) :
  Proper (same_ints ==> same_ints) (set_senseSamples v).
Proof. apply respects_erase. intros g. by_fields. Qed.

#[export] Instance configureTempSensors_respects (count : Z) :
  Proper (same_ints ==> same_ints) (configureTempSensors count).
Proof. apply respects_erase. intros g. unfold configureTempSensors. by_fields. Qed.

#[export] Instance senseZeroCurrent_respects (adc : nat -> Z) :
  Proper (same_ints ==> same_ints) (senseZeroCurrent adc).
Proof.
  apply respects_erase. intros g. rewrite !senseZeroCurrent_closed. by_fields.
Qed.

#[export] Instance senseVoltage_respects (adc : nat -> Z) :
  Proper (same_ints ==> same_ints) (senseVoltage adc).
Proof.
  apply respects_erase. intros g. rewrite !senseVoltage_closed. by_fields.
Qed.

#[export] Instance senseCurrent_respects (raw : Z) :
  Proper (same_ints ==> same_ints) (senseCurrent raw).
Proof.
  apply respects_erase. intros g.
  destruct (Z.eq_dec (uint_incr (sumCounter g)) RESYNC_AT) as [E|E].
  - rewrite (senseCurrent_full raw g E), (senseCurrent_full raw (erase g) E).
    unfold store_reading. by_fields.
  - rewrite (senseCurrent_fast raw g E), (senseCurrent_fast raw (erase g) E).
    unfold store_reading. by_fields.
Qed.

#[export] Instance sensePower_respects : Proper (same_ints ==> same_ints) sensePower.
Proof. apply respects_erase. intros g. unfold sensePower. by_fields. Qed.

#[export] Instance trackMPPT_respects :
  Proper (same_ints ==> same_ints) (fun g => fst (trackMPPT g)).
Proof. apply respects_erase. intros g. unfold trackMPPT. cbn [fst]. by_fields. Qed.

(** A write to the temperature array returns or faults by the index and
    the length alone, whatever is written. *)
Lemma write_tempC_respects (i : Z) (v v' : Q) (g g' : Globals) :
  same_ints g g' -> same_result same_ints (write_tempC i v g) (write_tempC i v' g').
Proof.
  intros H. destruct (same_ints_fields g g' H) as (_ & _ & Hl & _).
  unfold write_tempC. rewrite <- Hl.
  destruct ((0 <=? i) && (i <? Z.of_nat (length (tempC g)))); constructor; [|exact H].
  unfold same_ints. rewrite !erase_set_tempC by now rewrite length_insert. exact H.
Qed.

(** The checked loop, for bodies that respect the relation. *)
Lemma checked_loop_respects (bound : Z) (body body' : Globals -> result Globals) :
  (forall g g', same_ints g g' -> same_result same_ints (body g) (body' g')) ->
  forall fuel g g', same_ints g g' ->
  same_result same_ints (for_senseSamples_checked fuel bound body g)
    (for_senseSamples_checked fuel bound body' g').
Proof.
  intros Hbody. induction fuel as [|fuel IH]; intros g g' H; [now constructor|].
  cbn [for_senseSamples_checked].
  destruct (same_ints_fields g g' H) as (_ & <- & _).
  destruct (senseSamples g <? bound); [|now constructor].
  destruct (Hbody g g' H) as [a b Hab | e a b Hab]; cbn [bind]; [|now constructor].
  destruct (same_ints_fields a b Hab) as (_ & <- & _).
  now apply IH, set_senseSamples_respects.
Qed.

(** Reading the probes: the values read do not matter. *)
Lemma senseTemperatures_respects (probe probe' : Z -> Q) (g g' : Globals) :
  same_ints g g' ->
  same_result same_ints (senseTemperatures probe g) (senseTemperatures probe' g').
Proof.
  intros H. unfold senseTemperatures.
  destruct (same_ints_fields g g' H) as (<- & _).
  apply checked_loop_respects; [|now apply set_senseSamples_respects].
  intros a b Hab. unfold read_probe.
  destruct (same_ints_fields a b Hab) as (_ & <- & _). now apply write_tempC_respects.
Qed.

Variable cfg : Config.

(** The rules read the three integer readings only. *)
#[export] Instance checkProtections_respects :
  Proper (same_control ==> same_control) (checkProtections cfg).
Proof.
  intros fw fw' (Hs & Hf & Hd). rewrite !checkProtections_blocks.
  destruct (same_ints_fields _ _ Hs) as (_ & _ & _ & Hi & Hz & Hv).
  unfold same_control, table_flags, rule_mdd, rule_ocp, rule_ovp.
  cbn [sense flags duty]. now rewrite Hi, Hz, Hv, Hf, Hd.
Qed.

Lemma on_sense_respects (op : Globals -> Globals) (fw fw' : Firmware) :
  Proper (same_ints ==> same_ints) op -> same_control fw fw' ->
  same_control (on_sense op fw) (on_sense op fw').
Proof. intros Hop (Hs & Hf & Hd). split; [now apply Hop | now split]. Qed.

Lemma lift_respects (r r' : result Globals) (fw fw' : Firmware) :
  same_result same_ints r r' -> same_control fw fw' ->
  same_result same_control (lift r fw) (lift r' fw').
Proof.
  intros [a b Hab | e a b Hab] (_ & Hf & Hd); constructor; now split.
Qed.

Lemma run_call_respects (c c' : Call) (fw fw' : Firmware) :
  same_call c c' -> same_control fw fw' ->
  same_result same_control (run_call cfg c fw) (run_call cfg c' fw').
Proof.
  intros Hc H.
  destruct c, c'; try discriminate Hc; try (injection Hc as <-); cbn [run_call];
    try (constructor; apply on_sense_respects; [|exact H]).
  - apply configureTempSensors_respects.
  - apply lift_respects; [apply senseTemperatures_respects, H | exact H].
  - apply senseZeroCurrent_respects.
  - apply senseCurrent_respects.
  - apply senseVoltage_respects.
  - apply sensePower_respects.
  - apply trackMPPT_respects.
  - constructor. now apply checkProtections_respects.
Qed.

(** C40: the calibrated values never steer the controller.  Two runs of
    the same calls, from states that agree on the integer variables, the
    flags and [duty] and differ in any of [current], [voltage], [power],
    the power history, [mx] and the temperatures (the probes may even
    return different values in the two runs), both return or both fault at
    the same index, in states that agree again: flags and [duty] are the
    same in both. *)
Theorem control_ignores_calibrated_values (cs cs' : list Call) (fw fw' : Firmware) :
  Forall2 same_call cs cs' -> same_control fw fw' ->
  same_result same_control (run_calls cfg cs fw) (run_calls cfg cs' fw').
Proof.
  intros Hcs. revert fw fw'.
  induction Hcs as [|c c' cs cs' Hc _ IH]; intros fw fw' H; [now constructor|].
  cbn [run_calls].
  destruct (run_call_respects c c' fw fw' Hc H) as [a b Hab | e a b Hab]; cbn [bind].
  - now apply IH.
  - now constructor.
Qed.

End Respect.

(** ** The theorem at a concrete input, on the 16-bit target *)

(** Start-up with a power history that declines from a peak, a current
    of 99 A in the variable, and probes that return other values. *)
Definition other_start : Firmware :=
  mkFirmware (set_current 99 (with_history 9 0 declining)) (mkFlags false false false) 100.

Definition other_calls : list Call :=
  [ConfigureTempSensors 2; SenseTemperatures (fun _ => 85%Q);
   SenseZeroCurrent (fun _ => 34); SenseVoltage (fun _ => 700); SenseCurrent 500;
   SensePower; CheckProtections; TrackMPPT].

Lemma control_ignores_calibrated_values_witness :
  same_result same_control
    (run_calls (T := avr) all_enabled startup_calls (boot 100))
    (run_calls (T := avr) all_enabled other_calls other_start).
Proof.
  apply (control_ignores_calibrated_values (T := avr)).
  - repeat first [exact I | reflexivity | constructor].
  - now split.
Defined.
