(* ===== verification/Model.v ===== *)
(** * Model: the firmware as arithmetic on readings

    An abstract machine for the electrical path.  Its state, [Model], holds
    what the entry points compute: the zero offset, the window of the last
    readings, the filtered reading, the voltage reading, amperes, volts and
    watts, the protection flags and the duty.  Its operations are written
    with the integers of mathematics: sums and truncating divisions
    without wrap-around, the window as the last 16 elements of a list, the
    duty as an unbounded integer.  There is no loop counter, no running
    sum, no 'unsigned int' counter and no choice between two averages.

    [sim] relates a state of the firmware with a state of the machine:
    the variables agree, the invariant of the reachable states holds, and
    the 'int' [duty] is the machine's duty wrapped into the range of 'int'.
    [sim_call] is the simulation: a call of an entry point that returns
    takes related states to related states.  It follows that after any
    sequence of calls from start-up the firmware's variables are those of
    the machine ([sim_calls]), which is how the theorems on the schedule
    are proved. *)

From Stdlib Require Import ZArith QArith List Lia Bool.
From S2P Require Import Prelude MachInt Rational RunningAverage Sense Current.
From S2P Require Import Temperature Mppt Protections Firmware.
Import ListNotations.

#[local] Open Scope Z_scope.

Record Model : Type := mkModel {
  m_zero : Z;
  m_window : list Z;
  m_reading : Z;
  m_volt : Z;
  m_amps : Q;
  m_volts : Q;
  m_watts : Q;
  m_flags : Flags;
  m_duty : Z
}.

(** The machine at start-up, with the duty at [d]. *)
Definition model_boot (d : Z) : Model :=
  mkModel 0 [] 0 0 0%Q 0%Q 0%Q (mkFlags false false false) d.

(** The size of the window. *)
Definition WINDOW : nat := 16.

(** The readings the rule table looks at, as the globals it reads. *)
Definition view (m : Model) : Globals :=
  set_vSenseADC (m_volt m) (set_zeroISenseVADC (m_zero m) (set_iSenseVADC (m_reading m) initial)).

(** Five readings accumulated onto [z] and divided by five. *)
Definition average_onto (z : Z) (adc : nat -> Z) : Z := Z.quot (z + sum_readings adc 5) 5.

Definition model_zero (adc : nat -> Z) (m : Model) : Model :=
  mkModel (average_onto (m_zero m) adc) (m_window m) (m_reading m) (m_volt m)
    (m_amps m) (m_volts m) (m_watts m) (m_flags m) (m_duty m).

Definition model_voltage (adc : nat -> Z) (m : Model) : Model :=
  let v := average_onto (m_volt m) adc in
  mkModel (m_zero m) (m_window m) (m_reading m) v
    (m_amps m) (volts_of_adc v) (m_watts m) (m_flags m) (m_duty m).

Definition model_current (raw : Z) (m : Model) : Model :=
  let w := lastn WINDOW (m_window m ++ [raw]) in
  let i := window_average WINDOW w in
  mkModel (m_zero m) w i (m_volt m)
    (amps_of_adc (i - m_zero m)) (m_volts m) (m_watts m) (m_flags m) (m_duty m).

Definition model_power (m : Model) : Model :=
  mkModel (m_zero m) (m_window m) (m_reading m) (m_volt m)
    (m_amps m) (m_volts m) (m_volts m * m_amps m)%Q (m_flags m) (m_duty m).

Definition model_protections (cfg : Config) (m : Model) : Model :=
  mkModel (m_zero m) (m_window m) (m_reading m) (m_volt m)
    (m_amps m) (m_volts m) (m_watts m)
    (table_flags cfg (view m) (m_flags m)) (m_duty m + table_delta cfg (view m)).

Definition model_call (cfg : Config) (c : Call) (m : Model) : Model :=
  match c with
  | SenseZeroCurrent adc => model_zero adc m
  | SenseVoltage adc => model_voltage adc m
  | SenseCurrent raw => model_current raw m
  | SensePower => model_power m
  | CheckProtections => model_protections cfg m
  | ConfigureTempSensors _ | SenseTemperatures _ | TrackMPPT => m
  end.

Definition model_calls (cfg : Config) (cs : list Call) (m : Model) : Model :=
  fold_left (fun m' c => model_call cfg c m') cs m.

(** The number of calls of [checkProtections] in a sequence of calls. *)
Fixpoint protections_calls (cs : list Call) : Z :=
  match cs with
  | [] => 0
  | CheckProtections :: cs' => 1 + protections_calls cs'
  | _ :: cs' => protections_calls cs'
  end.

(** ** The duty of the machine *)

Lemma protections_calls_nonneg (cs : list Call) : 0 <= protections_calls cs.
Proof. induction cs as [|c cs IH]; [reflexivity|]. destruct c; simpl; lia. Qed.

(** The machine's duty moves by -2 .. 3 at each call of the protections
    and at no other call. *)
Lemma model_duty_bounds (cfg : Config) (cs : list Call) :
  forall m,
    m_duty m - 2 * protections_calls cs
    <= m_duty (model_calls cfg cs m)
    <= m_duty m + 3 * protections_calls cs.
Proof.
  induction cs as [|c cs IH]; intros m; [simpl; lia|].
  cbn [model_calls fold_left]. fold (model_calls cfg cs (model_call cfg c m)).
  specialize (IH (model_call cfg c m)).
  pose proof (table_delta_bounds cfg (view m)).
  destruct c;
    cbn [protections_calls model_call model_zero model_voltage model_current
         model_power model_protections m_duty] in *; lia.
Qed.

Section Simulation.
Context {T : Target}.

(** A state of the firmware and a state of the machine that agree. *)
Record sim (fw : Firmware) (m : Model) : Prop := mkSim {
  sim_inv : sense_inv (sense fw);
  sim_zero : zeroISenseVADC (sense fw) = m_zero m;
  sim_window : ra_ring (movAvgCurrent (sense fw)) = m_window m;
  sim_reading : iSenseVADC (sense fw) = m_reading m;
  sim_volt : vSenseADC (sense fw) = m_volt m;
  sim_amps : current (sense fw) = m_amps m;
  sim_volts : voltage (sense fw) = m_volts m;
  sim_watts : power (sense fw) = m_watts m;
  sim_flags : flags fw = m_flags m;
  sim_duty : duty fw = wrapS (m_duty m)
}.

(** The rule table reads three variables only. *)
Lemma table_flags_view (cfg : Config) (g g' : Globals) (old : Flags) :
  iSenseVADC g = iSenseVADC g' -> zeroISenseVADC g = zeroISenseVADC g' ->
  vSenseADC g = vSenseADC g' -> table_flags cfg g old = table_flags cfg g' old.
Proof.
  intros Ei Ez Ev. unfold table_flags, rule_mdd, rule_ocp, rule_ovp.
  now rewrite Ei, Ez, Ev.
Qed.

Lemma table_delta_view (cfg : Config) (g g' : Globals) :
  iSenseVADC g = iSenseVADC g' -> zeroISenseVADC g = zeroISenseVADC g' ->
  vSenseADC g = vSenseADC g' -> table_delta cfg g = table_delta cfg g'.
Proof.
  intros Ei Ez Ev. unfold table_delta, rule_mdd, rule_ocp, rule_ovp.
  now rewrite Ei, Ez, Ev.
Qed.

Lemma sim_boot (d : Z) : in_int d -> sim (boot d) (model_boot d).
Proof.
  intros Hd. constructor; try reflexivity; [apply inv_boot|].
  cbn [duty boot model_boot m_duty]. now rewrite wrapS_id.
Qed.

End Simulation.

(** Projections of the machine through its operations. *)
Ltac model_simpl :=
  cbn [m_zero m_window m_reading m_volt m_amps m_volts m_watts m_flags m_duty
       model_zero model_voltage model_current model_power model_protections] in *.

(** The fields of [sim] after a call with the closed form [L]. *)
Ltac sim_fields L :=
  constructor; [assumption | ..];
  cbn [sense flags duty on_sense]; model_simpl; rewrite ?L; sense_simpl;
  try assumption.

(** ** The simulation, entry point by entry point *)

Section Calls.
Context {T : Target}.
Variable cfg : Config.

Lemma sim_zero_call (adc : nat -> Z) (fw : Firmware) (m : Model) :
  adc_ok adc -> sim fw m -> sim (on_sense (senseZeroCurrent adc) fw) (model_zero adc m).
Proof.
  intros Ha [Hinv Hz Hw Hi Hv Hc Hvs Hws Hf Hd].
  pose proof (inv_zero_current adc _ Ha Hinv) as Hinv'.
  destruct (average5_exact adc _ Ha (inv_zero _ Hinv)) as [E _].
  sim_fields senseZeroCurrent_closed. now rewrite E, Hz.
Qed.

Lemma sim_voltage_call (adc : nat -> Z) (fw : Firmware) (m : Model) :
  adc_ok adc -> sim fw m -> sim (on_sense (senseVoltage adc) fw) (model_voltage adc m).
Proof.
  intros Ha [Hinv Hz Hw Hi Hv Hc Hvs Hws Hf Hd].
  pose proof (inv_voltage adc _ Ha Hinv) as Hinv'.
  destruct (average5_exact adc _ Ha (inv_volt _ Hinv)) as [E _].
  sim_fields senseVoltage_closed; now rewrite E, Hv.
Qed.

Lemma sim_current_call (raw : Z) (fw : Firmware) (m : Model) :
  0 <= raw <= ADC_MAX -> sim fw m ->
  sim (on_sense (senseCurrent raw) fw) (model_current raw m).
Proof.
  intros Hr [Hinv Hz Hw Hi Hv Hc Hvs Hws Hf Hd].
  pose proof (inv_current_call raw _ Hr Hinv) as Hinv'.
  destruct (senseCurrent_window raw _ (inv_current _ Hinv) Hr) as (Ef & _ & _ & Ei & Hb).
  assert (Ew : ra_ring (movAvgCurrent (senseCurrent raw (sense fw)))
               = lastn WINDOW (m_window m ++ [raw])).
  { rewrite Ef, addValue_ring, (inv_window _ Hinv), Hw by apply Hinv. reflexivity. }
  assert (Ei' : iSenseVADC (senseCurrent raw (sense fw))
                = window_average WINDOW (lastn WINDOW (m_window m ++ [raw]))).
  { rewrite Ei, Ew, Ef, addValue_size, (inv_window _ Hinv). reflexivity. }
  destruct (senseCurrent_frame raw (sense fw)) as (Fv & Fvs & Fw & _).
  constructor; cbn [sense on_sense flags duty]; model_simpl;
    rewrite ?senseCurrent_zero, ?Fv, ?Fvs, ?Fw; try assumption.
  rewrite senseCurrent_current, Ei', <- Hz, int_sub_exact; [reflexivity|].
  rewrite <- Ei', Ei. pose proof (inv_zero _ Hinv). unfold ADC_MAX in *. in_range.
Qed.

Lemma sim_power_call (fw : Firmware) (m : Model) :
  sim fw m -> sim (on_sense sensePower fw) (model_power m).
Proof.
  intros [Hinv Hz Hw Hi Hv Hc Hvs Hws Hf Hd].
  pose proof (inv_power _ Hinv) as Hinv'.
  constructor; [assumption | ..]; sense_simpl; model_simpl; try assumption.
  now rewrite Hc, Hvs.
Qed.

Lemma sim_protections_call (fw : Firmware) (m : Model) :
  sim fw m -> sim (checkProtections cfg fw) (model_protections cfg m).
Proof.
  intros [Hinv Hz Hw Hi Hv Hc Hvs Hws Hf Hd].
  assert (Hduty : in_int (duty fw)) by (rewrite Hd; apply wrapS_in_int).
  constructor; rewrite ?checkProtections_sense, ?checkProtections_flags,
    ?checkProtections_duty by assumption; model_simpl; try assumption.
  - rewrite Hf. now apply table_flags_view.
  - rewrite Hd, wrapS_add_l. f_equal. f_equal. now apply table_delta_view.
Qed.

(** A call that writes none of the machine's variables. *)
Lemma sim_frame (fw : Firmware) (g' : Globals) (m : Model) :
  sense_inv g' ->
  zeroISenseVADC g' = zeroISenseVADC (sense fw) ->
  movAvgCurrent g' = movAvgCurrent (sense fw) ->
  iSenseVADC g' = iSenseVADC (sense fw) -> vSenseADC g' = vSenseADC (sense fw) ->
  current g' = current (sense fw) -> voltage g' = voltage (sense fw) ->
  power g' = power (sense fw) ->
  sim fw m -> sim (mkFirmware g' (flags fw) (duty fw)) m.
Proof.
  intros Hinv' Ez Ef Ei Ev Ec Evs Ews [Hinv Hz Hw Hi Hv Hc Hvs Hws Hf Hd].
  constructor; cbn [sense flags duty]; rewrite ?Ez, ?Ef, ?Ei, ?Ev, ?Ec, ?Evs, ?Ews;
    assumption.
Qed.

(** The simulation: a call that returns takes related states to related
    states. *)
Lemma sim_call (c : Call) (fw fw' : Firmware) (m : Model) :
  call_ok c -> run_call cfg c fw = Ok fw' -> sim fw m -> sim fw' (model_call cfg c m).
Proof.
  intros Hok E Hs. pose proof (sim_inv _ _ Hs) as Hinv.
  destruct c; cbn [run_call call_ok model_call] in *.
  2: { unfold lift in E. destruct (senseTemperatures probe (sense fw)) as [g'|] eqn:E';
         [injection E as <- | discriminate].
       pose proof (inv_temperatures _ _ _ E' Hinv) as Hinv'.
       apply senseTemperatures_returns in E';
         [|apply Hinv | rewrite (inv_temp _ Hinv); simpl; lia].
       subst g'. now apply sim_frame. }
  all: injection E as <-.
  - apply sim_frame; auto with fw.
  - now apply sim_zero_call.
  - now apply sim_current_call.
  - now apply sim_voltage_call.
  - now apply sim_power_call.
  - apply sim_frame; auto. now apply (inv_mppt (sense fw)).
  - now apply sim_protections_call.
Qed.

Lemma sim_calls (cs : list Call) :
  forall (fw fw' : Firmware) (m : Model),
    Forall call_ok cs -> run_calls cfg cs fw = Ok fw' -> sim fw m ->
    sim fw' (model_calls cfg cs m).
Proof.
  induction cs as [|c cs IH]; intros fw fw' m Hok E Hs.
  - now injection E as <-.
  - apply Forall_cons_iff in Hok as [Hc Hok]. cbn [run_calls] in E.
    destruct (run_call cfg c fw) as [fw1|] eqn:E1; [|discriminate].
    apply (IH fw1); [exact Hok | exact E | now apply (sim_call c fw)].
Qed.

(** C33: the firmware implements the machine.  After any sequence of
    calls from start-up that returns, with readings of the converter, the
    zero offset, the window, the filtered reading, the voltage reading,
    the amperes, volts and watts and the flags are those the machine
    computes with unbounded integers, and [duty] is the machine's duty
    wrapped into the range of 'int'. *)
Theorem firmware_refines_model (d : Z) (cs : list Call) (fw : Firmware) :
  in_int d -> Forall call_ok cs -> run_calls cfg cs (boot d) = Ok fw ->
  let m := model_calls cfg cs (model_boot d) in
  zeroISenseVADC (sense fw) = m_zero m /\
  ra_ring (movAvgCurrent (sense fw)) = m_window m /\
  iSenseVADC (sense fw) = m_reading m /\ vSenseADC (sense fw) = m_volt m /\
  current (sense fw) = m_amps m /\ voltage (sense fw) = m_volts m /\
  power (sense fw) = m_watts m /\
  flags fw = m_flags m /\ duty fw = wrapS (m_duty m).
Proof.
  intros Hd Hok E m.
  destruct (sim_calls cs (boot d) fw (model_boot d) Hok E (sim_boot d Hd))
    as [_ Hz Hw Hi Hv Hc Hvs Hws Hf Hdu].
  exact (conj Hz (conj Hw (conj Hi (conj Hv (conj Hc (conj Hvs (conj Hws
    (conj Hf Hdu)))))))).
Qed.

(** C37: how far [duty] can drift.  After a sequence of calls from
    start-up that holds [k] calls of [checkProtections], [duty] is within
    [d - 2 k .. d + 3 k], provided that interval is in the range of
    'int': until then no update of [duty] wraps. *)
Theorem duty_within_calls (d : Z) (cs : list Call) (fw : Firmware) :
  in_int d -> Forall call_ok cs -> run_calls cfg cs (boot d) = Ok fw ->
  in_int (d - 2 * protections_calls cs) -> in_int (d + 3 * protections_calls cs) ->
  d - 2 * protections_calls cs <= duty fw <= d + 3 * protections_calls cs.
Proof.
  intros Hd Hok E Hlo Hhi.
  pose proof (sim_duty _ _ (sim_calls cs (boot d) fw (model_boot d) Hok E (sim_boot d Hd)))
    as Hduty.
  pose proof (model_duty_bounds cfg cs (model_boot d)) as Hb.
  cbn [model_boot m_duty] in Hb.
  rewrite Hduty, wrapS_id; [exact Hb|]. unfold in_int in *. lia.
Qed.

End Calls.

(** ** The theorem at a concrete input, on the 16-bit target *)

Lemma firmware_refines_model_witness :
  vSenseADC (sense after_startup) = 700 /\
  (power (sense after_startup) == (7 # 160) * 700 * ((195 # 2048) * (31 - 34)))%Q /\
  duty after_startup = 101.
Proof.
  destruct (firmware_refines_model all_enabled 100 startup_calls after_startup
              in_int_100 startup_calls_ok) as (_ & _ & _ & Hv & _ & _ & Hw & _ & Hd);
    [vm_compute; reflexivity|].
  rewrite Hv, Hw, Hd. vm_compute. repeat split.
Defined.

Lemma duty_within_calls_witness : 98 <= duty after_startup <= 103.
Proof.
  apply (duty_within_calls all_enabled 100 startup_calls after_startup in_int_100
           startup_calls_ok); [vm_compute; reflexivity | |]; apply small_in_int;
    vm_compute; split; discriminate.
Defined.
