(* ===== verification/Schedule.v ===== *)
(** * Schedule: the periodic tasks and the control loop

    sense.cpp declares four timers, [tempUpdate(1000)], [iSenseUpdate(1)],
    [vSenseUpdate(10)] and [pSenseUpdate(100)] (lines 41-48).  The class
    of the timers and the loop that polls them are outside the sources;
    they are modelled from the specification (sections 5 and 6): a timer
    is due when its period has elapsed since its last run, and polling a
    due timer restarts it; one pass of the loop polls the four timers in
    the order of their declaration, runs the entry point of each one that
    is due, and then runs the protections and the power tracker, in that
    order.  Time is an integer number of milliseconds and the loop makes
    one pass per millisecond.

    [tick_calls] is one pass on the timers; [calls_at] is the same pass
    without timers, from the time alone.  [tick_calls_at] shows that they
    agree, so that a run of the loop is a sequence of calls that depends
    on the time only ([schedule]).  With [Model] this gives the state of
    the firmware after any number of passes.

    [loop_calls] is the trace of the loop: the calls that [n] passes make
    by polling the timers.  [run_ticks_calls] shows that the loop runs
    that trace, and [loop_calls_schedule] that the trace is [schedule].

    The theorems: the loop returns at every pass when at most two probes
    are connected; the number of calls of each task in the trace of [n]
    passes of the polling loop; and the readings
    and the power the firmware holds after a period of the slowest
    electrical task at constant inputs. *)

From Stdlib Require Import ZArith QArith List Lia Bool.
From S2P Require Import Prelude MachInt Rational RunningAverage Sense Current.
From S2P Require Import Temperature Mppt Protections Firmware Model.
Import ListNotations.

#[local] Open Scope Z_scope.

(** A timer: its period and the time of its last run. *)
Record Task : Type := mkTask {
  period : Z;
  last_run : Z
}.

(** Whether the timer is due at [now]; a due timer restarts. *)
Definition poll (now : Z) (t : Task) : bool * Task :=
  if period t <=? now - last_run t then (true, mkTask (period t) now) else (false, t).

(** The four timers of sense.cpp. *)
Record Timers : Type := mkTimers {
  tempUpdate : Task;
  iSenseUpdate : Task;
  vSenseUpdate : Task;
  pSenseUpdate : Task
}.

Definition TEMP_PERIOD : Z := 1000.
Definition ISENSE_PERIOD : Z := 1.
Definition VSENSE_PERIOD : Z := 10.
Definition PSENSE_PERIOD : Z := 100.

Definition timers_boot : Timers :=
  mkTimers (mkTask TEMP_PERIOD 0) (mkTask ISENSE_PERIOD 0)
           (mkTask VSENSE_PERIOD 0) (mkTask PSENSE_PERIOD 0).

(** What the hardware returns during one pass. *)
Record Inputs : Type := mkInputs {
  in_probe : Z -> Q;
  in_current : Z;
  in_voltage : nat -> Z
}.

Definition inputs_ok (i : Inputs) : Prop :=
  0 <= in_current i <= ADC_MAX /\ adc_ok (in_voltage i).

(** The calls of a pass, given which timers are due. *)
Definition pass (dt di dv dp : bool) (inp : Inputs) : list Call :=
  (if dt then [SenseTemperatures (in_probe inp)] else []) ++
  (if di then [SenseCurrent (in_current inp)] else []) ++
  (if dv then [SenseVoltage (in_voltage inp)] else []) ++
  (if dp then [SensePower] else []) ++
  [CheckProtections; TrackMPPT].

(** One pass of the loop on the timers. *)
Definition tick_calls (now : Z) (inp : Inputs) (tm : Timers) : list Call * Timers :=
  let (dt, t1) := poll now (tempUpdate tm) in
  let (di, t2) := poll now (iSenseUpdate tm) in
  let (dv, t3) := poll now (vSenseUpdate tm) in
  let (dp, t4) := poll now (pSenseUpdate tm) in
  (pass dt di dv dp inp, mkTimers t1 t2 t3 t4).

(** A timer of period [p] is due at the multiples of [p]. *)
Definition due_at (now p : Z) : bool := now mod p =? 0.

(** The timer of period [p] at time [now], polled every millisecond. *)
Definition task_at (p now : Z) : Task := mkTask p (p * (now / p)).

Definition timers_at (now : Z) : Timers :=
  mkTimers (task_at TEMP_PERIOD now) (task_at ISENSE_PERIOD now)
           (task_at VSENSE_PERIOD now) (task_at PSENSE_PERIOD now).

(** The calls of the pass at time [now]. *)
Definition calls_at (now : Z) (inp : Inputs) : list Call :=
  pass (due_at now TEMP_PERIOD) (due_at now ISENSE_PERIOD)
       (due_at now VSENSE_PERIOD) (due_at now PSENSE_PERIOD) inp.

(** The calls of the passes at times [from + 1], ..., [from + n]. *)
Fixpoint schedule (env : Z -> Inputs) (n : nat) (from : Z) : list Call :=
  match n with
  | O => []
  | S n' => calls_at (from + 1) (env (from + 1)) ++ schedule env n' (from + 1)
  end.

(** The calls the loop makes in [n] passes after time [now], by polling
    the timers [tm]: the trace of the loop. *)
Fixpoint loop_calls (env : Z -> Inputs) (n : nat) (now : Z) (tm : Timers) : list Call :=
  match n with
  | O => []
  | S n' =>
      fst (tick_calls (now + 1) (env (now + 1)) tm)
      ++ loop_calls env n' (now + 1) (snd (tick_calls (now + 1) (env (now + 1)) tm))
  end.

(** The firmware a run of the loop leaves, without the timers. *)
Definition firmware_of (r : result (Timers * Firmware)) : result Firmware :=
  match r with
  | Ok st => Ok (snd st)
  | Fault e st => Fault e (snd st)
  end.

Section Loop.
Context {T : Target}.
Variable cfg : Config.

(** One pass of the loop on the whole state. *)
Definition tick (now : Z) (inp : Inputs) (st : Timers * Firmware)
    : result (Timers * Firmware) :=
  let (cs, tm') := tick_calls now inp (fst st) in
  match run_calls cfg cs (snd st) with
  | Ok fw' => Ok (tm', fw')
  | Fault e fw' => Fault e (tm', fw')
  end.

(** [n] passes, at the times [now + 1], ..., [now + n]. *)
Fixpoint run_ticks (env : Z -> Inputs) (n : nat) (now : Z) (st : Timers * Firmware)
    : result (Timers * Firmware) :=
  match n with
  | O => Ok st
  | S n' => bind (tick (now + 1) (env (now + 1)) st) (run_ticks env n' (now + 1))
  end.

End Loop.

(** ** Timers and times *)

Lemma poll_task_at (p now : Z) :
  0 < p -> 0 <= now ->
  poll (now + 1) (task_at p now) = (due_at (now + 1) p, task_at p (now + 1)).
Proof.
  intros Hp Hn. unfold poll, task_at, due_at. cbn [period last_run].
  pose proof (Z.div_mod now p ltac:(lia)) as E.
  pose proof (Z.mod_pos_bound now p Hp) as B.
  pose proof (Z.div_mod (now + 1) p ltac:(lia)) as E1.
  pose proof (Z.mod_pos_bound (now + 1) p Hp) as B1.
  assert (Hq : (now + 1) / p = now / p \/ (now + 1) / p = now / p + 1) by nia.
  destruct (Z.leb_spec p (now + 1 - p * (now / p)));
    destruct (Z.eqb_spec ((now + 1) mod p) 0); try (f_equal; f_equal; nia); exfalso; nia.
Qed.

Lemma tick_calls_at (now : Z) (inp : Inputs) :
  0 <= now ->
  tick_calls (now + 1) inp (timers_at now) = (calls_at (now + 1) inp, timers_at (now + 1)).
Proof.
  intros Hn. unfold tick_calls, timers_at, calls_at.
  cbn [tempUpdate iSenseUpdate vSenseUpdate pSenseUpdate].
  now rewrite !poll_task_at by (unfold TEMP_PERIOD, ISENSE_PERIOD, VSENSE_PERIOD,
                                  PSENSE_PERIOD; lia).
Qed.

Lemma timers_boot_at : timers_boot = timers_at 0.
Proof. reflexivity. Qed.

Lemma due_at_1 (now : Z) : due_at now ISENSE_PERIOD = true.
Proof. unfold due_at, ISENSE_PERIOD. now rewrite Z.mod_1_r. Qed.

(** The quotient of the time by a period steps at the times the timer is
    due. *)
Lemma div_succ_due (p now : Z) :
  0 < p -> 0 <= now ->
  (now + 1) / p = now / p + (if due_at (now + 1) p then 1 else 0).
Proof.
  intros Hp Hn. unfold due_at.
  pose proof (Z.div_mod now p ltac:(lia)) as E.
  pose proof (Z.mod_pos_bound now p Hp) as B.
  pose proof (Z.div_mod (now + 1) p ltac:(lia)) as E1.
  pose proof (Z.mod_pos_bound (now + 1) p Hp) as B1.
  destruct (Z.eqb_spec ((now + 1) mod p) 0); nia.
Qed.

(** ** The loop as a sequence of calls *)

Lemma pass_ok (dt di dv dp : bool) (inp : Inputs) :
  inputs_ok inp ->
  Forall (fun c => call_ok c /\ loop_call c = true) (pass dt di dv dp inp).
Proof.
  intros [Hc Hv]. unfold pass.
  destruct dt, di, dv, dp; cbn [app];
    repeat first [assumption | exact I | reflexivity | constructor].
Qed.

Lemma schedule_ok (env : Z -> Inputs) (n : nat) :
  (forall k, inputs_ok (env k)) ->
  forall from, Forall (fun c => call_ok c /\ loop_call c = true) (schedule env n from).
Proof.
  intros He. induction n as [|n IH]; intros from; [constructor|].
  cbn [schedule]. apply Forall_app. split; [now apply pass_ok | apply IH].
Qed.

Lemma schedule_app (env : Z -> Inputs) (n1 n2 : nat) (from : Z) :
  schedule env (n1 + n2) from
  = schedule env n1 from ++ schedule env n2 (from + Z.of_nat n1).
Proof.
  revert from. induction n1 as [|n1 IH]; intros from.
  - cbn [schedule Nat.add app]. f_equal. lia.
  - cbn [schedule Nat.add]. rewrite IH, <- app_assoc.
    now replace (from + Z.of_nat (S n1)) with (from + 1 + Z.of_nat n1) by lia.
Qed.

Section Runs.
Context {T : Target}.
Variable cfg : Config.

(** The states the loop runs on: the invariant holds and at most two
    probes were counted. *)
Definition ready (fw : Firmware) : Prop :=
  sense_inv (sense fw) /\ deviceCount (sense fw) <= 2 /\ in_int (duty fw).

(** A sequence of calls of the loop returns, in a state the loop can run
    on. *)
Lemma loop_calls_return (cs : list Call) :
  Forall (fun c => call_ok c /\ loop_call c = true) cs ->
  forall fw, ready fw -> exists fw', run_calls cfg cs fw = Ok fw' /\ ready fw'.
Proof.
  induction 1 as [|c cs [Hok Hl] _ IH]; intros fw (Hs & Hd & Hi); [now exists fw|].
  destruct (run_call_returns cfg c fw Hs Hd) as (fw1 & E1).
  assert (Hstep : step cfg fw c fw1) by now constructor.
  destruct (step_preserves cfg fw c fw1 Hstep (conj Hs Hi)) as [Hs1 Hi1].
  destruct (IH fw1) as (fw' & E & Hr).
  { split; [exact Hs1|]. split; [|exact Hi1].
    now rewrite (loop_call_count cfg c fw fw1). }
  exists fw'. cbn [run_calls]. rewrite E1. cbn [bind]. auto.
Qed.

Lemma tick_at (now : Z) (inp : Inputs) (fw fw' : Firmware) :
  0 <= now -> run_calls cfg (calls_at (now + 1) inp) fw = Ok fw' ->
  tick cfg (now + 1) inp (timers_at now, fw) = Ok (timers_at (now + 1), fw').
Proof.
  intros Hn E. unfold tick. cbn [fst snd]. now rewrite tick_calls_at, E.
Qed.

(** The loop is the schedule: [n] passes from time [now] make the calls
    of [schedule] and leave the timers as they are at [now + n]. *)
Lemma run_ticks_schedule (env : Z -> Inputs) (n : nat) :
  forall now fw fw', 0 <= now ->
    run_calls cfg (schedule env n now) fw = Ok fw' ->
    run_ticks cfg env n now (timers_at now, fw) = Ok (timers_at (now + Z.of_nat n), fw').
Proof.
  induction n as [|n IH]; intros now fw fw' Hn E.
  - cbn [schedule run_calls] in E. injection E as <-. cbn [run_ticks].
    now rewrite Z.add_0_r.
  - cbn [schedule] in E. rewrite run_calls_app in E.
    destruct (run_calls cfg (calls_at (now + 1) (env (now + 1))) fw) as [fw1|] eqn:E1;
      [|discriminate].
    cbn [run_ticks]. rewrite (tick_at _ _ _ fw1) by assumption. cbn [bind] in *.
    rewrite (IH (now + 1) fw1 fw') by (assumption || lia).
    now replace (now + 1 + Z.of_nat n) with (now + Z.of_nat (S n)) by lia.
Qed.

(** The loop runs the calls of its trace, up to the first fault. *)
Lemma run_ticks_calls (env : Z -> Inputs) (n : nat) :
  forall now tm fw,
    firmware_of (run_ticks cfg env n now (tm, fw)) = run_calls cfg (loop_calls env n now tm) fw.
Proof.
  induction n as [|n IH]; intros now tm fw; [reflexivity|].
  cbn [run_ticks loop_calls]. unfold tick. cbn [fst snd].
  destruct (tick_calls (now + 1) (env (now + 1)) tm) as [cs tm']. cbn [fst snd].
  rewrite run_calls_app.
  destruct (run_calls cfg cs fw) as [fw1|e fw1]; cbn [bind firmware_of]; [apply IH | reflexivity].
Qed.

(** [n] passes from start-up of the timers, on a state the loop can run
    on. *)
Lemma loop_run (env : Z -> Inputs) (n : nat) (fw : Firmware) :
  (forall k, inputs_ok (env k)) -> ready fw ->
  exists fw',
    run_ticks cfg env n 0 (timers_boot, fw) = Ok (timers_at (Z.of_nat n), fw') /\
    run_calls cfg (schedule env n 0) fw = Ok fw' /\ ready fw'.
Proof.
  intros He Hr.
  destruct (loop_calls_return (schedule env n 0) (schedule_ok env n He 0) fw Hr)
    as (fw' & E & Hr').
  exists fw'.
  rewrite timers_boot_at, (run_ticks_schedule env n 0 fw fw') by (lia || exact E).
  auto.
Qed.

(** The state after start-up: the probes counted and the zero offset
    taken at the constant reading [z]. *)
Lemma ready_start (d count z : Z) :
  in_int d -> 0 <= count <= 2 -> 0 <= z <= 1023 ->
  ready (on_sense (senseZeroCurrent (fun _ => z))
           (on_sense (configureTempSensors count) (boot d))).
Proof.
  intros Hd Hc Hz. split; [|split; [|exact Hd]]; rewrite !sense_on_sense.
  - apply inv_zero_current; [now apply adc_ok_const|].
    apply inv_configure; [lia | apply inv_boot].
  - rewrite senseZeroCurrent_closed. sense_simpl. lia.
Qed.

End Runs.

(** The window after 100 samples of [c]. *)
Lemma window_full (c : Z) : lastn WINDOW (repeat c 100) = repeat c WINDOW.
Proof.
  change (repeat c 100) with (repeat c 84 ++ repeat c 16).
  rewrite lastn_app_r by (rewrite repeat_length; reflexivity).
  apply lastn_all. rewrite repeat_length. reflexivity.
Qed.

(** ** The machine under the schedule *)

Lemma model_calls_app (cfg : Config) (cs1 cs2 : list Call) (m : Model) :
  model_calls cfg (cs1 ++ cs2) m = model_calls cfg cs2 (model_calls cfg cs1 m).
Proof. apply fold_left_app. Qed.

(** What a pass in which the current is sampled does to the machine. *)
Lemma model_pass (cfg : Config) (dt dv dp : bool) (inp : Inputs) (m : Model) :
  let m' := model_calls cfg (pass dt true dv dp inp) m in
  m_zero m' = m_zero m /\
  m_window m' = lastn WINDOW (m_window m ++ [in_current inp]) /\
  m_reading m' = window_average WINDOW (m_window m') /\
  m_amps m' = amps_of_adc (m_reading m' - m_zero m) /\
  m_volt m' = (if dv then average_onto (m_volt m) (in_voltage inp) else m_volt m) /\
  m_volts m' = (if dv then volts_of_adc (m_volt m') else m_volts m) /\
  m_watts m' = (if dp then m_volts m' * m_amps m' else m_watts m)%Q.
Proof. destruct dt, dv, dp; repeat split. Qed.

Lemma average_onto_const (r v : Z) :
  0 <= r -> 0 <= v -> average_onto v (fun _ => r) = settle r v.
Proof.
  intros Hr Hv. unfold average_onto, settle. rewrite sum_readings_const.
  change (Z.of_nat 5) with 5. zdiv.
Qed.

(** From the sixth call on the accumulated reading is at its fixed
    point. *)
Lemma settle_from_six (r v : Z) (n : nat) :
  0 <= r <= 1023 -> 0 <= v <= 1278 -> (6 <= n)%nat ->
  5 * r - 4 <= 4 * Nat.iter n (settle r) v <= 5 * r.
Proof.
  intros Hr Hv Hn. induction Hn as [|n Hn IH]; [now apply settle_six|].
  rewrite Nat.iter_succ, settle_fixed; [exact IH | | exact IH].
  now apply settle_iter_range.
Qed.

Section Steady.
Variable cfg : Config.
Variables (probe : Z -> Q) (c r : Z).
Hypothesis c_ok : 0 <= c <= 1023.
Hypothesis r_ok : 0 <= r <= 1023.

(** Constant inputs. *)
Definition steady (_ : Z) : Inputs := mkInputs probe c (fun _ => r).

Lemma steady_ok (k : Z) : inputs_ok (steady k).
Proof. split; [exact c_ok | exact (adc_ok_const r r_ok)]. Qed.

(** The electrical variables of the machine after [n] passes at constant
    inputs, from the state [m0]. *)
Record steady_at (m0 : Model) (n : nat) (m : Model) : Prop := mkSteady {
  st_zero : m_zero m = m_zero m0;
  st_volt : m_volt m = Nat.iter (Z.to_nat (Z.of_nat n / 10)) (settle r) (m_volt m0);
  st_window : m_window m = lastn WINDOW (m_window m0 ++ repeat c n);
  st_reading : (0 < n)%nat -> m_reading m = window_average WINDOW (m_window m);
  st_amps : (0 < n)%nat -> m_amps m = amps_of_adc (m_reading m - m_zero m0);
  st_volts : (10 <= n)%nat -> m_volts m = volts_of_adc (m_volt m);
  st_watts : (0 < n)%nat -> Z.of_nat n mod 100 = 0 ->
             m_watts m = (m_volts m * m_amps m)%Q
}.

Lemma steady_start (m0 : Model) :
  (length (m_window m0) <= WINDOW)%nat -> steady_at m0 0 m0.
Proof.
  intros Hl. constructor; try (intros; lia); try reflexivity.
  cbn [repeat]. now rewrite app_nil_r, lastn_all.
Qed.

(** One more pass. *)
Lemma steady_step (m0 : Model) (n : nat) (m : Model) :
  0 <= m_volt m0 <= 1278 -> steady_at m0 n m ->
  steady_at m0 (S n)
    (model_calls cfg (calls_at (Z.of_nat n + 1) (steady (Z.of_nat n + 1))) m).
Proof.
  intros Hv0 [Hz Hv Hw Hi Ha Hvs Hws]. unfold calls_at. rewrite due_at_1.
  pose proof (settle_iter_range r (m_volt m0) (Z.to_nat (Z.of_nat n / 10)) r_ok Hv0) as Hvr.
  pose proof (div_succ_due 10 (Z.of_nat n) ltac:(lia) ltac:(lia)) as Hq.
  pose proof (div_succ_due 100 (Z.of_nat n) ltac:(lia) ltac:(lia)) as Hq'.
  destruct (model_pass cfg (due_at (Z.of_nat n + 1) TEMP_PERIOD)
              (due_at (Z.of_nat n + 1) VSENSE_PERIOD)
              (due_at (Z.of_nat n + 1) PSENSE_PERIOD) (steady (Z.of_nat n + 1)) m)
    as (Ez & Ew & Ei & Ea & Ev & Evs & Ews).
  unfold VSENSE_PERIOD, PSENSE_PERIOD in *. cbn [steady in_current in_voltage] in *.
  constructor; rewrite ?Nat2Z.inj_succ, <- ?Z.add_1_r.
  - now rewrite Ez.
  - rewrite Ev, Hq. destruct (due_at (Z.of_nat n + 1) 10).
    + rewrite Z2Nat.inj_add, Nat.add_1_r, Nat.iter_succ, <- Hv
        by (try lia; apply Z.div_pos; lia).
      apply average_onto_const; [lia | rewrite Hv; lia].
    + now rewrite Z.add_0_r.
  - rewrite Ew, Hw, lastn_lastn_app, <- app_assoc, <- repeat_snoc. reflexivity.
  - intros _. exact Ei.
  - intros _. now rewrite Ea, Hz.
  - intros Hn. rewrite Evs, Ev. unfold due_at in *.
    destruct (Z.eqb_spec ((Z.of_nat n + 1) mod 10) 0) as [E|E]; [reflexivity|].
    apply Hvs. destruct (Nat.eq_dec n 9) as [->|]; [|lia]. now compute in E.
  - intros _ Hm. rewrite Ews. unfold due_at. now rewrite Hm.
Qed.

(** Any number of passes. *)
Lemma steady_run (m0 : Model) (n : nat) :
  0 <= m_volt m0 <= 1278 -> (length (m_window m0) <= WINDOW)%nat ->
  steady_at m0 n (model_calls cfg (schedule steady n 0) m0).
Proof.
  intros Hv Hl. induction n as [|n IH]; [now apply steady_start|].
  replace (S n) with (n + 1)%nat at 2 by lia.
  rewrite schedule_app, model_calls_app. cbn [schedule]. rewrite app_nil_r, Z.add_0_l.
  now apply steady_step.
Qed.

End Steady.

(** ** Counting the calls of an entry point *)

Definition is_current (c : Call) : bool :=
  match c with SenseCurrent _ => true | _ => false end.
Definition is_voltage (c : Call) : bool :=
  match c with SenseVoltage _ => true | _ => false end.
Definition is_power (c : Call) : bool :=
  match c with SensePower => true | _ => false end.
Definition is_temperature (c : Call) : bool :=
  match c with SenseTemperatures _ => true | _ => false end.

Definition count_calls (which : Call -> bool) (cs : list Call) : Z :=
  Z.of_nat (length (List.filter which cs)).

Lemma count_calls_app (which : Call -> bool) (cs1 cs2 : list Call) :
  count_calls which (cs1 ++ cs2) = count_calls which cs1 + count_calls which cs2.
Proof. unfold count_calls. rewrite List.filter_app, length_app. lia. Qed.

Lemma count_pass (dt di dv dp : bool) (inp : Inputs) :
  count_calls is_temperature (pass dt di dv dp inp) = (if dt then 1 else 0) /\
  count_calls is_current (pass dt di dv dp inp) = (if di then 1 else 0) /\
  count_calls is_voltage (pass dt di dv dp inp) = (if dv then 1 else 0) /\
  count_calls is_power (pass dt di dv dp inp) = (if dp then 1 else 0).
Proof. destruct dt, di, dv, dp; repeat split. Qed.

(** The trace of the polled timers is the schedule of the elapsed time. *)
Lemma loop_calls_schedule (env : Z -> Inputs) (n : nat) :
  forall now, 0 <= now -> loop_calls env n now (timers_at now) = schedule env n now.
Proof.
  induction n as [|n IH]; intros now Hn; [reflexivity|].
  cbn [loop_calls schedule]. rewrite tick_calls_at by assumption. cbn [fst snd].
  now rewrite IH by lia.
Qed.

(** The calls of each task in the schedule of [n] passes. *)
Lemma schedule_counts (env : Z -> Inputs) (n : nat) :
  let cs := schedule env n 0 in
  count_calls is_current cs = Z.of_nat n /\
  count_calls is_voltage cs = Z.of_nat n / 10 /\
  count_calls is_power cs = Z.of_nat n / 100 /\
  count_calls is_temperature cs = Z.of_nat n / 1000.
Proof.
  cbv zeta. induction n as [|n (IHi & IHv & IHp & IHt)]; [repeat split|].
  replace (S n) with (n + 1)%nat at 1 3 5 7 by lia.
  rewrite schedule_app, !count_calls_app, IHi, IHv, IHp, IHt.
  cbn [schedule]. rewrite app_nil_r, Z.add_0_l. unfold calls_at.
  destruct (count_pass (due_at (Z.of_nat n + 1) TEMP_PERIOD)
              (due_at (Z.of_nat n + 1) ISENSE_PERIOD) (due_at (Z.of_nat n + 1) VSENSE_PERIOD)
              (due_at (Z.of_nat n + 1) PSENSE_PERIOD) (env (Z.of_nat n + 1)))
    as (-> & -> & -> & ->).
  rewrite due_at_1, Nat2Z.inj_succ, <- Z.add_1_r.
  rewrite !div_succ_due by lia. repeat split.
Qed.

(** ** The theorems of the control loop *)

Section Claims.
Context {T : Target}.
Variable cfg : Config.

(** C34: with at most two probes counted and readings of the converter,
    the loop returns from any number of passes: no call faults, the timers
    are those of the elapsed time, the calls made are those of [schedule],
    and the invariant of the sensing variables holds at the end. *)
Theorem loop_returns (env : Z -> Inputs) (n : nat) (fw : Firmware) :
  (forall k, inputs_ok (env k)) ->
  sense_inv (sense fw) -> deviceCount (sense fw) <= 2 -> in_int (duty fw) ->
  exists fw',
    run_ticks cfg env n 0 (timers_boot, fw) = Ok (timers_at (Z.of_nat n), fw') /\
    run_calls cfg (schedule env n 0) fw = Ok fw' /\
    sense_inv (sense fw') /\ deviceCount (sense fw') <= 2.
Proof.
  intros He Hs Hd Hi.
  destruct (loop_run cfg env n fw He (conj Hs (conj Hd Hi)))
    as (fw' & E & Ec & Hs' & Hd' & _).
  exists fw'. auto.
Qed.

(** C35: the cadence of the tasks, on the loop that polls the timers.
    [n] passes of the loop from start-up of the timers run the calls of
    its trace (up to a fault, if one occurs), and in that trace the
    current is sampled [n] times, the voltage [n / 10] times, the power
    is computed [n / 100] times and the temperatures are read [n / 1000]
    times: each timer fires once per period, and restarts when polled. *)
Theorem schedule_cadence (env : Z -> Inputs) (n : nat) (fw : Firmware) :
  let cs := loop_calls env n 0 timers_boot in
  firmware_of (run_ticks cfg env n 0 (timers_boot, fw)) = run_calls cfg cs fw /\
  count_calls is_current cs = Z.of_nat n /\
  count_calls is_voltage cs = Z.of_nat n / 10 /\
  count_calls is_power cs = Z.of_nat n / 100 /\
  count_calls is_temperature cs = Z.of_nat n / 1000.
Proof.
  cbv zeta. split; [apply run_ticks_calls|].
  rewrite timers_boot_at, loop_calls_schedule by lia. apply schedule_counts.
Qed.

(** C36: the power the firmware computes at steady inputs.  After
    start-up with the zero offset taken at [z], and 100 passes of the loop
    with the current reading constant at [c] and the voltage reading
    constant at [r], the filtered current reading is [c], but the voltage
    reading stored is within one count of [5 r / 4], and [power] is the
    product of the volts of that reading with the amperes of [c - z]: a
    quarter above the power of the inputs. *)
Theorem steady_state_power (d count z c r : Z) (probe : Z -> Q) :
  in_int d -> 0 <= count <= 2 ->
  0 <= z <= 1023 -> 0 <= c <= 1023 -> 0 <= r <= 1023 ->
  let startup := [ConfigureTempSensors count; SenseZeroCurrent (fun _ => z)] in
  exists fw0 fw,
    run_calls cfg startup (boot d) = Ok fw0 /\
    run_ticks cfg (steady probe c r) 100 0 (timers_boot, fw0) = Ok (timers_at 100, fw) /\
    zeroISenseVADC (sense fw) = z /\ iSenseVADC (sense fw) = c /\
    5 * r - 4 <= 4 * vSenseADC (sense fw) <= 5 * r /\
    power (sense fw) = (volts_of_adc (vSenseADC (sense fw)) * amps_of_adc (c - z))%Q.
Proof.
  intros Hd Hcount Hz Hc Hr startup. subst startup.
  assert (Hadc : adc_ok (fun _ : nat => z)) by now apply adc_ok_const.
  assert (Hcfgok : Forall call_ok [ConfigureTempSensors count; SenseZeroCurrent (fun _ => z)])
    by (constructor; [cbn [call_ok]; lia|]; constructor; [exact Hadc | constructor]).
  eexists.
  destruct (loop_run cfg (steady probe c r) 100 _ (steady_ok probe c r Hc Hr)
              (ready_start d count z Hd Hcount Hz)) as (fw & E & Ecalls & _).
  exists fw. split; [reflexivity|]. split; [exact E|].
  pose proof (sim_calls cfg _ _ _ _ Hcfgok eq_refl (sim_boot d Hd)) as Hsim0.
  pose proof (sim_calls cfg _ _ _ _ (Forall_impl _ (fun c H => proj1 H)
                (schedule_ok (steady probe c r) 100 (steady_ok probe c r Hc Hr) 0))
                Ecalls Hsim0) as [_ Ez _ Ei Ev _ _ Ew _ _].
  destruct (steady_run cfg probe c r Hr
              (model_calls cfg [ConfigureTempSensors count; SenseZeroCurrent (fun _ => z)]
                 (model_boot d)) 100)
    as [Sz Sv Sw Si Sa Svs Sws]; [cbn; lia | cbn; lia |].
  rewrite Ez, Ei, Ev, Ew.
  rewrite Sws, Svs, Sa, Si, Sw, Sz, Sv by (lia || reflexivity).
  cbn [model_calls fold_left model_call model_zero m_zero m_volt m_window model_boot app].
  replace (Z.to_nat (Z.of_nat 100 / 10)) with 10%nat by reflexivity.
  rewrite window_full, window_average_constant by (unfold WINDOW; lia).
  rewrite average_onto_const by lia.
  replace (settle z 0) with z by (unfold settle; rewrite Z.quot_0_l by lia; lia).
  repeat split; apply settle_from_six; lia.
Qed.

End Claims.

(** ** The theorems at concrete inputs, on the 16-bit target *)

Lemma loop_returns_witness :
  exists fw',
    run_ticks all_enabled (steady probe_ramp 400 700) 3 0 (timers_boot, after_startup)
    = Ok (timers_at 3, fw').
Proof.
  destruct (reachable_inv all_enabled 100 after_startup in_int_100 after_startup_reachable)
    as [Hs Hd].
  destruct (loop_returns all_enabled (steady probe_ramp 400 700) 3 after_startup)
    as (fw' & E & _); auto.
  - intros k. apply steady_ok; lia.
  - vm_compute. discriminate.
  - exists fw'. exact E.
Defined.

Lemma steady_state_power_witness :
  exists fw0 fw,
    run_calls all_enabled [ConfigureTempSensors 2; SenseZeroCurrent (fun _ => 34)] (boot 100)
    = Ok fw0 /\
    run_ticks all_enabled (steady probe_ramp 400 700) 100 0 (timers_boot, fw0)
    = Ok (timers_at 100, fw) /\
    iSenseVADC (sense fw) = 400 /\ 3496 <= 4 * vSenseADC (sense fw) <= 3500.
Proof.
  destruct (steady_state_power all_enabled 100 2 34 400 700 probe_ramp in_int_100)
    as (fw0 & fw & E0 & E & _ & Hi & Hv & _); try lia.
  exists fw0, fw. auto.
Defined.
